(** * pyvmr: the resumable download manager (src/pyvmr/download.py)

    A shallow embedding of [DownloadManager] and [format_size].  The Python
    code talks to three things outside itself: the file system (pathlib,
    [open], [zipfile]), the network ([requests.get]) and the clock
    ([time.sleep]).  They are gathered in one [World] record that every
    method threads through; exceptions are the [Raise] branch of [result].

    Modelling choices, fixed here once:
    - a [Path] is its parent directory and its final component (the only
      part [suffix], [with_suffix] and [name] look at);
    - what the server answers and whether [open] fails are read from the
      world (functions of the request and of the number of requests made so
      far), so that retries can meet a different answer;
    - what [zipfile] makes of a file is read from the world too: whether
      it accepts the content, the files [extractall] then writes below the
      extraction directory, and the [OSError] that may interrupt it;
    - callbacks ([on_progress], [on_file_complete]) are opaque callables:
      only whether one was passed matters, and each call is logged;
    - [print], [tqdm], [time.sleep], [requests.get] and [extractall] leave an
      event in the world's log, in program order;
    - [mkdir] is logged and taken to succeed, and a [content-length] header
      is taken to hold a number;
    - floats ([retry_delay], [delay], the quotients of [format_size]) are
      exact rationals; [format_size] rounds the first quotient to a double's
      53 bits as CPython's true division does. *)

From Stdlib Require Import ZArith QArith String Ascii List Lia.
From stdpp Require Import base option list gmap strings pretty.

Local Open Scope string_scope.
Local Open Scope Z_scope.
Local Open Scope list_scope.

(** ** Paths (pathlib.PurePosixPath, as far as the code uses it) *)

Record Path := mkPath { parent : string; name : string }.

#[global] Instance Path_eq_dec : EqDecision Path.
Proof. solve_decision. Defined.

#[global] Instance Path_countable : Countable Path.
Proof.
  refine (inj_countable' (fun p => (parent p, name p))
                         (fun t => mkPath t.1 t.2) _).
  by intros [].
Defined.

(** [str(path)] *)
Definition str_path (p : Path) : string := parent p +:+ "/" +:+ name p.

(** [dir / filename], for a [filename] that is a single component. *)
Definition joinpath (dir : Path) (filename : string) : Path :=
  mkPath (str_path dir) filename.

(** [name.rfind('.')], returned as the two halves [name[:i]] and [name[i:]]. *)
Fixpoint rsplit_dot (s : string) : option (string * string) :=
  match s with
  | EmptyString => None
  | String c s' =>
      match rsplit_dot s' with
      | Some (stem, ext) => Some (String c stem, ext)
      | None => if Ascii.eqb c "." then Some (EmptyString, s) else None
      end
  end.

(** [PurePath.suffix]: [name[i:]] when [0 < i < len(name) - 1], else [''] *)
Definition suffix (p : Path) : string :=
  match rsplit_dot (name p) with
  | Some (stem, ext) =>
      if (0 <? String.length stem)%nat && (1 <? String.length ext)%nat
      then ext else ""
  | None => ""
  end.

(** [name[:-len(old_suffix)]] *)
Definition drop_end (n : nat) (s : string) : string :=
  String.substring 0 (String.length s - n) s.

(** [PurePath.with_suffix] (for a non-empty name and a well-formed suffix) *)
Definition with_suffix (p : Path) (new_suffix : string) : Path :=
  let old_suffix := suffix p in
  if String.eqb old_suffix ""
  then mkPath (parent p) (name p +:+ new_suffix)
  else mkPath (parent p) (drop_end (String.length old_suffix) (name p) +:+ new_suffix).

(** [str.lower] on ASCII letters *)
Definition lower_ascii (c : ascii) : ascii :=
  let n := nat_of_ascii c in
  if (65 <=? n)%nat && (n <=? 90)%nat then ascii_of_nat (n + 32) else c.

Fixpoint lower (s : string) : string :=
  match s with
  | EmptyString => EmptyString
  | String c s' => String (lower_ascii c) (lower s')
  end.

(** ** format_size *)

(** The double nearest to an integer (round half to even at 53 bits): what
    [size_bytes / 1024] sees of an [int] operand.  (A quotient too large
    for a double makes Python raise [OverflowError]; the statements below
    keep sizes under 2^1033, where that cannot happen.) *)
Definition to_float (n : Z) : Z :=
  if Z.abs n <? 2 ^ 53 then n
  else
    let e := Z.log2 (Z.abs n) - 52 in
    let m := Z.abs n / 2 ^ e in
    let r := Z.abs n mod 2 ^ e in
    let half := 2 ^ (e - 1) in
    let m' := if (half <? r) || ((r =? half) && Z.odd m) then m + 1 else m in
    Z.sgn n * (m' * 2 ^ e).

(** Round a rational to the nearest integer, ties to even. *)
Definition round_half_even (q : Q) : Z :=
  let d := Z.pos (Qden q) in
  let fl := Qnum q / d in
  let r2 := 2 * (Qnum q mod d) in
  if r2 <? d then fl
  else if d <? r2 then fl + 1
  else if Z.even fl then fl else fl + 1.

(** [f"{x:.1f}"] *)
Definition format_1f (x : Q) : string :=
  let t := round_half_even (x * 10) in
  let a := Z.abs t in
  (if Qlt_le_dec x 0 then "-" else "") +:+ pretty (a / 10) +:+ "." +:+ pretty (a mod 10).

(** The loop of [format_size] over the remaining units; [x] is the current
    value of [size_bytes]. *)
Fixpoint format_size_loop (units : list string) (x : Q) : string :=
  match units with
  | [] => format_1f x +:+ " PB"
  | unit :: rest =>
      if Qlt_le_dec x 1024 then format_1f x +:+ " " +:+ unit
      else format_size_loop rest (x / 1024)
  end.

Definition size_units : list string := ["B"; "KB"; "MB"; "GB"; "TB"].

(** [format_size]: the first test and the first division are on the [int]
    argument, the later ones on the float it became. *)
Definition format_size (size_bytes : Z) : string :=
  match size_units with
  | [] => format_1f (inject_Z size_bytes) +:+ " PB"
  | unit :: rest =>
      if size_bytes <? 1024 then format_1f (inject_Z size_bytes) +:+ " " +:+ unit
      else format_size_loop rest (inject_Z (to_float size_bytes) / 1024)
  end.

(** ** Exceptions, results and the world *)

Abbreviation bytes := (list Byte.byte).

(** The exception classes the module can see.  [RequestException] stands
    for [requests.RequestException] and its subclasses (connection errors,
    time-outs, the [HTTPError] of [raise_for_status]); [IOError] for the
    failures of [open]. *)
Inductive exn :=
| RequestException (msg : string)
| IOError (msg : string)
| DownloadError (msg : string)
| KeyError (key : string)
| BadZipFile (msg : string).

#[global] Instance exn_eq_dec : EqDecision exn.
Proof. solve_decision. Defined.

(** [str(e)] *)
Definition str_exn (e : exn) : string :=
  match e with
  | RequestException m | IOError m | DownloadError m | BadZipFile m => m
  | KeyError k => "'" +:+ k +:+ "'"
  end.

(** [f"{last_error}"] for a value that may be [None] *)
Definition str_opt_exn (e : option exn) : string :=
  match e with Some e => str_exn e | None => "None" end.

Inductive result (A : Type) :=
| Ok (a : A)
| Raise (e : exn).
Arguments Ok {A} a.
Arguments Raise {A} e.

(** A streamed response: its status, the [content-length] header when the
    server sent one, the chunks [iter_content] yields, and the error that
    breaks the stream after them, if any. *)
Record response := mkResponse {
  status_code : Z;
  content_length : option Z;
  chunks : list bytes;
  stream_error : option string
}.

Inductive net_outcome :=
| ConnectionFails (msg : string)
| Responds (r : response).

(** What [requests.get] is called with: the URL and the offset of the
    [Range: bytes=<offset>-] header, when there is one. *)
Record request := mkRequest { req_url : string; req_range : option Z }.

Inductive event :=
| EvMkdir (dir : string)
| EvRequest (r : request)
| EvSleep (seconds : Q)
| EvPrint (line : string)
| EvBarOpen (total initial : Z) (desc : string)
| EvBarUpdate (n : Z)
| EvBarClose
| EvOnProgress (bytes_downloaded total_size : Z)
| EvFileComplete (filename : string) (p : Path)
| EvExtractAll (archive extract_dir : Path).

(** What [extractall] makes of an archive: the regular files it writes,
    in the order of the archive, each with its path below the extraction
    directory ([parent] is the directory part below it, every component
    with its leading slash, and is empty for a member at the top; member
    names are sanitised by [zipfile], so that nothing is written anywhere
    else), and the [OSError] that stops it after them, if there is one. *)
Record unpacking := mkUnpacking {
  written : list (Path * bytes);
  unpack_error : option string
}.

Record World := mkWorld {
  fs : gmap Path bytes;                    (* the regular files on disk *)
  server : request -> nat -> net_outcome;  (* answer to the n-th request *)
  open_fails : Path -> nat -> option string; (* does [open] raise, after n requests *)
  is_zip : bytes -> bool;                  (* does [zipfile] accept the content *)
  unpack : bytes -> nat -> unpacking;      (* what [extractall] does, after n requests *)
  requests_made : nat;
  log : list event
}.

Definition set_fs (f : gmap Path bytes -> gmap Path bytes) (w : World) : World :=
  mkWorld (f (fs w)) (server w) (open_fails w) (is_zip w) (unpack w) (requests_made w)
          (log w).

Definition emit (e : event) (w : World) : World :=
  mkWorld (fs w) (server w) (open_fails w) (is_zip w) (unpack w) (requests_made w)
          (log w ++ [e])%list.

Definition tick (w : World) : World :=
  mkWorld (fs w) (server w) (open_fails w) (is_zip w) (unpack w) (S (requests_made w))
          (log w).

(** State and exceptions. *)
Definition M (A : Type) : Type := World -> result A * World.

Definition ret {A} (a : A) : M A := fun w => (Ok a, w).
Definition raise {A} (e : exn) : M A := fun w => (Raise e, w).
Definition bind {A B} (m : M A) (k : A -> M B) : M B :=
  fun w => match m w with
           | (Ok a, w') => k a w'
           | (Raise e, w') => (Raise e, w')
           end.
Definition do (f : World -> World) : M unit := fun w => (Ok tt, f w).
Definition gets {A} (f : World -> A) : M A := fun w => (Ok (f w), w).

Notation "'let*' x := m 'in' k" := (bind m (fun x => k))
  (at level 10, x name, m at level 100, k at level 200).
Notation "m >>> k" := (bind m (fun _ => k))
  (at level 90, right associativity).

(** [try: body finally: fin] *)
Definition try_finally {A} (body : M A) (fin : World -> World) : M A :=
  fun w => let '(r, w') := body w in (r, fin w').

(** [when c: m] *)
Definition when (c : bool) (m : M unit) : M unit := if c then m else ret tt.

(** *** The primitives *)

Definition path_exists (p : Path) : M bool := gets (fun w => bool_decide (is_Some (fs w !! p))).

(** [p.stat().st_size] of an existing file *)
Definition st_size (p : Path) : M Z :=
  gets (fun w => match fs w !! p with Some b => Z.of_nat (length b) | None => 0 end).

(** [src.rename(dst)]: POSIX rename, replacing [dst] *)
Definition rename (src dst : Path) : M unit :=
  do (set_fs (fun f => match f !! src with
                       | Some b => <[dst := b]> (delete src f)
                       | None => f
                       end)).

Definition sleep (seconds : Q) : M unit := do (emit (EvSleep seconds)).
Definition print (line : string) : M unit := do (emit (EvPrint line)).

(** [requests.get(url, headers=headers, stream=True, timeout=...)] *)
Definition requests_get (url : string) (range : option Z) : M response :=
  fun w =>
    let rq := mkRequest url range in
    let w' := tick (emit (EvRequest rq) w) in
    match server w rq (requests_made w) with
    | ConnectionFails msg => (Raise (RequestException msg), w')
    | Responds r => (Ok r, w')
    end.

(** [response.raise_for_status()]: an [HTTPError] for 4xx and 5xx *)
Definition raise_for_status (url : string) (r : response) : M unit :=
  if (400 <=? status_code r) && (status_code r <? 600)
  then raise (RequestException (pretty (status_code r) +:+ " Error for url: " +:+ url))
  else ret tt.

(** [open(p, mode)]: ["wb"] truncates or creates, ["ab"] keeps the content *)
Definition open_file (p : Path) (append : bool) : M unit :=
  fun w =>
    match open_fails w p (requests_made w) with
    | Some msg => (Raise (IOError msg), w)
    | None =>
        (Ok tt, set_fs (fun f => if append
                                 then match f !! p with Some _ => f | None => <[p := []]> f end
                                 else <[p := []]> f) w)
    end.

(** [f.write(chunk)] on the file opened at [p] *)
Definition write_chunk (p : Path) (chunk : bytes) : M unit :=
  do (set_fs (fun f => <[p := (default [] (f !! p) ++ chunk)%list]> f)).

(** [try: m except <the classes h answers to>: h e] *)
Definition try_except {A} (m : M A) (h : exn -> option (M A)) : M A :=
  fun w => match m w with
           | (Ok a, w') => (Ok a, w')
           | (Raise e, w') =>
               match h e with
               | Some handler => handler w'
               | None => (Raise e, w')
               end
           end.

(** Python truthiness of an [Optional[int]]: [None] and [0] are false. *)
Definition truthy (o : option Z) : bool :=
  match o with Some n => negb (n =? 0) | None => false end.

(** ** DownloadManager *)

Record DownloadManager := mkManager {
  chunk_size : Z;
  timeout : Z;
  max_retries : Z;
  retry_delay : Q;
  show_progress : bool
}.

(** [extract_dir / member], for the path of a member below [extract_dir] *)
Definition member_path (extract_dir member : Path) : Path :=
  mkPath (str_path extract_dir +:+ parent member) (name member).

(** The files of [ms] written below [extract_dir], one after the other. *)
Definition write_members (extract_dir : Path) (ms : list (Path * bytes))
    (f : gmap Path bytes) : gmap Path bytes :=
  foldl (fun f m => <[member_path extract_dir m.1 := m.2]> f) f ms.

(** [zf.extractall(extract_dir)]: the call is logged, the members are
    written, and the [OSError] that interrupts it, if any, is raised after
    the members written before it. *)
Definition extractall (file_path extract_dir : Path) (u : unpacking) : M unit :=
  do (emit (EvExtractAll file_path extract_dir)) >>>
  do (set_fs (write_members extract_dir (written u))) >>>
  match unpack_error u with
  | Some msg => raise (IOError msg)
  | None => ret tt
  end.

(** [DownloadManager._handle_extraction].  [zipfile.ZipFile(file_path)]
    raises [FileNotFoundError] for a missing file and [BadZipFile] for a
    content it rejects; other errors of [zipfile] (an encrypted member, a
    compression it does not know) are counted as rejections. *)
Definition _handle_extraction (self : DownloadManager) (file_path : Path)
    (extract : bool) : M Path :=
  if negb extract || negb (String.eqb (lower (suffix file_path)) ".zip")
  then ret file_path
  else
    let extract_dir := with_suffix file_path "" in
    when (show_progress self) (print ("Extracting " +:+ name file_path +:+ "...")) >>>
    let* content := gets (fun w => fs w !! file_path) in
    let* accepts := gets is_zip in
    match content with
    | None => raise (IOError ("No such file: " +:+ str_path file_path))
    | Some b =>
        if accepts b
        then
          let* u := gets (fun w => unpack w b (requests_made w)) in
          extractall file_path extract_dir u >>> ret extract_dir
        else raise (BadZipFile "File is not a zip file")
    end.

(** Lines 134-139: the total handed to the progress bar and the callback. *)
Definition total_size_of (r : response) (resume_pos : Z)
    (expected_size : option Z) : Z :=
  let total_size := default 0 (content_length r) in
  if status_code r =? 206 then total_size + resume_pos
  else if truthy expected_size then default 0 expected_size
  else total_size.

(** The body of [for chunk in response.iter_content(...)], over the chunks
    still to come; returns the final [bytes_downloaded]. *)
Fixpoint write_chunks (temp_path : Path) (progress_bar on_progress : bool)
    (total_size : Z) (cs : list bytes) (bytes_downloaded : Z) : M Z :=
  match cs with
  | [] => ret bytes_downloaded
  | chunk :: rest =>
      match chunk with
      | [] => write_chunks temp_path progress_bar on_progress total_size rest
                bytes_downloaded
      | _ :: _ =>
          let n := Z.of_nat (length chunk) in
          let bytes_downloaded := bytes_downloaded + n in
          write_chunk temp_path chunk >>>
          when progress_bar (do (emit (EvBarUpdate n))) >>>
          when on_progress (do (emit (EvOnProgress bytes_downloaded total_size))) >>>
          write_chunks temp_path progress_bar on_progress total_size rest
            bytes_downloaded
      end
  end.

(** The [with open(...)] block: the chunks, then the error that ends the
    stream early, if the server breaks it. *)
Definition stream_to_file (temp_path : Path) (append progress_bar on_progress : bool)
    (total_size : Z) (r : response) (resume_pos : Z) : M Z :=
  open_file temp_path append >>>
  let* bytes_downloaded :=
    write_chunks temp_path progress_bar on_progress total_size (chunks r) resume_pos in
  match stream_error r with
  | Some msg => raise (RequestException msg)
  | None => ret bytes_downloaded
  end.

Definition temp_path_of (output_path : Path) : Path :=
  with_suffix output_path (suffix output_path +:+ ".part").

(** Lines 132-184 of [_download_with_progress]: everything after the 416 test. *)
Definition transfer (self : DownloadManager) (url : string) (output_path : Path)
    (expected_size : option Z) (description : option string) (extract : bool)
    (on_progress : bool) (temp_path : Path) (resume_pos : Z) (r : response) : M Path :=
  raise_for_status url r >>>
  let total_size := total_size_of r resume_pos expected_size in
  let desc := match description with
              | Some d => if String.eqb d "" then name output_path else d
              | None => name output_path
              end in
  let progress_bar := show_progress self && (0 <? total_size) in
  when progress_bar (do (emit (EvBarOpen total_size resume_pos desc))) >>>
  let* bytes_downloaded :=
    try_finally
      (stream_to_file temp_path (0 <? resume_pos) progress_bar on_progress
         total_size r resume_pos)
      (fun w => if progress_bar then emit EvBarClose w else w) in
  if truthy expected_size && negb (bytes_downloaded =? default 0 expected_size)
  then raise (DownloadError ("Size mismatch: expected "
                             +:+ pretty (default 0 expected_size)
                             +:+ ", got " +:+ pretty bytes_downloaded))
  else rename temp_path output_path >>> _handle_extraction self output_path extract.

(** [DownloadManager._download_with_progress] *)
Definition _download_with_progress (self : DownloadManager) (url : string)
    (output_path : Path) (expected_size : option Z) (description : option string)
    (extract : bool) (on_progress : bool) : M Path :=
  let temp_path := temp_path_of output_path in
  let* has_part := path_exists temp_path in
  let* resume_pos := if has_part then st_size temp_path else ret 0 in
  let range := if has_part then Some resume_pos else None in
  let* r := requests_get url range in
  let* still_there := path_exists temp_path in
  if (status_code r =? 416) && still_there
  then rename temp_path output_path >>> _handle_extraction self output_path extract
  else transfer self url output_path expected_size description extract on_progress
         temp_path resume_pos r.

(** [except (requests.RequestException, IOError)] *)
Definition caught_by_download (e : exn) : bool :=
  match e with
  | RequestException _ | IOError _ => true
  | _ => false
  end.

(** The [for attempt in range(self.max_retries)] loop of [download], with
    [remaining] iterations to go, and the [raise] after it. *)
Fixpoint download_attempts (self : DownloadManager) (url : string)
    (one_attempt : M Path) (remaining : nat) (attempt : Z)
    (last_error : option exn) : M Path :=
  match remaining with
  | O =>
      raise (DownloadError ("Failed to download " +:+ url +:+ " after "
                            +:+ pretty (max_retries self) +:+ " attempts: "
                            +:+ str_opt_exn last_error))
  | S remaining' =>
      try_except one_attempt
        (fun e =>
           if caught_by_download e
           then Some (when (attempt <? max_retries self - 1)
                        (sleep (retry_delay self * inject_Z (attempt + 1))) >>>
                      download_attempts self url one_attempt remaining'
                        (attempt + 1) (Some e))
           else None)
  end.

(** [DownloadManager.download] *)
Definition download (self : DownloadManager) (url : string) (output_path : Path)
    (expected_size : option Z) (description : option string) (extract : bool)
    (on_progress : bool) : M Path :=
  do (emit (EvMkdir (parent output_path))) >>>
  download_attempts self url
    (_download_with_progress self url output_path expected_size description
       extract on_progress)
    (Z.to_nat (max_retries self)) 0 None.

(** A batch record: a dict in which ['url'], ['filename'] and ['size'] may
    each be present or not. *)
Record dl_record := mkRecord {
  dl_url : option string;
  dl_filename : option string;
  dl_size : option Z
}.

(** [dl[key]] *)
Definition getitem (key : string) (v : option string) : M string :=
  match v with Some x => ret x | None => raise (KeyError key) end.

Definition newline : string := String (ascii_of_nat 10) EmptyString.

(** [delay > 0] *)
Definition positive_delay (delay : Q) : bool := negb (Qle_bool delay 0).

(** The [for i, dl in enumerate(downloads)] loop of [download_batch]. *)
Fixpoint download_batch_loop (self : DownloadManager) (output_dir : Path)
    (extract : bool) (delay : Q) (on_file_complete : bool) (total : Z) (i : Z)
    (downloads : list dl_record) (results : list (option Path))
    : M (list (option Path)) :=
  match downloads with
  | [] => ret results
  | dl :: rest =>
      let* url := getitem "url" (dl_url dl) in
      let* filename := getitem "filename" (dl_filename dl) in
      let expected_size := dl_size dl in
      let output_path := joinpath output_dir filename in
      when (show_progress self)
        (print (newline +:+ "[" +:+ pretty (i + 1) +:+ "/" +:+ pretty total
                +:+ "] Downloading " +:+ filename)) >>>
      let* results :=
        try_except
          (let* result_path :=
             download self url output_path expected_size None extract false in
           when on_file_complete (do (emit (EvFileComplete filename result_path))) >>>
           ret (results ++ [Some result_path])%list)
          (fun e =>
             match e with
             | DownloadError _ =>
                 Some (when (show_progress self) (print ("  Error: " +:+ str_exn e)) >>>
                       ret (results ++ [None])%list)
             | _ => None
             end) in
      when ((i <? total - 1) && positive_delay delay) (sleep delay) >>>
      download_batch_loop self output_dir extract delay on_file_complete total
        (i + 1) rest results
  end.

(** [DownloadManager.download_batch] *)
Definition download_batch (self : DownloadManager) (downloads : list dl_record)
    (output_dir : Path) (extract : bool) (delay : Q) (on_file_complete : bool)
    : M (list (option Path)) :=
  do (emit (EvMkdir (str_path output_dir))) >>>
  download_batch_loop self output_dir extract delay on_file_complete
    (Z.of_nat (length downloads)) 0 downloads [].

(** ** Catalogue entries (src/pyvmr/models.py)

    The dataclasses, with the fields that the filters and the client read;
    [file_size] is the [_file_size] behind the property of that name.
    Strings are taken to be ASCII, so that [str.lower] is [lower]. *)

Module Model.
Record t := mk {
  name : string;
  sex : string;
  age : option Q;
  species : string;
  ethnicity : string;
  anatomy : string;
  disease : string;
  has_images : bool;
  has_paths : bool;
  has_segmentations : bool;
  has_meshes : bool;
  has_simulations : bool;
  has_results : bool;
  model_creator : string;
  file_size : option Z
}.
End Model.

Module SimulationResult.
Record t := mk {
  model_name : string;
  full_filename : string;
  fidelity : string;
  method : string;
  condition : string;
  results_type : string;
  file_type : string;
  creator : string;
  file_size : option Z
}.
End SimulationResult.

Module AdditionalDataset.
Record t := mk {
  name : string;
  file_size : option Z
}.
End AdditionalDataset.

(** ** Filters (src/pyvmr/filters.py) *)

(** [p in s] *)
Fixpoint contains (s p : string) : bool :=
  String.prefix p s ||
  match s with
  | EmptyString => false
  | String _ s' => contains s' p
  end.

(** [not s] for a string *)
Definition is_empty (s : string) : bool :=
  match s with EmptyString => true | _ => false end.

Definition _match_string (value pattern : string) : bool :=
  if is_empty value || is_empty pattern then false
  else contains (lower value) (lower pattern).

Definition _match_exact (value pattern : string) : bool :=
  if is_empty value || is_empty pattern then false
  else String.eqb (lower pattern) (lower value).

Definition species_map : gmap string string :=
  {[ "h" := "human"; "a" := "animal"; "human" := "human"; "animal" := "animal" ]}.

Definition _match_species (value pattern : string) : bool :=
  if is_empty value || is_empty pattern then false
  else
    let value_lower := lower value in
    let pattern_lower := lower pattern in
    if contains value_lower pattern_lower then true
    else
      let pattern_normalized := default pattern_lower (species_map !! pattern_lower) in
      let value_normalized := default value_lower (species_map !! value_lower) in
      String.eqb pattern_normalized value_normalized.

(** [if criterion is not None: result = [x for x in result if test(x, criterion)]] *)
Definition narrow {A C : Type} (criterion : option C) (test : A -> C -> bool)
    (result : list A) : list A :=
  match criterion with
  | Some c => List.filter (fun x => test x c) result
  | None => result
  end.

(** The keyword arguments of [filter_models]. *)
Record model_criteria := mkModelCriteria {
  by_name : option string;
  by_species : option string;
  by_anatomy : option string;
  by_disease : option string;
  by_sex : option string;
  by_age_min : option Q;
  by_age_max : option Q;
  by_ethnicity : option string;
  by_has_simulations : option bool;
  by_has_meshes : option bool;
  by_has_segmentations : option bool;
  by_has_images : option bool;
  by_has_paths : option bool;
  by_has_results : option bool;
  by_model_creator : option string;
  by_custom_filter : option (Model.t -> bool)
}.

(** [m.age is not None and m.age >= age_min], for ages that are numbers
    (no NaN) *)
Definition age_at_least (m : Model.t) (age_min : Q) : bool :=
  match Model.age m with Some a => Qle_bool age_min a | None => false end.

Definition age_at_most (m : Model.t) (age_max : Q) : bool :=
  match Model.age m with Some a => Qle_bool a age_max | None => false end.

Definition filter_models (models : list Model.t) (c : model_criteria) : list Model.t :=
  let result := models in
  let result := narrow (by_name c) (fun m => _match_string (Model.name m)) result in
  let result := narrow (by_species c) (fun m => _match_species (Model.species m)) result in
  let result := narrow (by_anatomy c) (fun m => _match_string (Model.anatomy m)) result in
  let result := narrow (by_disease c) (fun m => _match_string (Model.disease m)) result in
  let result := narrow (by_sex c) (fun m => _match_exact (Model.sex m)) result in
  let result := narrow (by_age_min c) age_at_least result in
  let result := narrow (by_age_max c) age_at_most result in
  let result := narrow (by_ethnicity c) (fun m => _match_string (Model.ethnicity m)) result in
  let result := narrow (by_has_simulations c)
                  (fun m => Bool.eqb (Model.has_simulations m)) result in
  let result := narrow (by_has_meshes c) (fun m => Bool.eqb (Model.has_meshes m)) result in
  let result := narrow (by_has_segmentations c)
                  (fun m => Bool.eqb (Model.has_segmentations m)) result in
  let result := narrow (by_has_images c) (fun m => Bool.eqb (Model.has_images m)) result in
  let result := narrow (by_has_paths c) (fun m => Bool.eqb (Model.has_paths m)) result in
  let result := narrow (by_has_results c) (fun m => Bool.eqb (Model.has_results m)) result in
  let result := narrow (by_model_creator c)
                  (fun m => _match_string (Model.model_creator m)) result in
  let result := narrow (by_custom_filter c) (fun m f => f m) result in
  result.

(** The keyword arguments of [filter_simulations]. *)
Record simulation_criteria := mkSimulationCriteria {
  by_model_name : option string;
  by_fidelity : option string;
  by_method : option string;
  by_condition : option string;
  by_results_type : option string;
  by_file_type : option string;
  by_creator : option string;
  by_custom_sim_filter : option (SimulationResult.t -> bool)
}.

Definition filter_simulations (simulations : list SimulationResult.t)
    (c : simulation_criteria) : list SimulationResult.t :=
  let result := simulations in
  let result := narrow (by_model_name c)
                  (fun s => _match_string (SimulationResult.model_name s)) result in
  let result := narrow (by_fidelity c)
                  (fun s => _match_string (SimulationResult.fidelity s)) result in
  let result := narrow (by_method c)
                  (fun s => _match_string (SimulationResult.method s)) result in
  let result := narrow (by_condition c)
                  (fun s => _match_string (SimulationResult.condition s)) result in
  let result := narrow (by_results_type c)
                  (fun s => _match_string (SimulationResult.results_type s)) result in
  let result := narrow (by_file_type c)
                  (fun s => _match_string (SimulationResult.file_type s)) result in
  let result := narrow (by_creator c)
                  (fun s => _match_string (SimulationResult.creator s)) result in
  let result := narrow (by_custom_sim_filter c) (fun s f => f s) result in
  result.

(** ** The client (src/pyvmr/client.py)

    The catalogue is taken as loaded: [get_models], [get_simulations] and
    [get_additional_datasets] of the catalogue manager return the lists it
    holds in memory.  What the catalogue manager does before that -- the
    first call on a fresh client fetches the CSV files, parses them and
    writes its cache (src/pyvmr/catalog.py) -- is not part of this model,
    and nothing below speaks of it. *)

Record Catalog := mkCatalog {
  get_models : list Model.t;
  get_simulations_all : list SimulationResult.t;
  get_additional_datasets : list AdditionalDataset.t
}.

Record VMRClient := mkClient {
  _catalog : Catalog;
  _downloader : DownloadManager
}.

Definition BASE_URL : string := "https://www.vascularmodel.com".

(** [PROJECTS_DOWNLOAD_URL.format(name=name)] and its siblings *)
Definition PROJECTS_DOWNLOAD_URL (name : string) : string :=
  BASE_URL +:+ "/svprojects/" +:+ name +:+ ".zip".
Definition RESULTS_DOWNLOAD_URL (model_name filename : string) : string :=
  BASE_URL +:+ "/svresults/" +:+ model_name +:+ "/" +:+ filename.
Definition ADDITIONAL_DOWNLOAD_URL (name : string) : string :=
  BASE_URL +:+ "/additionaldata/" +:+ name +:+ ".zip".
Definition PDF_DOWNLOAD_URL (name : string) : string :=
  BASE_URL +:+ "/vmr-pdfs/" +:+ name +:+ ".pdf".

(** [VMRClient.get_model]: the first model of that exact name *)
Definition get_model (self : VMRClient) (name : string) : option Model.t :=
  List.find (fun model => String.eqb (Model.name model) name)
    (get_models (_catalog self)).

(** [VMRClient.get_simulations] *)
Definition get_simulations (self : VMRClient) (model_name : string)
    : list SimulationResult.t :=
  filter_simulations (get_simulations_all (_catalog self))
    (mkSimulationCriteria (Some model_name) None None None None None None None).

(** [VMRClient.get_download_size] *)
Definition get_download_size (self : VMRClient) (name : string) : option Z :=
  match get_model self name with
  | Some model => Model.file_size model
  | None => None
  end.

(** The exceptions of the client: those of the download manager, and the
    [ValueError] of an unknown model. *)
Inductive client_exn :=
| ValueError (msg : string)
| Downloader (e : exn).

Inductive client_result (A : Type) :=
| Returns (a : A)
| Raises (e : client_exn).
Arguments Returns {A} a.
Arguments Raises {A} e.

Definition CM (A : Type) : Type := World -> client_result A * World.

(** A call into the download manager, from the client. *)
Definition call {A} (m : M A) : CM A :=
  fun w => match m w with
           | (Ok a, w') => (Returns a, w')
           | (Raise e, w') => (Raises (Downloader e), w')
           end.

Definition cbind {A B} (m : CM A) (k : A -> CM B) : CM B :=
  fun w => match m w with
           | (Returns a, w') => k a w'
           | (Raises e, w') => (Raises e, w')
           end.

Definition creturn {A} (a : A) : CM A := fun w => (Returns a, w).

(** The records [download_simulations] builds, one for every simulation. *)
Definition simulation_record (model_name : string) (sim : SimulationResult.t)
    : dl_record :=
  mkRecord (Some (RESULTS_DOWNLOAD_URL model_name (SimulationResult.full_filename sim)))
           (Some (SimulationResult.full_filename sim))
           (SimulationResult.file_size sim).

(** [VMRClient.download_simulations]; the batch runs with its default
    delay of 0.5 and without a completion callback. *)
Definition download_simulations (self : VMRClient) (model_name : string)
    (output_dir : Path) (extract : bool) : M (list (option Path)) :=
  let sims := get_simulations self model_name in
  match sims with
  | [] => ret []
  | _ :: _ =>
      download_batch (_downloader self) (map (simulation_record model_name) sims)
        output_dir extract (1 # 2) false
  end.

(** [VMRClient.download_pdf] *)
Definition download_pdf (self : VMRClient) (name : string) (output_dir : Path) : M Path :=
  download (_downloader self) (PDF_DOWNLOAD_URL name)
    (joinpath output_dir (name +:+ ".pdf")) None (Some (name +:+ ".pdf")) false false.

(** The [if include_simulations:] block shared by [download] and
    [download_batch]: the simulations of one model, when it has any. *)
Definition fetch_simulations (self : VMRClient) (name : string) (output_dir : Path)
    (extract : bool) : M unit :=
  match get_simulations self name with
  | [] => ret tt
  | _ :: _ =>
      download_simulations self name (joinpath output_dir (name +:+ "_simulations"))
        extract >>> ret tt
  end.

(** [VMRClient.download] *)
Definition client_download (self : VMRClient) (name : string) (output_dir : Path)
    (extract include_simulations include_pdf : bool) : CM Path :=
  match get_model self name with
  | None => fun w => (Raises (ValueError ("Model not found: " +:+ name)), w)
  | Some model =>
      cbind (call (download (_downloader self) (PROJECTS_DOWNLOAD_URL name)
                     (joinpath output_dir (name +:+ ".zip")) (Model.file_size model)
                     (Some name) extract false))
        (fun result =>
           cbind (call (when include_simulations
                          (fetch_simulations self name output_dir extract)))
             (fun _ =>
                cbind (call (if include_pdf
                             then download_pdf self name output_dir >>> ret tt
                             else ret tt))
                  (fun _ => creturn result)))
  end.

(** The records [VMRClient.download_batch] gathers: one for every name
    the catalogue knows, none for the others. *)
Fixpoint gather_downloads (self : VMRClient) (names : list string) : list dl_record :=
  match names with
  | [] => []
  | name :: rest =>
      match get_model self name with
      | Some model =>
          mkRecord (Some (PROJECTS_DOWNLOAD_URL name)) (Some (name +:+ ".zip"))
                   (Model.file_size model)
          :: gather_downloads self rest
      | None => gather_downloads self rest
      end
  end.

(** The second loop of [VMRClient.download_batch]. *)
Fixpoint fetch_all_simulations (self : VMRClient) (names : list string)
    (output_dir : Path) (extract : bool) : M unit :=
  match names with
  | [] => ret tt
  | name :: rest =>
      fetch_simulations self name output_dir extract >>>
      fetch_all_simulations self rest output_dir extract
  end.

(** [VMRClient.download_batch] *)
Definition client_download_batch (self : VMRClient) (names : list string)
    (output_dir : Path) (extract include_simulations : bool)
    : M (list (option Path)) :=
  let downloads := gather_downloads self names in
  let* results := download_batch (_downloader self) downloads output_dir extract
                    (1 # 2) false in
  when include_simulations (fetch_all_simulations self names output_dir extract) >>>
  ret results.

(** [VMRClient.download_simulation] *)
Definition download_simulation (self : VMRClient) (model_name simulation_name : string)
    (output_dir : Path) (extract : bool) : M Path :=
  let sim := List.find (fun s => String.eqb (SimulationResult.full_filename s)
                                   simulation_name)
               (get_simulations self model_name) in
  download (_downloader self) (RESULTS_DOWNLOAD_URL model_name simulation_name)
    (joinpath output_dir simulation_name)
    (match sim with Some s => SimulationResult.file_size s | None => None end)
    (Some simulation_name) extract false.

(** [VMRClient.download_additional_dataset] *)
Definition download_additional_dataset (self : VMRClient) (name : string)
    (output_dir : Path) (extract : bool) : M Path :=
  let dataset := List.find (fun d => String.eqb (AdditionalDataset.name d) name)
                   (get_additional_datasets (_catalog self)) in
  download (_downloader self) (ADDITIONAL_DOWNLOAD_URL name)
    (joinpath output_dir (name +:+ ".zip"))
    (match dataset with Some d => AdditionalDataset.file_size d | None => None end)
    (Some name) extract false.

(** ** Vocabulary of the statements *)

(** [k] divisions by 1024. *)
Definition scale (k : nat) (x : Q) : Q := Nat.iter k (fun y => (y / 1024)%Q) x.

(** The unit reached after [k] divisions. *)
Definition unit_of (k : nat) : string := nth k size_units "PB".

(** The resume offset an attempt starts from: the size of the partial
    file, 0 when there is none. *)
Definition resume_pos_of (output_path : Path) (w : World) : Z :=
  match fs w !! temp_path_of output_path with
  | Some b => Z.of_nat (length b)
  | None => 0
  end.

(** The request the next attempt sends: a [Range] header exactly when the
    partial file exists. *)
Definition next_request (url : string) (output_path : Path) (w : World) : request :=
  mkRequest url (match fs w !! temp_path_of output_path with
                 | Some b => Some (Z.of_nat (length b))
                 | None => None
                 end).

(** The world after [requests.get] returned or raised. *)
Definition requested (url : string) (output_path : Path) (w : World) : World :=
  tick (emit (EvRequest (next_request url output_path w)) w).

(** What the streaming loop reports, chunk by chunk. *)
Fixpoint chunk_events (progress_bar on_progress : bool) (total_size : Z)
    (cs : list bytes) (bytes_downloaded : Z) : list event :=
  match cs with
  | [] => []
  | [] :: rest => chunk_events progress_bar on_progress total_size rest bytes_downloaded
  | chunk :: rest =>
      let n := Z.of_nat (length chunk) in
      (if progress_bar then [EvBarUpdate n] else []) ++
      (if on_progress then [EvOnProgress (bytes_downloaded + n) total_size] else []) ++
      chunk_events progress_bar on_progress total_size rest (bytes_downloaded + n)
  end.

(** [description or output_path.name] *)
Definition desc_of (description : option string) (output_path : Path) : string :=
  match description with
  | Some d => if String.eqb d "" then name output_path else d
  | None => name output_path
  end.

(** Everything one streamed response leaves in the log: the progress bar
    opened, the chunks reported, the bar closed. *)
Definition stream_events (self : DownloadManager) (output_path : Path)
    (expected_size : option Z) (description : option string) (on_progress : bool)
    (resume_pos : Z) (r : response) : list event :=
  let total_size := total_size_of r resume_pos expected_size in
  let progress_bar := show_progress self && (0 <? total_size) in
  (if progress_bar
   then [EvBarOpen total_size resume_pos (desc_of description output_path)] else []) ++
  chunk_events progress_bar on_progress total_size (chunks r) resume_pos ++
  (if progress_bar then [EvBarClose] else []).

(** The partial file once a response has been streamed into it. *)
Definition streamed_content (output_path : Path) (r : response) (w : World) : bytes :=
  (if 0 <? resume_pos_of output_path w
   then default [] (fs w !! temp_path_of output_path) else []) ++ concat (chunks r).

(** The total an event reports, for the events that report one. *)
Definition reports_total (total : Z) (ev : event) : Prop :=
  match ev with
  | EvBarOpen t _ _ | EvOnProgress _ t => t = total
  | _ => True
  end.

(** A status [raise_for_status] lets through. *)
Definition status_ok (r : response) : Prop :=
  ~ (400 <= status_code r < 600).

(** The world with [evs] appended to its log. *)
Definition logged (evs : list event) (w : World) : World :=
  mkWorld (fs w) (server w) (open_fails w) (is_zip w) (unpack w) (requests_made w)
          (log w ++ evs).

(** The world with content [b] stored at [p]. *)
Definition stored (p : Path) (b : bytes) (w : World) : World :=
  set_fs (fun f => <[p := b]> f) w.

(** The world with the partial file of [output_path] renamed onto it. *)
Definition promoted (output_path : Path) (w : World) : World :=
  set_fs (fun f => match f !! temp_path_of output_path with
                   | Some b => <[output_path := b]> (delete (temp_path_of output_path) f)
                   | None => f
                   end) w.

(** The message of the [HTTPError] that [raise_for_status] raises. *)
Definition http_error (url : string) (r : response) : exn :=
  RequestException (pretty (status_code r) +:+ " Error for url: " +:+ url).

(** The message of the size check. *)
Definition size_mismatch (expected got : Z) : exn :=
  DownloadError ("Size mismatch: expected " +:+ pretty expected
                 +:+ ", got " +:+ pretty got).

(** The message of [download] once its attempts are used up. *)
Definition retries_exhausted (self : DownloadManager) (url : string)
    (last_error : option exn) : exn :=
  DownloadError ("Failed to download " +:+ url +:+ " after "
                 +:+ pretty (max_retries self) +:+ " attempts: "
                 +:+ str_opt_exn last_error).

(** The bytes an attempt has counted once a response is streamed. *)
Definition bytes_after (output_path : Path) (r : response) (w : World) : Z :=
  resume_pos_of output_path w + Z.of_nat (length (concat (chunks r))).

(** The events of post-processing: they report no total, send no request
    and do not sleep. *)
Definition quiet (ev : event) : Prop :=
  match ev with
  | EvPrint _ | EvExtractAll _ _ => True
  | _ => False
  end.

(** The events of the progress bar and the progress callback. *)
Definition progress_only (ev : event) : Prop :=
  match ev with
  | EvBarOpen _ _ _ | EvBarUpdate _ | EvBarClose | EvOnProgress _ _ => True
  | _ => False
  end.

(** A failure of the transport or of the status: the connection fails, or
    the status is a 4xx or 5xx that is not rescued by the 416 rule
    ([has_part]: is there a partial file on disk). *)
Definition transport_failure (has_part : bool) (o : net_outcome) : Prop :=
  match o with
  | ConnectionFails _ => True
  | Responds r =>
      400 <= status_code r < 600 /\ (status_code r = 416 -> has_part = false)
  end.

(** The exception such a failure raises. *)
Definition failure_of (url : string) (o : net_outcome) : exn :=
  match o with
  | ConnectionFails msg => RequestException msg
  | Responds r => http_error url r
  end.

(** What [k] failed attempts, numbered from [j] on, leave in the log when
    [n] attempts are allowed: each sends the request [rq] and logs [during];
    after every attempt but the last one allowed, a sleep of [d * (j + 1)]. *)
Fixpoint attempts_trace (rq : request) (during : list event) (d : Q) (n : Z)
    (j : Z) (k : nat) : list event :=
  match k with
  | O => []
  | S k' =>
      EvRequest rq :: during ++
      (if j <? n - 1 then [EvSleep (d * inject_Z (j + 1))] else []) ++
      attempts_trace rq during d n (j + 1) k'
  end.

Definition retry_trace (rq : request) (during : list event) (d : Q) (n : Z)
    : list event :=
  attempts_trace rq during d n 0 (Z.to_nat n).

(** The sleeps of a log, in order. *)
Definition sleeps (evs : list event) : list Q :=
  omap (fun ev => match ev with EvSleep q => Some q | _ => None end) evs.

(** The requests of a log, in order. *)
Definition requests_of (evs : list event) : list request :=
  omap (fun ev => match ev with EvRequest rq => Some rq | _ => None end) evs.

(** Same files on disk, same server, same disk faults. *)
Definition same_surroundings (w w0 : World) : Prop :=
  fs w0 = fs w /\ server w0 = server w /\ open_fails w0 = open_fails w.

(** What an attempt logs after its request when [open] fails: the progress
    bar, if one is shown, is opened and closed. *)
Definition bar_only (self : DownloadManager) (output_path : Path)
    (expected_size : option Z) (description : option string)
    (resume_pos : Z) (r : response) : list event :=
  let total_size := total_size_of r resume_pos expected_size in
  let progress_bar := show_progress self && (0 <? total_size) in
  (if progress_bar
   then [EvBarOpen total_size resume_pos (desc_of description output_path)] else []) ++
  (if progress_bar then [EvBarClose] else []).

(** A disk on which [open] fails with [msg] for the first [n] requests. *)
Definition fails_first (n : nat) (msg : string) : Path -> nat -> option string :=
  fun _ k => if (k <=? n)%nat then Some msg else None.

(** *** The batch, as the design describes it

    A transfer request of a batch: URL, file name, optional size. *)
Record transfer_request := mkTransfer {
  tr_url : string;
  tr_filename : string;
  tr_size : option Z
}.

(** The record (dict) that carries a request. *)
Definition record_of (t : transfer_request) : dl_record :=
  mkRecord (Some (tr_url t)) (Some (tr_filename t)) (tr_size t).

(** The line announcing item [i] (counted from 0) of [total]. *)
Definition item_header (i total : Z) (filename : string) : string :=
  newline +:+ "[" +:+ pretty (i + 1) +:+ "/" +:+ pretty total
  +:+ "] Downloading " +:+ filename.

(** One item: the Orchestrator is invoked; on success the slot holds the
    resulting path and the completion callback is notified; on failure the
    slot holds the absent marker. *)
Definition batch_item (self : DownloadManager) (output_dir : Path) (extract : bool)
    (on_file_complete : bool) (i total : Z) (t : transfer_request) (w : World)
    : option Path * World :=
  let w0 := if show_progress self
            then emit (EvPrint (item_header i total (tr_filename t))) w else w in
  match download self (tr_url t) (joinpath output_dir (tr_filename t)) (tr_size t)
          None extract false w0 with
  | (Ok p, w1) =>
      (Some p, if on_file_complete then emit (EvFileComplete (tr_filename t) p) w1 else w1)
  | (Raise e, w1) =>
      (None, if show_progress self then emit (EvPrint ("  Error: " +:+ str_exn e)) w1 else w1)
  end.


(** No unpacking can fail: nothing is to be extracted, or [zipfile] accepts
    whatever it is given.  (An unpacking that the disk interrupts raises an
    [IOError], which [download] catches and retries like any other.) *)
Definition unpack_cannot_fail (extract : bool) (w : World) : Prop :=
  extract = false \/ forall b, is_zip w b = true.

(** *** Unpacking

    A file name with the archive suffix, as [pathlib] reads it: a stem
    that is not empty, followed by [.zip] in any letter case. *)
Definition has_archive_suffix (file_name : string) : Prop :=
  exists stem ext, file_name = stem +:+ ext /\ stem <> "" /\ lower ext = ".zip".

(** The world after [_handle_extraction] has announced the unpacking of
    [file_path], which it does when progress is shown. *)
Definition announced (self : DownloadManager) (file_path : Path) (w : World) : World :=
  if show_progress self
  then emit (EvPrint ("Extracting " +:+ name file_path +:+ "...")) w
  else w.

(** The world after the files [ms] have been written below [extract_dir]. *)
Definition unpacked (extract_dir : Path) (ms : list (Path * bytes)) (w : World) : World :=
  set_fs (write_members extract_dir ms) w.

(** What [_handle_extraction] returns after [extractall]: the extraction
    directory, or the [OSError] that interrupted the unpacking. *)
Definition unpack_result (extract_dir : Path) (u : unpacking) : result Path :=
  match unpack_error u with
  | None => Ok extract_dir
  | Some msg => Raise (IOError msg)
  end.

(** A path somewhere below the directory [dir]. *)
Definition below (dir q : Path) : Prop :=
  exists rest, parent q = str_path dir +:+ rest.



(** The requests and the sleeps of a log, in the order they happened. *)
Definition pacing (evs : list event) : list (request + Q) :=
  omap (fun ev => match ev with
                  | EvRequest rq => Some (inl rq)
                  | EvSleep seconds => Some (inr seconds)
                  | _ => None
                  end) evs.


(** ** Sample inputs *)

(** The manager of the test-suite: three attempts, progress display off. *)
Definition sample_manager : DownloadManager := mkManager 8192 30 3 1 false.

Definition sample_url : string := "https://example.com/test.zip".
Definition sample_out : Path := mkPath "/downloads" "test.zip".

(** [b"x" * n] *)
Definition xs (n : nat) : bytes := repeat Byte.x78 n.

(** Archives without a member, unpacked without an error. *)
Definition no_members : bytes -> nat -> unpacking := fun _ _ => mkUnpacking [] None.

(** A world with the given files and server, a disk that never fails and a
    [zipfile] that accepts everything and finds nothing to unpack. *)
Definition sample_world (files : gmap Path bytes)
    (srv : request -> nat -> net_outcome) : World :=
  mkWorld files srv (fun _ _ => None) (fun _ => true) no_members 0 [].

(** An archive of two files, [readme.txt] and [mesh/model.vtp]. *)
Definition two_members : bytes -> nat -> unpacking :=
  fun _ _ => mkUnpacking [(mkPath "" "readme.txt", xs 2);
                          (mkPath "/mesh" "model.vtp", xs 3)] None.

(** The same, on a disk that is full after the first file. *)
Definition disk_full : bytes -> nat -> unpacking :=
  fun _ _ => mkUnpacking [(mkPath "" "readme.txt", xs 2)]
                         (Some "No space left on device").

(** A world whose archives unpack as [u] says. *)
Definition archive_world (files : gmap Path bytes)
    (srv : request -> nat -> net_outcome) (accepts : bool)
    (u : bytes -> nat -> unpacking) : World :=
  mkWorld files srv (fun _ _ => None) (fun _ => accepts) u 0 [].

(** A server that always answers 200 with one chunk of [n] bytes. *)
Definition serves (n : nat) : request -> nat -> net_outcome :=
  fun _ _ => Responds (mkResponse 200 (Some (Z.of_nat n)) [xs n] None).

(** A server that answers every request with the same status and no body. *)
Definition answers_status (status : Z) : request -> nat -> net_outcome :=
  fun _ _ => Responds (mkResponse status None [] None).

(** Three requests, the second of which the server always refuses. *)
Definition sample_batch : list transfer_request :=
  [mkTransfer "https://example.com/a.zip" "a.zip" None;
   mkTransfer "https://example.com/b.zip" "b.zip" None;
   mkTransfer "https://example.com/c.zip" "c.zip" None].

Definition refuses_b : request -> nat -> net_outcome :=
  fun rq _ =>
    if String.eqb (req_url rq) "https://example.com/b.zip"
    then ConnectionFails "Network error"
    else Responds (mkResponse 200 (Some 5) [xs 5] None).

Definition sample_dir : Path := mkPath "" "out".

(** ** Further vocabulary: what an attempt may log *)

(** The events an attempt logs after its request: progress display and
    post-processing, never a request, a sleep or a completion notice. *)
Definition attempt_event (ev : event) : Prop := progress_only ev \/ quiet ev.

(** The cumulative byte counts handed to the progress callback, in order. *)
Definition reported_bytes (evs : list event) : list Z :=
  omap (fun ev => match ev with EvOnProgress b _ => Some b | _ => None end) evs.

(** The completion notices of a log, in order. *)
Definition completions (evs : list event) : list (string * Path) :=
  omap (fun ev => match ev with EvFileComplete f p => Some (f, p) | _ => None end) evs.

(** The bytes of the partial file, none when there is no such file. *)
Definition partial_bytes (output_path : Path) (w : World) : bytes :=
  default [] (fs w !! temp_path_of output_path).

(** The files a failed transfer leaves behind, against those it found: the
    destination as it was, the partial file still there when it was, with
    the bytes it had in front of whatever was added, and every other path
    as it was. *)
Definition keeps_files (output_path : Path) (w w' : World) : Prop :=
  fs w' !! output_path = fs w !! output_path /\
  (exists more, partial_bytes output_path w' = partial_bytes output_path w ++ more) /\
  (is_Some (fs w !! temp_path_of output_path) ->
   is_Some (fs w' !! temp_path_of output_path)) /\
  (forall q, q <> output_path -> q <> temp_path_of output_path ->
             fs w' !! q = fs w !! q).

(** The files a successful transfer leaves behind: the partial file gone,
    the destination in place, every other path as it was. *)
Definition delivered (output_path : Path) (w w' : World) : Prop :=
  fs w' !! temp_path_of output_path = None /\
  is_Some (fs w' !! output_path) /\
  (forall q, q <> output_path -> q <> temp_path_of output_path ->
             fs w' !! q = fs w !! q).

(** A server whose first answer breaks after 4 bytes and which serves the
    remaining 6 bytes to a ranged request. *)
Definition breaks_once : request -> nat -> net_outcome :=
  fun rq _ =>
    match req_range rq with
    | None => Responds (mkResponse 200 (Some 10) [xs 4] (Some "Connection broken"))
    | Some _ => Responds (mkResponse 206 (Some 6) [xs 6] None)
    end.

(** The completion notices a batch owes: for every item whose slot holds a
    path, the item's file name with that path, in the order of the items. *)
Definition notices (ts : list transfer_request) (slots : list (option Path))
    : list (string * Path) :=
  omap (fun ts_slot : transfer_request * option Path =>
          match ts_slot.2 with
          | Some p => Some (tr_filename ts_slot.1, p)
          | None => None
          end)
       (zip ts slots).

(** ** Further vocabulary: searches and the client *)

(** A criterion that was not given lets everything pass. *)
Definition passes {C : Type} (criterion : option C) (test : C -> bool) : bool :=
  match criterion with Some c => test c | None => true end.

(** A model meets every criterion that was given. *)
Definition accepts_model (c : model_criteria) (m : Model.t) : bool :=
  passes (by_name c) (_match_string (Model.name m)) &&
  passes (by_species c) (_match_species (Model.species m)) &&
  passes (by_anatomy c) (_match_string (Model.anatomy m)) &&
  passes (by_disease c) (_match_string (Model.disease m)) &&
  passes (by_sex c) (_match_exact (Model.sex m)) &&
  passes (by_age_min c) (age_at_least m) &&
  passes (by_age_max c) (age_at_most m) &&
  passes (by_ethnicity c) (_match_string (Model.ethnicity m)) &&
  passes (by_has_simulations c) (Bool.eqb (Model.has_simulations m)) &&
  passes (by_has_meshes c) (Bool.eqb (Model.has_meshes m)) &&
  passes (by_has_segmentations c) (Bool.eqb (Model.has_segmentations m)) &&
  passes (by_has_images c) (Bool.eqb (Model.has_images m)) &&
  passes (by_has_paths c) (Bool.eqb (Model.has_paths m)) &&
  passes (by_has_results c) (Bool.eqb (Model.has_results m)) &&
  passes (by_model_creator c) (_match_string (Model.model_creator m)) &&
  passes (by_custom_filter c) (fun f => f m).

(** A simulation meets every criterion that was given. *)
Definition accepts_simulation (c : simulation_criteria) (s : SimulationResult.t) : bool :=
  passes (by_model_name c) (_match_string (SimulationResult.model_name s)) &&
  passes (by_fidelity c) (_match_string (SimulationResult.fidelity s)) &&
  passes (by_method c) (_match_string (SimulationResult.method s)) &&
  passes (by_condition c) (_match_string (SimulationResult.condition s)) &&
  passes (by_results_type c) (_match_string (SimulationResult.results_type s)) &&
  passes (by_file_type c) (_match_string (SimulationResult.file_type s)) &&
  passes (by_creator c) (_match_string (SimulationResult.creator s)) &&
  passes (by_custom_sim_filter c) (fun f => f s).

(** The criteria of a model search that are matched as strings. *)
Definition string_criteria (c : model_criteria) : list (option string) :=
  [by_name c; by_species c; by_anatomy c; by_disease c; by_sex c;
   by_ethnicity c; by_model_creator c].

(** No criterion at all. *)
Definition no_criteria : model_criteria :=
  mkModelCriteria None None None None None None None None
                  None None None None None None None None.

(** The URLs a log shows requests to, in order. *)
Definition urls_requested (evs : list event) : list string :=
  map req_url (requests_of evs).

(** [counts !! k] requests to the URL of item [k], item after item. *)
Definition item_requests (ts : list transfer_request) (counts : list nat) : list string :=
  concat (zip_with (fun t a => repeat (tr_url t) a) ts counts).

(** The catalogue has a model of that name. *)
Definition known (self : VMRClient) (name : string) : bool :=
  bool_decide (name ∈ map Model.name (get_models (_catalog self))).

(** The transfer a name stands for in a batch of models. *)
Definition model_request (self : VMRClient) (name : string) : option transfer_request :=
  match get_model self name with
  | Some model =>
      Some (mkTransfer (PROJECTS_DOWNLOAD_URL name) (name +:+ ".zip")
              (Model.file_size model))
  | None => None
  end.

(** The transfer of one simulation, requested under [model_name]. *)
Definition simulation_request (model_name : string) (sim : SimulationResult.t)
    : transfer_request :=
  mkTransfer (RESULTS_DOWNLOAD_URL model_name (SimulationResult.full_filename sim))
             (SimulationResult.full_filename sim) (SimulationResult.file_size sim).

(** The simulations [get_simulations] selects for a model name. *)
Definition simulations_matching (self : VMRClient) (model_name : string)
    : list SimulationResult.t :=
  List.filter (fun s => _match_string (SimulationResult.model_name s) model_name)
    (get_simulations_all (_catalog self)).

(** A small catalogue: two models, the name of the first a prefix of the
    name of the second, and one simulation of the second. *)
Definition sample_model (name species : string) (size : option Z) : Model.t :=
  Model.mk name "Male" (Some (30 # 1)) species "" "Aorta" "Healthy"
           true true true true true false "" size.

Definition sample_simulation (model_name filename : string) : SimulationResult.t :=
  SimulationResult.mk model_name filename "3D" "RIGID" "" "" "VTP" "" None.

Definition sample_catalog : Catalog :=
  mkCatalog [sample_model "0001_H_AO" "Human" (Some 5);
             sample_model "0001_H_AO_SVD" "Human" None]
            [sample_simulation "0001_H_AO_SVD" "flow.vtp"]
            [].

Definition sample_client : VMRClient := mkClient sample_catalog sample_manager.

(** A server that has every archive, of 5 bytes, and no documentation. *)
Definition refuses_pdf : request -> nat -> net_outcome :=
  fun rq _ =>
    if String.eqb (req_url rq) (PDF_DOWNLOAD_URL "0001_H_AO")
    then ConnectionFails "Network error"
    else Responds (mkResponse 200 (Some 5) [xs 5] None).

(** ** Every way an attempt can end *)

Inductive attempt_end (self : DownloadManager) (url : string) (out : Path)
    (exp : option Z) (desc : option string) (extract cb : bool) (w : World)
    : result Path * World -> Prop :=
| end_connection msg :
    server w (next_request url out w) (requests_made w) = ConnectionFails msg ->
    attempt_end self url out exp desc extract cb w
      (Raise (RequestException msg), requested url out w)
| end_promoted r b :
    server w (next_request url out w) (requests_made w) = Responds r ->
    status_code r = 416 ->
    fs w !! temp_path_of out = Some b ->
    attempt_end self url out exp desc extract cb w
      (_handle_extraction self out extract (promoted out (requested url out w)))
| end_status r :
    server w (next_request url out w) (requests_made w) = Responds r ->
    400 <= status_code r < 600 ->
    (status_code r = 416 -> fs w !! temp_path_of out = None) ->
    attempt_end self url out exp desc extract cb w
      (Raise (http_error url r), requested url out w)
| end_open r msg :
    server w (next_request url out w) (requests_made w) = Responds r ->
    status_ok r ->
    open_fails w (temp_path_of out) (S (requests_made w)) = Some msg ->
    attempt_end self url out exp desc extract cb w
      (Raise (IOError msg),
       logged (bar_only self out exp desc (resume_pos_of out w) r) (requested url out w))
| end_stream r msg :
    server w (next_request url out w) (requests_made w) = Responds r ->
    status_ok r ->
    open_fails w (temp_path_of out) (S (requests_made w)) = None ->
    stream_error r = Some msg ->
    attempt_end self url out exp desc extract cb w
      (Raise (RequestException msg),
       logged (stream_events self out exp desc cb (resume_pos_of out w) r)
         (stored (temp_path_of out) (streamed_content out r w) (requested url out w)))
| end_mismatch r :
    server w (next_request url out w) (requests_made w) = Responds r ->
    status_ok r ->
    open_fails w (temp_path_of out) (S (requests_made w)) = None ->
    stream_error r = None ->
    truthy exp = true ->
    bytes_after out r w <> default 0 exp ->
    attempt_end self url out exp desc extract cb w
      (Raise (size_mismatch (default 0 exp) (bytes_after out r w)),
       logged (stream_events self out exp desc cb (resume_pos_of out w) r)
         (stored (temp_path_of out) (streamed_content out r w) (requested url out w)))
| end_complete r :
    server w (next_request url out w) (requests_made w) = Responds r ->
    status_ok r ->
    open_fails w (temp_path_of out) (S (requests_made w)) = None ->
    stream_error r = None ->
    (truthy exp = false \/ bytes_after out r w = default 0 exp) ->
    attempt_end self url out exp desc extract cb w
      (_handle_extraction self out extract
         (promoted out
            (logged (stream_events self out exp desc cb (resume_pos_of out w) r)
               (stored (temp_path_of out) (streamed_content out r w)
                  (requested url out w))))).

(** * Properties *)

(** ** Paths *)

Lemma app_cons c (a b : string) : String c a +:+ b = String c (a +:+ b).
Proof. reflexivity. Qed.

Lemma app_nil (b : string) : "" +:+ b = b.
Proof. reflexivity. Qed.

Ltac sapp := rewrite ?app_cons, ?app_nil.

Lemma rsplit_dot_app s stem ext :
  rsplit_dot s = Some (stem, ext) -> s = stem +:+ ext.
Proof.
  revert stem ext; induction s as [|c s IH]; intros stem ext; simpl; [discriminate|].
  destruct (rsplit_dot s) as [[st ex]|].
  - intros [= <- <-]. sapp. f_equal. by apply IH.
  - destruct (Ascii.eqb c "."); [|discriminate]. by intros [= <- <-].
Qed.

Lemma length_append (a b : string) :
  String.length (a +:+ b) = (String.length a + String.length b)%nat.
Proof. induction a; sapp; simpl; congruence. Qed.

Lemma substring_prefix (a b : string) :
  String.substring 0 (String.length a) (a +:+ b) = a.
Proof.
  induction a as [|c a IH]; sapp; simpl.
  - by destruct b.
  - by rewrite IH.
Qed.

Lemma drop_end_app (a b : string) : drop_end (String.length b) (a +:+ b) = a.
Proof.
  unfold drop_end. rewrite length_append.
  replace (String.length a + String.length b - String.length b)%nat
    with (String.length a) by lia.
  apply substring_prefix.
Qed.

Lemma append_empty_r (a : string) : a +:+ "" = a.
Proof. induction a; sapp; congruence. Qed.

Lemma append_assoc (a b c : string) : (a +:+ b) +:+ c = a +:+ b +:+ c.
Proof. induction a; sapp; congruence. Qed.

(** The name is the stem followed by the suffix. *)
Lemma name_stem_suffix p : name p = name (with_suffix p "") +:+ suffix p.
Proof.
  unfold with_suffix. destruct (String.eqb_spec (suffix p) "") as [E|E].
  - rewrite E. simpl. by rewrite !append_empty_r.
  - simpl. rewrite append_empty_r.
    unfold suffix in *. destruct (rsplit_dot (name p)) as [[stem ext]|] eqn:R; [|done].
    destruct (_ && _); [|done].
    apply rsplit_dot_app in R. rewrite R at 1 2. by rewrite drop_end_app.
Qed.

(** The partial file sits next to the destination, with [.part] appended. *)
Lemma temp_path_of_eq p : temp_path_of p = mkPath (parent p) (name p +:+ ".part").
Proof.
  unfold temp_path_of, with_suffix.
  destruct (String.eqb_spec (suffix p) "") as [E|E].
  - by rewrite E.
  - f_equal. rewrite <- append_assoc. f_equal.
    pose proof (name_stem_suffix p) as H. unfold with_suffix in H.
    destruct (String.eqb_spec (suffix p) ""); [done|]. simpl in H.
    rewrite append_empty_r in H. by rewrite <- H.
Qed.

Lemma append_neq_self (a b : string) : b <> "" -> a +:+ b <> a.
Proof.
  intros Hb E. apply (f_equal String.length) in E.
  rewrite length_append in E. destruct b; [done|]. simpl in E. lia.
Qed.

Lemma temp_path_neq p : temp_path_of p <> p.
Proof.
  rewrite temp_path_of_eq. destruct p as [d n]. simpl. intros [= E].
  by apply append_neq_self in E.
Qed.

Lemma lower_ascii_dot c : lower_ascii c = "."%char -> c = "."%char.
Proof.
  destruct c as [[] [] [] [] [] [] [] []]; vm_compute; congruence.
Qed.

Lemma lower_not_dot c : lower_ascii c <> "."%char -> Ascii.eqb c "." = false.
Proof.
  intros H. destruct (Ascii.eqb_spec c "."%char) as [->|]; [|done].
  by destruct H.
Qed.

Lemma length_lower s : String.length (lower s) = String.length s.
Proof. induction s; simpl; congruence. Qed.

(** An extension that reads [.zip] in lower case holds a single dot, in front. *)
Lemma rsplit_dot_zip ext : lower ext = ".zip" -> rsplit_dot ext = Some ("", ext).
Proof.
  destruct ext as [|c0 [|c1 [|c2 [|c3 [|c4 ?]]]]]; simpl; try discriminate.
  intros [= H0 H1 H2 H3].
  rewrite (lower_not_dot c3) by (rewrite H3; discriminate).
  rewrite (lower_not_dot c2) by (rewrite H2; discriminate).
  rewrite (lower_not_dot c1) by (rewrite H1; discriminate).
  apply lower_ascii_dot in H0 as ->. reflexivity.
Qed.

Lemma rsplit_dot_stem stem ext :
  rsplit_dot ext = Some ("", ext) -> rsplit_dot (stem +:+ ext) = Some (stem, ext).
Proof.
  intros H. induction stem as [|c stem IH]; sapp; [done|].
  simpl. by rewrite IH.
Qed.

Lemma suffix_stem_zip d stem ext :
  stem <> "" -> lower ext = ".zip" -> suffix (mkPath d (stem +:+ ext)) = ext.
Proof.
  intros Hs Hz. unfold suffix. simpl.
  rewrite (rsplit_dot_stem stem ext (rsplit_dot_zip ext Hz)).
  assert (String.length ext = 4%nat) as ->
    by (rewrite <- length_lower, Hz; reflexivity).
  destruct stem; [done|]. reflexivity.
Qed.

(** ** C7: the archive post-processor *)

(** A suffix that reads [.zip] belongs to a name with the archive suffix,
    and the path without its suffix is the stem, in the same directory. *)
Lemma suffix_zip_stem p :
  lower (suffix p) = ".zip" ->
  exists stem ext,
    name p = stem +:+ ext /\ stem <> "" /\ lower ext = ".zip" /\
    with_suffix p "" = mkPath (parent p) stem.
Proof.
  intros Hz. unfold with_suffix.
  destruct (String.eqb_spec (suffix p) "") as [E|E]; [by rewrite E in Hz|].
  unfold suffix in *.
  destruct (rsplit_dot (name p)) as [[stem ext]|] eqn:R; [|done].
  destruct (Nat.ltb_spec 0 (String.length stem)) as [Hlen|]; [|done].
  destruct (1 <? String.length ext)%nat; [|done]. simpl in *.
  apply rsplit_dot_app in R. exists stem, ext.
  split; [done|]. split; [by destruct stem; [simpl in Hlen; lia|]|]. split; [done|].
  rewrite R. by rewrite drop_end_app, append_empty_r.
Qed.

Lemma has_archive_suffix_iff p :
  has_archive_suffix (name p) <-> lower (suffix p) = ".zip".
Proof.
  split.
  - intros (stem & ext & Hn & Hs & Hz). destruct p as [d n]. simpl in Hn. subst n.
    by rewrite (suffix_stem_zip d stem ext Hs Hz).
  - intros Hz. destruct (suffix_zip_stem p Hz) as (stem & ext & ? & ? & ? & _).
    by exists stem, ext.
Qed.

Lemma announced_eq self p (k : M Path) w :
  (when (show_progress self) (print ("Extracting " +:+ name p +:+ "...")) >>> k) w
  = k (announced self p w).
Proof. unfold bind, when, print, do, ret, announced. by destruct (show_progress self). Qed.

(** The extraction directory lies next to the archive, so that neither the
    archive nor any file beside it is below it. *)
Lemma beside_not_below dir q : parent q = parent dir -> ~ below dir q.
Proof.
  intros Hp (rest & H). rewrite Hp in H. unfold str_path in H.
  apply (f_equal String.length) in H. rewrite !length_append in H. simpl in H. lia.
Qed.

Lemma member_path_below dir m : below dir (member_path dir m).
Proof. by exists (parent m). Qed.

Lemma write_members_outside dir ms : forall f q,
  ~ below dir q -> write_members dir ms f !! q = f !! q.
Proof.
  induction ms as [|m ms IH]; intros f q Hq; [done|].
  unfold write_members in *. simpl. rewrite IH by done.
  apply lookup_insert_ne. intros <-. apply Hq, member_path_below.
Qed.

Lemma fs_unpacked_outside dir ms w q :
  ~ below dir q -> fs (unpacked dir ms w) !! q = fs w !! q.
Proof. apply write_members_outside. Qed.

Lemma with_suffix_parent p sfx : parent (with_suffix p sfx) = parent p.
Proof. unfold with_suffix. by destruct (String.eqb _ _). Qed.

Lemma temp_path_parent p : parent (temp_path_of p) = parent p.
Proof. by rewrite temp_path_of_eq. Qed.

(** Unpacking an archive touches neither the archive nor its partial file. *)
Lemma fs_unpacked_archive p ms w :
  fs (unpacked (with_suffix p "") ms w) !! p = fs w !! p /\
  fs (unpacked (with_suffix p "") ms w) !! temp_path_of p = fs w !! temp_path_of p.
Proof.
  split; apply fs_unpacked_outside, beside_not_below;
    by rewrite ?temp_path_parent, with_suffix_parent.
Qed.

Lemma handle_extraction_plain self file_path extract w :
  extract = false \/ ~ has_archive_suffix (name file_path) ->
  _handle_extraction self file_path extract w = (Ok file_path, w).
Proof.
  intros H. unfold _handle_extraction.
  destruct extract; simpl; [|done].
  destruct H as [|H]; [done|].
  destruct (String.eqb_spec (lower (suffix file_path)) ".zip") as [E|E]; [|done].
  by apply has_archive_suffix_iff in E.
Qed.

Lemma handle_extraction_archive self file_path w stem ext b :
  name file_path = stem +:+ ext -> stem <> "" -> lower ext = ".zip" ->
  fs w !! file_path = Some b ->
  let extract_dir := mkPath (parent file_path) stem in
  let u := unpack w b (requests_made w) in
  _handle_extraction self file_path true w =
    if is_zip w b
    then (unpack_result extract_dir u,
          unpacked extract_dir (written u)
            (emit (EvExtractAll file_path extract_dir) (announced self file_path w)))
    else (Raise (BadZipFile "File is not a zip file"), announced self file_path w).
Proof.
  intros Hn Hs Hz Hb extract_dir u.
  destruct file_path as [d n]. simpl in Hn. subst n.
  unfold _handle_extraction. simpl negb.
  rewrite (suffix_stem_zip d stem ext Hs Hz), Hz.
  change (negb true || negb (".zip" =? ".zip")%string) with false. cbv iota.
  assert (with_suffix (mkPath d (stem +:+ ext)) "" = extract_dir) as ->.
  { unfold with_suffix. rewrite (suffix_stem_zip d stem ext Hs Hz).
    destruct (String.eqb_spec ext "") as [->|_]; [discriminate|].
    simpl. by rewrite drop_end_app, append_empty_r. }
  cbv zeta. rewrite announced_eq.
  set (w0 := announced self _ w).
  assert (fs w0 = fs w /\ is_zip w0 = is_zip w /\ unpack w0 = unpack w /\
          requests_made w0 = requests_made w) as (Hf & Hi & Hu & Hr)
    by (unfold w0, announced; by destruct (show_progress self)).
  unfold bind at 1. unfold gets at 1. rewrite Hf, Hb.
  unfold bind at 1. unfold gets at 1. rewrite Hi.
  destruct (is_zip w b); [|done].
  unfold bind at 1. unfold gets at 1. rewrite Hu, Hr. fold u.
  unfold bind, extractall, do, ret, raise, unpack_result, unpacked.
  by destruct (unpack_error u).
Qed.




(** ** C8: format_size *)

Lemma to_float_exact n : Z.abs n < 2 ^ 53 -> to_float n = n.
Proof.
  intros H. unfold to_float. destruct (Z.ltb_spec (Z.abs n) (2 ^ 53)); [done|lia].
Qed.

(** Rounding to a double never takes a size below 2^50 (a pebibyte). *)
Lemma to_float_large n : 2 ^ 50 <= n -> 2 ^ 50 <= to_float n.
Proof.
  intros H. unfold to_float.
  destruct (Z.ltb_spec (Z.abs n) (2 ^ 53)) as [|Hbig]; [done|].
  assert (0 < n) as Hpos by lia.
  rewrite Z.abs_eq in * by lia. rewrite Z.sgn_pos by lia.
  set (e := Z.log2 n - 52).
  assert (53 <= Z.log2 n) as Hlog by (apply Z.log2_le_pow2; lia).
  assert (0 < e) as He by (unfold e; lia).
  assert (2 ^ 52 <= n / 2 ^ e) as Hm.
  { apply Z.div_le_lower_bound; [apply Z.pow_pos_nonneg; lia|].
    rewrite Z.mul_comm, <- Z.pow_add_r by lia.
    replace (52 + e) with (Z.log2 n) by (unfold e; lia).
    apply Z.log2_spec; lia. }
  assert (2 <= 2 ^ e) as H2e.
  { change 2 with (2 ^ 1) at 1. apply Z.pow_le_mono_r; lia. }
  match goal with |- context [if ?c then _ else _] => destruct c end; nia.
Qed.

Lemma round_half_even_nearest q :
  2 * Z.abs (Qnum q - round_half_even q * Z.pos (Qden q)) <= Z.pos (Qden q).
Proof.
  unfold round_half_even. destruct q as [a d]. simpl.
  pose proof (Z.div_mod a (Z.pos d) ltac:(lia)) as E.
  pose proof (Z.mod_pos_bound a (Z.pos d) ltac:(lia)) as B.
  set (fl := a / Z.pos d) in *. set (r := a mod Z.pos d) in *.
  destruct (Z.ltb_spec (2 * r) (Z.pos d)); [nia|].
  destruct (Z.ltb_spec (Z.pos d) (2 * r)); [nia|].
  destruct (Z.even fl); nia.
Qed.

Lemma scale_value k x : (scale k x == x / inject_Z (1024 ^ Z.of_nat k))%Q.
Proof.
  induction k as [|k IH].
  - change (scale 0 x) with x. change (inject_Z (1024 ^ Z.of_nat 0)) with 1%Q. field.
  - change (scale (S k) x) with (scale k x / 1024)%Q. rewrite IH.
    rewrite Nat2Z.inj_succ, Z.pow_succ_r by lia.
    rewrite inject_Z_mult. 
    assert (~ inject_Z (1024 ^ Z.of_nat k) == 0)%Q as Hnz.
    { unfold Qeq. simpl. pose proof (Z.pow_pos_nonneg 1024 (Z.of_nat k)). lia. }
    change (inject_Z 1024) with 1024%Q. field. done.
Qed.

Ltac qdec :=
  match goal with
  | |- context [Qlt_le_dec ?a ?b] =>
      let Hc := fresh "Hc" in
      destruct (Qlt_le_dec a b) as [Hc|Hc];
      unfold Qlt, Qle in Hc; simpl in Hc; try lia
  end.

Lemma format_size_bytes n :
  n < 1024 -> format_size n = format_1f (inject_Z n) +:+ " B".
Proof.
  intros H. unfold format_size, size_units.
  destruct (Z.ltb_spec n 1024); [done|lia].
Qed.

Lemma format_size_unit n k :
  (1 <= k <= 4)%nat ->
  1024 ^ Z.of_nat k <= n < 1024 ^ Z.of_nat (k + 1) ->
  format_size n = format_1f (scale k (inject_Z n)) +:+ " " +:+ unit_of k.
Proof.
  intros Hk Hn. unfold format_size, size_units.
  assert (1024 <= n).
  { destruct Hn as [Hn _]. etrans; [|exact Hn].
    change 1024 with (1024 ^ 1) at 1. apply Z.pow_le_mono_r; lia. }
  destruct (Z.ltb_spec n 1024); [lia|].
  assert (n < 2 ^ 50).
  { destruct Hn as [_ Hn]. eapply Z.lt_le_trans; [exact Hn|].
    change (2 ^ 50) with (1024 ^ 5). apply Z.pow_le_mono_r; lia. }
  rewrite to_float_exact by lia.
  destruct k as [|[|[|[|[|k]]]]]; try lia;
    match type of Hn with
    | ?a <= _ < ?b =>
        let a' := eval vm_compute in a in
        let b' := eval vm_compute in b in
        change (a' <= n < b') in Hn
    end;
    cbn [format_size_loop];
    repeat qdec; reflexivity.
Qed.

Lemma format_size_top n :
  1024 ^ 5 <= n < 2 ^ 1033 ->
  format_size n = format_1f (scale 5 (inject_Z (to_float n))) +:+ " PB".
Proof.
  intros [Hn _]. unfold format_size, size_units.
  destruct (Z.ltb_spec n 1024); [lia|].
  pose proof (to_float_large n ltac:(change (2 ^ 50) with (1024 ^ 5); lia)) as Hf.
  change (2 ^ 50) with 1125899906842624 in Hf.
  generalize dependent (to_float n). intros t Ht.
  cbn [format_size_loop].
  repeat qdec. reflexivity.
Qed.

(** C8. [format_size] prints 500 as ["500.0 B"], 1024 as ["1.0 KB"] and
    1024^3 as ["1.0 GB"].  In general a size below 1024 is printed in bytes;
    a size in [1024^k, 1024^(k+1)) for k = 1..4 is divided k times by 1024
    and printed with the k-th unit (KB, MB, GB, TB); from 1024^5 on (and as
    long as a double can hold the quotient) the unit stays PB and the value
    (the double nearest to the size) is divided five times, so it keeps
    growing past 1024.  [scale k] is division by 1024^k,
    sizes below 2^53 are exact as doubles, and the number printed by
    [format_1f] is the nearest count of tenths. *)
Theorem format_size_spec :
  format_size 500 = "500.0 B" /\
  format_size 1024 = "1.0 KB" /\
  format_size (1024 * 1024 * 1024) = "1.0 GB" /\
  (forall n, n < 1024 -> format_size n = format_1f (inject_Z n) +:+ " B") /\
  (forall n k,
     (1 <= k <= 4)%nat ->
     1024 ^ Z.of_nat k <= n < 1024 ^ Z.of_nat (k + 1) ->
     format_size n = format_1f (scale k (inject_Z n)) +:+ " " +:+ unit_of k) /\
  (forall n,
     1024 ^ 5 <= n < 2 ^ 1033 ->
     format_size n = format_1f (scale 5 (inject_Z (to_float n))) +:+ " PB") /\
  (forall k x, (scale k x == x / inject_Z (1024 ^ Z.of_nat k))%Q) /\
  (forall n, Z.abs n < 2 ^ 53 -> to_float n = n) /\
  (forall x : Q,
     let t := round_half_even (x * 10) in
     let tenths := (x * 10)%Q in
     2 * Z.abs (Qnum tenths - t * Z.pos (Qden tenths)) <= Z.pos (Qden tenths)).
Proof.
  split; [by vm_compute|]. split; [by vm_compute|]. split; [by vm_compute|].
  split; [exact format_size_bytes|]. split; [exact format_size_unit|].
  split; [exact format_size_top|]. split; [exact scale_value|].
  split; [exact to_float_exact|].
  intros x t tenths. apply round_half_even_nearest.
Qed.

Lemma format_size_spec_witness :
  format_size 1536 = "1.5 KB" /\ format_size (3 * 1024 ^ 6) = "3072.0 PB".
Proof.
  split.
  - etransitivity; [apply (proj1 (proj2 (proj2 (proj2 (proj2 format_size_spec)))) 1536 1%nat);
                    [lia | by vm_compute]|].
    by vm_compute.
  - etransitivity; [apply (proj1 (proj2 (proj2 (proj2 (proj2 (proj2 format_size_spec))))) (3 * 1024 ^ 6));
                    by vm_compute|].
    by vm_compute.
Defined.

(** ** One attempt, path by path *)

Lemma world_eta w :
  mkWorld (fs w) (server w) (open_fails w) (is_zip w) (unpack w) (requests_made w) (log w)
  = w.
Proof. by destruct w. Qed.

Lemma write_chunks_eq tp pb cb total cs : forall b w c,
  fs w !! tp = Some c ->
  write_chunks tp pb cb total cs b w =
    (Ok (b + Z.of_nat (length (concat cs))),
     mkWorld (<[tp := c ++ concat cs]> (fs w)) (server w) (open_fails w) (is_zip w)
       (unpack w) (requests_made w) (log w ++ chunk_events pb cb total cs b)).
Proof.
  induction cs as [|chunk rest IH]; intros b w c Hc.
  - simpl. unfold ret. rewrite !app_nil_r, Z.add_0_r, insert_id by done.
    by rewrite world_eta.
  - destruct chunk as [|x chunk].
    + simpl. by apply IH.
    + cbn [write_chunks chunk_events]. set (n := Z.of_nat (length (x :: chunk))).
      unfold bind at 1. unfold write_chunk, do at 1.
      unfold bind at 1. 
      assert (forall w0, when pb (do (emit (EvBarUpdate n))) w0 =
                (Ok tt, mkWorld (fs w0) (server w0) (open_fails w0) (is_zip w0)
                          (unpack w0) (requests_made w0)
                          (log w0 ++ (if pb then [EvBarUpdate n] else [])))) as Hpb.
      { intros w0. destruct pb; simpl; unfold ret, do, emit; simpl;
          by rewrite ?app_nil_r, ?world_eta. }
      rewrite Hpb. unfold bind at 1.
      assert (forall w0, when cb (do (emit (EvOnProgress (b + n) total))) w0 =
                (Ok tt, mkWorld (fs w0) (server w0) (open_fails w0) (is_zip w0)
                          (unpack w0) (requests_made w0)
                          (log w0 ++ (if cb then [EvOnProgress (b + n) total] else [])))) as Hcb.
      { intros w0. destruct cb; simpl; unfold ret, do, emit; simpl;
          by rewrite ?app_nil_r, ?world_eta. }
      rewrite Hcb.
      rewrite (IH (b + n) _ (c ++ x :: chunk)).
      2:{ simpl. rewrite Hc. simpl. by rewrite lookup_insert_eq. }
      simpl fs. simpl log. simpl server. simpl open_fails. simpl is_zip. simpl unpack.
      simpl requests_made.
      rewrite insert_insert_eq.
      f_equal.
      * f_equal. rewrite concat_cons, length_app. unfold n. lia.
      * f_equal.
        -- by rewrite concat_cons, <- !app_assoc.
        -- by rewrite <- !app_assoc.
Qed.

Lemma logged_nil w : logged [] w = w.
Proof. unfold logged. by rewrite app_nil_r, world_eta. Qed.

Lemma logged_logged a b w : logged b (logged a w) = logged (a ++ b) w.
Proof. unfold logged. simpl. by rewrite app_assoc. Qed.

Lemma when_emit (c : bool) ev w :
  when c (do (emit ev)) w = (Ok tt, logged (if c then [ev] else []) w).
Proof. destruct c; simpl; [done|]. by rewrite logged_nil. Qed.

(** The [with open(...)] block when [open] succeeds. *)
Lemma stream_to_file_eq tp append pb cb total r resume w :
  open_fails w tp (requests_made w) = None ->
  stream_to_file tp append pb cb total r resume w =
    (match stream_error r with
     | Some msg => Raise (RequestException msg)
     | None => Ok (resume + Z.of_nat (length (concat (chunks r))))
     end,
     logged (chunk_events pb cb total (chunks r) resume)
       (stored tp ((if append then default [] (fs w !! tp) else []) ++ concat (chunks r)) w)).
Proof.
  intros Hopen. unfold stream_to_file, bind, open_file. rewrite Hopen.
  set (base := if append then default [] (fs w !! tp) else []).
  set (w1 := set_fs _ w).
  assert (fs w1 !! tp = Some base) as Hbase.
  { unfold w1, base. simpl. destruct append.
    - destruct (fs w !! tp) eqn:E; simpl; [done|]. by rewrite lookup_insert_eq.
    - by rewrite lookup_insert_eq. }
  rewrite (write_chunks_eq tp pb cb total (chunks r) resume w1 base Hbase).
  assert (<[tp := base ++ concat (chunks r)]> (fs w1)
          = <[tp := base ++ concat (chunks r)]> (fs w)) as ->.
  { unfold w1. simpl. destruct append.
    - destruct (fs w !! tp); [done|]. by rewrite insert_insert_eq.
    - by rewrite insert_insert_eq. }
  unfold logged, stored, set_fs, raise, ret. simpl.
  by destruct (stream_error r).
Qed.

(** The [with open(...)] block when [open] raises. *)
Lemma stream_to_file_fails tp append pb cb total r resume w msg :
  open_fails w tp (requests_made w) = Some msg ->
  stream_to_file tp append pb cb total r resume w = (Raise (IOError msg), w).
Proof. intros H. unfold stream_to_file, bind, open_file. by rewrite H. Qed.

Lemma raise_for_status_eq url r w :
  raise_for_status url r w =
    if (400 <=? status_code r) && (status_code r <? 600)
    then (Raise (http_error url r), w) else (Ok tt, w).
Proof. unfold raise_for_status. by destruct (_ && _). Qed.

(** Lines 132-184, case by case. *)
Lemma transfer_eq self url out exp desc extract cb resume r w :
  transfer self url out exp desc extract cb (temp_path_of out) resume r w =
    if (400 <=? status_code r) && (status_code r <? 600)
    then (Raise (http_error url r), w)
    else
      let total := total_size_of r resume exp in
      let pb := show_progress self && (0 <? total) in
      let opened := if pb then [EvBarOpen total resume (desc_of desc out)] else [] in
      let closed := if pb then [EvBarClose] else [] in
      match open_fails w (temp_path_of out) (requests_made w) with
      | Some msg => (Raise (IOError msg), logged (opened ++ closed) w)
      | None =>
          let got := resume + Z.of_nat (length (concat (chunks r))) in
          let w3 :=
            logged (opened ++ chunk_events pb cb total (chunks r) resume ++ closed)
              (stored (temp_path_of out)
                 ((if 0 <? resume then default [] (fs w !! temp_path_of out) else [])
                  ++ concat (chunks r)) w) in
          match stream_error r with
          | Some msg => (Raise (RequestException msg), w3)
          | None =>
              if truthy exp && negb (got =? default 0 exp)
              then (Raise (size_mismatch (default 0 exp) got), w3)
              else _handle_extraction self out extract (promoted out w3)
          end
      end.
Proof.
  unfold transfer. unfold bind at 1. rewrite raise_for_status_eq.
  destruct (_ && _); [done|].
  fold (desc_of desc out).
  set (total := total_size_of r resume exp).
  set (pb := show_progress self && (0 <? total)).
  cbv zeta. unfold bind at 1. rewrite when_emit.
  unfold bind at 1. unfold try_finally.
  set (w1 := logged _ w).
  assert (open_fails w1 (temp_path_of out) (requests_made w1)
          = open_fails w (temp_path_of out) (requests_made w)) as Hsame by done.
  destruct (open_fails w (temp_path_of out) (requests_made w)) as [msg|] eqn:Hopen.
  - rewrite (stream_to_file_fails _ _ _ _ _ _ _ _ msg) by (by rewrite Hsame).
    unfold w1. destruct pb; simpl; unfold logged, emit; simpl;
      by rewrite <- ?app_assoc.
  - rewrite stream_to_file_eq by (by rewrite Hsame).
    assert (forall w0, (if pb then emit EvBarClose w0 else w0)
                       = logged (if pb then [EvBarClose] else []) w0) as Hclose
      by (intros w0; destruct pb; [done|by rewrite logged_nil]).
    rewrite !Hclose.
    assert (forall b, logged (if pb then [EvBarClose] else [])
              (logged (chunk_events pb cb total (chunks r) resume)
                 (stored (temp_path_of out) b w1))
            = logged ((if pb then [EvBarOpen total resume (desc_of desc out)] else [])
                      ++ chunk_events pb cb total (chunks r) resume
                      ++ (if pb then [EvBarClose] else []))
                (stored (temp_path_of out) b w)) as Hw.
    { intros b. unfold w1, logged, stored, set_fs. simpl. by rewrite <- !app_assoc. }
    change (fs w1) with (fs w). rewrite Hw.
    destruct (stream_error r); [done|].
    destruct (truthy exp && _); [done|].
    unfold bind, rename, do. reflexivity.
Qed.

Lemma fs_tick w : fs (tick w) = fs w.
Proof. reflexivity. Qed.

Lemma fs_emit ev w : fs (emit ev w) = fs w.
Proof. reflexivity. Qed.

Lemma fs_logged evs w : fs (logged evs w) = fs w.
Proof. reflexivity. Qed.

Lemma fs_stored p b w : fs (stored p b w) = <[p := b]> (fs w).
Proof. reflexivity. Qed.

Lemma log_logged evs w : log (logged evs w) = log w ++ evs.
Proof. reflexivity. Qed.

(** [_download_with_progress], case by case. *)
Lemma attempt_eq self url out exp desc extract cb w :
  _download_with_progress self url out exp desc extract cb w =
    let w1 := requested url out w in
    match server w (next_request url out w) (requests_made w) with
    | ConnectionFails msg => (Raise (RequestException msg), w1)
    | Responds r =>
        if (status_code r =? 416) && bool_decide (is_Some (fs w !! temp_path_of out))
        then _handle_extraction self out extract (promoted out w1)
        else transfer self url out exp desc extract cb (temp_path_of out)
               (resume_pos_of out w) r w1
    end.
Proof.
  unfold _download_with_progress, requested, next_request, resume_pos_of.
  unfold bind, path_exists, st_size, gets, requests_get, ret. simpl fs.
  destruct (fs w !! temp_path_of out) as [b|] eqn:Hb; cbv beta; rewrite ?Hb.
  - rewrite !bool_decide_eq_true_2 by eauto. cbv beta. rewrite ?Hb.
    destruct (server w _ (requests_made w)); [done|].
    rewrite fs_tick, fs_emit, Hb, bool_decide_eq_true_2 by eauto.
    rewrite !andb_true_r. destruct (status_code r =? 416); reflexivity.
  - rewrite !bool_decide_eq_false_2 by (intros [? ?]; done). cbv beta. rewrite ?Hb.
    destruct (server w _ (requests_made w)); [done|].
    rewrite fs_tick, fs_emit, Hb, bool_decide_eq_false_2 by (intros [? ?]; done).
    by rewrite andb_false_r.
Qed.

Lemma unpacked_nil dir w : unpacked dir [] w = w.
Proof. unfold unpacked, set_fs, write_members. simpl. apply world_eta. Qed.

Lemma log_unpacked dir ms w : log (unpacked dir ms w) = log w.
Proof. reflexivity. Qed.

Lemma is_zip_unpacked dir ms w : is_zip (unpacked dir ms w) = is_zip w.
Proof. reflexivity. Qed.

Lemma unpacked_logged dir ms evs w :
  unpacked dir ms (logged evs w) = logged evs (unpacked dir ms w).
Proof. reflexivity. Qed.

(** Post-processing adds to the log and writes below the extraction
    directory, nowhere else; it fails only when asked to extract: with
    [BadZipFile] on content [zipfile] rejects, with the [OSError] that
    interrupts the unpacking, and for a file that is not there. *)
Lemma handle_extraction_cases self p extract w :
  exists res evs ms,
    _handle_extraction self p extract w
      = (res, logged evs (unpacked (with_suffix p "") ms w)) /\
    Forall quiet evs /\
    ((res = Ok p /\ evs = [] /\ ms = [] /\
      (extract = false \/ lower (suffix p) <> ".zip")) \/
     (extract = true /\ lower (suffix p) = ".zip" /\
      ((exists b, fs w !! p = Some b /\ is_zip w b = true /\
                  ms = written (unpack w b (requests_made w)) /\
                  res = unpack_result (with_suffix p "")
                          (unpack w b (requests_made w))) \/
       (exists m, res = Raise (IOError m) /\ fs w !! p = None /\ ms = []) \/
       (exists m b, res = Raise (BadZipFile m) /\ fs w !! p = Some b /\
                    is_zip w b = false /\ ms = [])))).
Proof.
  unfold _handle_extraction.
  destruct extract.
  2:{ exists (Ok p), [], []. rewrite unpacked_nil, logged_nil.
      split; [done|]. split; [constructor|]. left. auto. }
  destruct (String.eqb_spec (lower (suffix p)) ".zip") as [E|E].
  2:{ exists (Ok p), [], []. rewrite unpacked_nil, logged_nil.
      split; [done|]. split; [constructor|]. left. auto. }
  change (negb true || negb true) with false. cbv iota zeta.
  rewrite announced_eq.
  set (pr := if show_progress self
             then [EvPrint ("Extracting " +:+ name p +:+ "...")] else []).
  assert (Forall quiet pr) as Hpr
    by (unfold pr; destruct (show_progress self); repeat constructor).
  assert (announced self p w = logged pr w) as ->.
  { unfold announced, pr. destruct (show_progress self); [done|]. by rewrite logged_nil. }
  unfold bind at 1. unfold gets at 1. rewrite fs_logged.
  unfold bind at 1. unfold gets at 1.
  change (is_zip (logged pr w)) with (is_zip w).
  destruct (fs w !! p) as [b|] eqn:Hb; [destruct (is_zip w b) eqn:Hz|].
  - set (u := unpack w b (requests_made w)).
    exists (unpack_result (with_suffix p "") u),
           (pr ++ [EvExtractAll p (with_suffix p "")]), (written u).
    split.
    { unfold bind at 1. unfold gets at 1.
      change (unpack (logged pr w) b (requests_made (logged pr w))) with u.
      unfold bind, extractall, do, ret, raise, unpack_result.
      destruct (unpack_error u); unfold unpacked, logged, emit, set_fs; simpl;
        by rewrite <- app_assoc. }
    split; [apply Forall_app; split; [done|repeat constructor]|].
    right. repeat split; try done. left. exists b. auto.
  - exists (Raise (BadZipFile "File is not a zip file")), pr, [].
    rewrite unpacked_nil. split; [done|]. split; [done|].
    right. repeat split; try done. right. right. eauto 10.
  - exists (Raise (IOError ("No such file: " +:+ str_path p))), pr, [].
    rewrite unpacked_nil. split; [done|]. split; [done|].
    right. repeat split; try done. right. left. eauto.
Qed.

Lemma promoted_lookup out w b :
  fs w !! temp_path_of out = Some b ->
  fs (promoted out w) !! out = Some b /\
  fs (promoted out w) !! temp_path_of out = None /\
  (forall p, p <> out -> p <> temp_path_of out -> fs (promoted out w) !! p = fs w !! p).
Proof.
  intros Hb. unfold promoted, set_fs. simpl. rewrite Hb.
  pose proof (temp_path_neq out) as Hne.
  split; [by rewrite lookup_insert_eq|]. split.
  - rewrite lookup_insert_ne by done. by rewrite lookup_delete_eq.
  - intros p H1 H2. rewrite lookup_insert_ne by done. by rewrite lookup_delete_ne.
Qed.

(** ** C9: 416 with a partial file on disk *)

(** C9 (as the code has it). When the partial file exists and the server
    answers 416, the attempt sends its one request, writes nothing to the
    partial file and renames it onto the destination, which then holds
    exactly the bytes the partial file held.  Post-processing follows, and
    its outcome is the outcome of the attempt: the destination itself when
    nothing is to be extracted; for an archive that [zipfile] accepts, the
    unpacking into the directory next to it, which is returned (or the
    [OSError] that interrupted the unpacking); for one it rejects,
    [BadZipFile].  The 416 status itself raises nothing, and the
    destination keeps the promoted bytes in every case. *)
Theorem range_not_satisfiable_promotes self url out exp desc extract cb w b r :
  fs w !! temp_path_of out = Some b ->
  server w (next_request url out w) (requests_made w) = Responds r ->
  status_code r = 416 ->
  let w1 := promoted out (requested url out w) in
  let extract_dir := with_suffix out "" in
  let u := unpack w b (S (requests_made w)) in
  let attempt := _download_with_progress self url out exp desc extract cb w in
  fs w1 !! out = Some b /\
  fs w1 !! temp_path_of out = None /\
  (forall p, p <> out -> p <> temp_path_of out -> fs w1 !! p = fs w !! p) /\
  log w1 = log w ++ [EvRequest (mkRequest url (Some (Z.of_nat (length b))))] /\
  (extract = false \/ ~ has_archive_suffix (name out) -> attempt = (Ok out, w1)) /\
  (extract = true -> has_archive_suffix (name out) -> is_zip w b = true ->
   attempt = (unpack_result extract_dir u,
              unpacked extract_dir (written u)
                (emit (EvExtractAll out extract_dir) (announced self out w1)))) /\
  (extract = true -> has_archive_suffix (name out) -> is_zip w b = false ->
   attempt = (Raise (BadZipFile "File is not a zip file"), announced self out w1)) /\
  fs (snd attempt) !! out = Some b /\
  fs (snd attempt) !! temp_path_of out = None.
Proof.
  intros Hb Hs H416 w1 extract_dir u attempt.
  assert (attempt = _handle_extraction self out extract w1) as Heq.
  { unfold attempt. rewrite attempt_eq. cbv zeta. rewrite Hs, H416, Z.eqb_refl.
    by rewrite bool_decide_eq_true_2 by eauto. }
  assert (fs (requested url out w) !! temp_path_of out = Some b) as Hb1 by done.
  destruct (promoted_lookup out _ b Hb1) as (Ho & Ht & Hp).
  fold w1 in Ho, Ht, Hp.
  split; [done|]. split; [done|]. split; [exact Hp|].
  split.
  { unfold w1, promoted, requested, next_request. simpl. by rewrite Hb. }
  rewrite Heq. clear Heq attempt.
  pose proof (handle_extraction_plain self out extract w1) as Hplain.
  pose proof (fun stem ext b => handle_extraction_archive self out w1 stem ext b) as Hzip.
  assert (announced self out w1 = logged
            (if show_progress self
             then [EvPrint ("Extracting " +:+ name out +:+ "...")] else []) w1) as Hann.
  { unfold announced. destruct (show_progress self); [done|]. by rewrite logged_nil. }
  assert (forall stem ext, name out = stem +:+ ext -> stem <> "" -> lower ext = ".zip" ->
            mkPath (parent out) stem = extract_dir) as Hdir.
  { intros stem ext Hn Hst Hz. unfold extract_dir.
    assert (lower (suffix out) = ".zip") as Hsz
      by (apply has_archive_suffix_iff; by exists stem, ext).
    destruct (suffix_zip_stem out Hsz) as (stem' & ext' & Hn' & _ & Hz' & ->).
    f_equal. rewrite Hn in Hn'.
    assert (String.length ext = String.length ext') as Hl
      by (by rewrite <- (length_lower ext), <- (length_lower ext'), Hz, Hz').
    apply (f_equal (drop_end (String.length ext))) in Hn'.
    rewrite drop_end_app in Hn'. rewrite Hl in Hn'. by rewrite drop_end_app in Hn'. }
  split; [exact Hplain|].
  split.
  { intros -> (stem & ext & Hn & Hst & Hz) Hacc.
    rewrite (Hzip stem ext b Hn Hst Hz Ho). cbv zeta.
    change (is_zip w1) with (is_zip w). rewrite Hacc.
    by rewrite (Hdir stem ext Hn Hst Hz). }
  split.
  { intros -> (stem & ext & Hn & Hst & Hz) Hrej.
    rewrite (Hzip stem ext b Hn Hst Hz Ho). cbv zeta.
    change (is_zip w1) with (is_zip w). by rewrite Hrej. }
  destruct (handle_extraction_cases self out extract w1)
    as (res & evs & ms & -> & _ & _).
  cbn [snd]. rewrite !fs_logged.
  destruct (fs_unpacked_archive out ms w1) as [-> ->]. done.
Qed.

Lemma range_not_satisfiable_promotes_witness :
  _download_with_progress sample_manager sample_url sample_out None None true false
    (archive_world {[ temp_path_of sample_out := xs 10 ]} (answers_status 416)
       true two_members)
  = (Ok (mkPath "/downloads" "test"),
     unpacked (mkPath "/downloads" "test")
       [(mkPath "" "readme.txt", xs 2); (mkPath "/mesh" "model.vtp", xs 3)]
       (emit (EvExtractAll sample_out (mkPath "/downloads" "test"))
          (promoted sample_out
             (requested sample_url sample_out
                (archive_world {[ temp_path_of sample_out := xs 10 ]}
                   (answers_status 416) true two_members))))).
Proof.
  set (w := archive_world {[ temp_path_of sample_out := xs 10 ]} (answers_status 416)
              true two_members).
  assert (fs w !! temp_path_of sample_out = Some (xs 10)) as Hb by (by vm_compute).
  assert (server w (next_request sample_url sample_out w) (requests_made w)
          = Responds (mkResponse 416 None [] None)) as Hs by (by vm_compute).
  assert (status_code (mkResponse 416 None [] None) = 416) as H416 by reflexivity.
  assert (has_archive_suffix (name sample_out)) as Harch
    by (exists "test", ".zip"; by vm_compute).
  destruct (range_not_satisfiable_promotes sample_manager sample_url sample_out
              None None true false w (xs 10) (mkResponse 416 None [] None) Hb Hs H416)
    as (_ & _ & _ & _ & _ & H & _).
  exact (H eq_refl Harch eq_refl).
Defined.

(** C9, the claim as stated fails: with extraction asked for and a partial
    file that [zipfile] rejects, the attempt answered 416 promotes the
    partial file and then raises [BadZipFile]. *)
Lemma range_not_satisfiable_counterexample :
  fst (_download_with_progress sample_manager sample_url sample_out None None true false
         (archive_world {[ temp_path_of sample_out := xs 10 ]} (answers_status 416)
            false no_members))
    = Raise (BadZipFile "File is not a zip file") /\
  fs (snd (_download_with_progress sample_manager sample_url sample_out None None true
             false
             (archive_world {[ temp_path_of sample_out := xs 10 ]} (answers_status 416)
                false no_members))) !! sample_out
    = Some (xs 10).
Proof. by vm_compute. Qed.

(** ** What one streamed response leaves behind *)

Lemma chunk_events_progress pb cb total cs : forall b,
  Forall progress_only (chunk_events pb cb total cs b) /\
  Forall (reports_total total) (chunk_events pb cb total cs b).
Proof.
  induction cs as [|chunk rest IH]; intros b; [by split; constructor|].
  destruct chunk as [|x chunk]; [apply IH|].
  cbn [chunk_events]. destruct (IH (b + Z.of_nat (length (x :: chunk)))) as [H1 H2].
  split; repeat (apply Forall_app; split); try done;
    destruct pb, cb; repeat constructor.
Qed.

Lemma stream_events_progress self out exp desc cb resume r :
  Forall progress_only (stream_events self out exp desc cb resume r) /\
  Forall (reports_total (total_size_of r resume exp))
    (stream_events self out exp desc cb resume r).
Proof.
  unfold stream_events.
  destruct (chunk_events_progress
              (show_progress self && (0 <? total_size_of r resume exp)) cb
              (total_size_of r resume exp) (chunks r) resume) as [H1 H2].
  split; repeat (apply Forall_app; split); try done;
    destruct (show_progress self && _); repeat constructor.
Qed.

Lemma quiet_reports_total total evs : Forall quiet evs -> Forall (reports_total total) evs.
Proof. intros H. eapply Forall_impl; [exact H|]. by intros []. Qed.

Lemma length_streamed_content out r w :
  Z.of_nat (length (streamed_content out r w)) = bytes_after out r w.
Proof.
  unfold streamed_content, bytes_after, resume_pos_of.
  rewrite length_app, Nat2Z.inj_add. f_equal.
  destruct (fs w !! temp_path_of out) as [b|]; simpl; [|done].
  destruct (Z.ltb_spec 0 (Z.of_nat (length b))); simpl; lia.
Qed.

(** An attempt that reaches the stream, as one equation on the world it
    started from. *)
Lemma attempt_streams self url out exp desc extract cb w r :
  server w (next_request url out w) (requests_made w) = Responds r ->
  status_ok r ->
  open_fails w (temp_path_of out) (S (requests_made w)) = None ->
  _download_with_progress self url out exp desc extract cb w =
    let w3 := logged (stream_events self out exp desc cb (resume_pos_of out w) r)
                (stored (temp_path_of out) (streamed_content out r w)
                   (requested url out w)) in
    match stream_error r with
    | Some msg => (Raise (RequestException msg), w3)
    | None =>
        if truthy exp && negb (bytes_after out r w =? default 0 exp)
        then (Raise (size_mismatch (default 0 exp) (bytes_after out r w)), w3)
        else _handle_extraction self out extract (promoted out w3)
    end.
Proof.
  intros Hs Hok Hopen. rewrite attempt_eq. cbv zeta. rewrite Hs.
  unfold status_ok in Hok.
  destruct (Z.eqb_spec (status_code r) 416) as [E|_]; [lia|]. simpl andb. cbv iota.
  rewrite transfer_eq.
  destruct (Z.leb_spec 400 (status_code r)), (Z.ltb_spec (status_code r) 600);
    try lia; simpl andb; cbv iota zeta;
    change (requests_made (requested url out w)) with (S (requests_made w));
    change (open_fails (requested url out w)) with (open_fails w);
    rewrite Hopen; reflexivity.
Qed.

(** ** The retry loop, one iteration at a time *)

Lemma download_attempts_step self url body k attempt last w :
  download_attempts self url body (S k) attempt last w =
    match body w with
    | (Ok p, w') => (Ok p, w')
    | (Raise e, w') =>
        if caught_by_download e
        then download_attempts self url body k (attempt + 1) (Some e)
               (if attempt <? max_retries self - 1
                then emit (EvSleep (retry_delay self * inject_Z (attempt + 1))) w'
                else w')
        else (Raise e, w')
    end.
Proof.
  cbn [download_attempts]. unfold try_except.
  destruct (body w) as [[p|e] w']; [done|].
  destruct (caught_by_download e); [|done].
  unfold bind, when, sleep, do, ret. by destruct (attempt <? max_retries self - 1).
Qed.

Lemma download_eq self url out exp desc extract cb w :
  download self url out exp desc extract cb w =
    download_attempts self url
      (_download_with_progress self url out exp desc extract cb)
      (Z.to_nat (max_retries self)) 0 None (emit (EvMkdir (parent out)) w).
Proof. reflexivity. Qed.

(** ** C1: a size mismatch ends the transfer at once *)

(** C1 (as the code has it). With a known, non-zero expected size, an
    attempt whose stream ends with a byte count different from it raises
    [DownloadError] ("Size mismatch ...") and leaves the partial file, with
    every byte written, in place and the destination untouched.
    [download] does not retry it: the error reaches the caller after that
    one attempt, with one request sent and no back-off sleep. *)
Theorem size_mismatch_not_retried self url out n desc extract cb w r :
  1 <= max_retries self ->
  n <> 0 ->
  server w (next_request url out w) (requests_made w) = Responds r ->
  status_ok r ->
  open_fails w (temp_path_of out) (S (requests_made w)) = None ->
  stream_error r = None ->
  bytes_after out r w <> n ->
  exists w',
    download self url out (Some n) desc extract cb w
      = (Raise (size_mismatch n (bytes_after out r w)), w') /\
    fs w' !! temp_path_of out = Some (streamed_content out r w) /\
    Z.of_nat (length (streamed_content out r w)) = bytes_after out r w /\
    fs w' !! out = fs w !! out /\
    log w' = log w ++ EvMkdir (parent out) :: EvRequest (next_request url out w)
                   :: stream_events self out (Some n) desc cb (resume_pos_of out w) r /\
    Forall progress_only (stream_events self out (Some n) desc cb (resume_pos_of out w) r).
Proof.
  intros Hmax Hn Hs Hok Hopen Herr Hneq.
  rewrite download_eq.
  destruct (Z.to_nat (max_retries self)) as [|k] eqn:Hk; [lia|].
  rewrite download_attempts_step.
  set (w0 := emit (EvMkdir (parent out)) w).
  rewrite (attempt_streams self url out (Some n) desc extract cb w0 r Hs Hok Hopen).
  cbv zeta. rewrite Herr.
  change (bytes_after out r w0) with (bytes_after out r w).
  change (default 0 (Some n)) with n.
  assert (truthy (Some n) && negb (bytes_after out r w =? n) = true) as ->.
  { simpl. destruct (Z.eqb_spec n 0); [done|].
    by destruct (Z.eqb_spec (bytes_after out r w) n). }
  simpl caught_by_download. cbv iota.
  eexists. split; [reflexivity|].
  change (streamed_content out r w0) with (streamed_content out r w).
  change (resume_pos_of out w0) with (resume_pos_of out w).
  rewrite !fs_logged, !fs_stored, log_logged.
  split; [by rewrite lookup_insert_eq|].
  split; [apply length_streamed_content|].
  split.
  { rewrite lookup_insert_ne; [done|]. apply temp_path_neq. }
  split.
  { unfold stored, requested, w0. simpl. by rewrite <- !app_assoc. }
  apply stream_events_progress.
Qed.

Lemma size_mismatch_not_retried_witness :
  exists w',
    download sample_manager sample_url sample_out (Some 100) None false false
      (sample_world ∅ (serves 50))
    = (Raise (size_mismatch 100 50), w').
Proof.
  destruct (size_mismatch_not_retried sample_manager sample_url sample_out 100
              None false false (sample_world ∅ (serves 50))
              (mkResponse 200 (Some 50) [xs 50] None))
    as (w' & H & _);
    [first [by vm_compute | unfold status_ok; simpl; lia] ..|].
  exists w'. exact H.
Defined.

(** C1, the claim as stated fails: with three attempts allowed and a server
    that keeps sending 50 of the 100 expected bytes, [download] raises the
    size mismatch after a single request and without sleeping. *)
Lemma size_mismatch_retry_counterexample :
  max_retries sample_manager = 3 /\
  fst (download sample_manager sample_url sample_out (Some 100) None false false
         (sample_world ∅ (serves 50)))
    = Raise (DownloadError "Size mismatch: expected 100, got 50") /\
  log (snd (download sample_manager sample_url sample_out (Some 100) None false false
              (sample_world ∅ (serves 50))))
    = [EvMkdir "/downloads"; EvRequest (mkRequest sample_url None)].
Proof. by vm_compute. Qed.


(** ** C4: when the partial file becomes the destination *)

Lemma stored_temp_keeps_out out b w :
  fs (stored (temp_path_of out) b w) !! out = fs w !! out.
Proof. rewrite fs_stored. apply lookup_insert_ne, temp_path_neq. Qed.

(** C4 (as the code has it). With a known, non-zero expected size, an
    attempt that is not on the 416 path either leaves the destination as it
    was, or has renamed onto it a partial file of exactly the expected
    length, which is then gone from its temporary path; a successful
    attempt is always of the second kind.  (Nothing bounds the partial file
    while the stream is written: the count is compared after the stream.) *)
Theorem promoted_only_at_expected_size self url out n desc extract cb w :
  n <> 0 ->
  (forall r, server w (next_request url out w) (requests_made w) = Responds r ->
             status_code r = 416 -> fs w !! temp_path_of out = None) ->
  forall res w',
    _download_with_progress self url out (Some n) desc extract cb w = (res, w') ->
    (fs w' !! out = fs w !! out \/
     exists b, fs w' !! out = Some b /\ Z.of_nat (length b) = n /\
               fs w' !! temp_path_of out = None) /\
    (forall p, res = Ok p ->
     exists b, fs w' !! out = Some b /\ Z.of_nat (length b) = n /\
               fs w' !! temp_path_of out = None).
Proof.
  intros Hn H416 res w'. rewrite attempt_eq. cbv zeta.
  destruct (server w (next_request url out w) (requests_made w)) as [msg|r] eqn:Hs.
  { intros [= <- <-]. split; [by left|discriminate]. }
  destruct (Z.eqb_spec (status_code r) 416) as [E|E].
  { rewrite bool_decide_eq_false_2
      by (rewrite (H416 r eq_refl E); intros [? ?]; done).
    simpl andb. cbv iota. rewrite transfer_eq.
    rewrite E. simpl. intros [= <- <-]. split; [by left|discriminate]. }
  simpl andb. cbv iota. rewrite transfer_eq.
  destruct (_ && _).
  { intros [= <- <-]. split; [by left|discriminate]. }
  cbv zeta.
  destruct (open_fails _ _ _) as [msg|].
  { intros [= <- <-]. split; [by left|discriminate]. }
  set (content := _ ++ concat (chunks r)).
  set (w3 := logged _ (stored (temp_path_of out) content (requested url out w))).
  assert (fs w3 !! out = fs w !! out) as Hout
    by (unfold w3; rewrite fs_logged;
        exact (stored_temp_keeps_out out content (requested url out w))).
  destruct (stream_error r) as [msg|].
  { intros [= <- <-]. split; [by left|discriminate]. }
  change (default 0 (Some n)) with n.
  destruct (truthy (Some n) && _) eqn:Hcheck.
  { intros [= <- <-]. split; [by left|discriminate]. }
  assert (Z.of_nat (length content) = n) as Hlen.
  { pose proof (length_streamed_content out r w) as HL.
    change (streamed_content out r w) with content in HL.
    unfold bytes_after in HL. rewrite HL.
    simpl in Hcheck. destruct (Z.eqb_spec n 0); [done|]. simpl in Hcheck.
    apply negb_false_iff in Hcheck. by apply Z.eqb_eq in Hcheck. }
  pose proof (handle_extraction_cases self out extract (promoted out w3))
    as (res' & evs & ms & Heq & _ & _).
  rewrite Heq. intros [= <- <-].
  assert (fs w3 !! temp_path_of out = Some content) as Htmp
    by (unfold w3; rewrite fs_logged, fs_stored; apply lookup_insert_eq).
  destruct (promoted_lookup out w3 content Htmp) as (Ho & Ht & _).
  rewrite !fs_logged.
  destruct (fs_unpacked_archive out ms (promoted out w3)) as [-> ->].
  split; [right|intros p _]; eauto.
Qed.

Lemma promoted_only_at_expected_size_witness :
  exists b,
    fs (snd (_download_with_progress sample_manager sample_url sample_out (Some 100)
               None false false (sample_world ∅ (serves 100)))) !! sample_out = Some b /\
    Z.of_nat (length b) = 100.
Proof.
  set (w := sample_world ∅ (serves 100)).
  assert (forall r, server w (next_request sample_url sample_out w) (requests_made w)
                    = Responds r ->
                    status_code r = 416 -> fs w !! temp_path_of sample_out = None) as H416.
  { intros r Hr E. vm_compute in Hr. injection Hr as <-. discriminate E. }
  assert (_download_with_progress sample_manager sample_url sample_out (Some 100)
            None false false w
          = (Ok sample_out,
             snd (_download_with_progress sample_manager sample_url sample_out
                    (Some 100) None false false w))) as Hrun
    by (by vm_compute).
  assert (100 <> 0) as Hn by lia.
  destruct (promoted_only_at_expected_size sample_manager sample_url sample_out 100
              None false false w Hn H416 _ _ Hrun) as [_ H].
  destruct (H sample_out eq_refl) as (b & Hb & Hl & _).
  exists b. split; [exact Hb|exact Hl].
Defined.

(** C4, the claim as stated fails: a body of 150 bytes is written in full
    to the partial file although 100 were expected, and on the 416 path a
    partial file of 10 bytes becomes the destination although 100 were
    expected. *)
Lemma partial_file_bound_counterexample :
  fs (snd (download sample_manager sample_url sample_out (Some 100) None false false
             (sample_world ∅ (serves 150)))) !! temp_path_of sample_out
    = Some (xs 150) /\
  fs (snd (download sample_manager sample_url sample_out (Some 100) None false false
             (sample_world {[ temp_path_of sample_out := xs 10 ]} (answers_status 416))))
    !! sample_out
    = Some (xs 10).
Proof. by vm_compute. Qed.

(** ** C3: the total handed to the progress display *)

Lemma log_promoted out w : log (promoted out w) = log w.
Proof. reflexivity. Qed.

Lemma log_stored p b w : log (stored p b w) = log w.
Proof. reflexivity. Qed.

(** C3 (as the code has it). For a 200 or 206 response, every total the
    attempt reports (to the progress bar and to the progress callback) is
    [total_size_of]: for 206 the declared content length (0 when none is
    declared) plus the resume offset, whatever expected size the caller
    gave; for 200 the caller's expected size whenever one is given and is
    not 0, and the declared content length (0 when none) only otherwise.
    Verification does not use that total: once the stream has ended, the
    attempt raises the size mismatch exactly when the caller gave an
    expected size other than 0 and the bytes then in the partial file are
    not that many, whatever length the server declared; no other
    [DownloadError] comes out of the attempt. *)
Theorem total_size_reported self url out exp desc extract cb w r :
  server w (next_request url out w) (requests_made w) = Responds r ->
  status_code r = 200 \/ status_code r = 206 ->
  let resume := resume_pos_of out w in
  let total := total_size_of r resume exp in
  (exists evs,
     log (snd (_download_with_progress self url out exp desc extract cb w))
       = log w ++ evs /\
     Forall (reports_total total) evs) /\
  (status_code r = 206 -> total = default 0 (content_length r) + resume) /\
  (status_code r = 200 -> forall n, exp = Some n -> n <> 0 -> total = n) /\
  (status_code r = 200 -> exp = None \/ exp = Some 0 ->
   total = default 0 (content_length r)) /\
  (open_fails w (temp_path_of out) (S (requests_made w)) = None ->
   stream_error r = None ->
   let got := bytes_after out r w in
   let outcome := fst (_download_with_progress self url out exp desc extract cb w) in
   (truthy exp = true -> got <> default 0 exp ->
    outcome = Raise (size_mismatch (default 0 exp) got)) /\
   (truthy exp = false \/ got = default 0 exp ->
    forall m, outcome <> Raise (DownloadError m))).
Proof.
  intros Hs Hst resume total.
  assert (status_ok r) as Hok by (unfold status_ok; lia).
  split; [|split; [|split; [|split]]].
  - destruct (open_fails w (temp_path_of out) (S (requests_made w))) as [msg|] eqn:Hopen.
    + rewrite attempt_eq. cbv zeta. rewrite Hs.
      destruct (Z.eqb_spec (status_code r) 416); [lia|]. simpl andb. cbv iota.
      rewrite transfer_eq.
      destruct (Z.leb_spec 400 (status_code r)), (Z.ltb_spec (status_code r) 600);
        try lia; simpl andb; cbv iota zeta;
        change (requests_made (requested url out w)) with (S (requests_made w));
        change (open_fails (requested url out w)) with (open_fails w);
        rewrite Hopen; simpl snd; rewrite log_logged;
        (eexists; split;
         [unfold requested; simpl; rewrite <- app_assoc; reflexivity|]);
        (constructor; [done|]);
        fold resume; fold total;
        destruct (show_progress self && (0 <? total)); repeat constructor.
    + rewrite (attempt_streams self url out exp desc extract cb w r Hs Hok Hopen).
      cbv zeta.
      set (w3 := logged _ (stored _ _ (requested url out w))).
      assert (exists evs, log w3 = log w ++ evs /\ Forall (reports_total total) evs)
        as (evs3 & Hl3 & Hf3).
      { eexists. split.
        - unfold w3. rewrite log_logged, log_stored. unfold requested. simpl.
          rewrite <- app_assoc. reflexivity.
        - constructor; [done|]. apply stream_events_progress. }
      destruct (stream_error r); [by eauto|].
      destruct (truthy exp && _); [by eauto|].
      pose proof (handle_extraction_cases self out extract (promoted out w3))
        as (res & evs & ms & Heq & Hq & _).
      rewrite Heq. simpl snd. rewrite log_logged, log_unpacked, log_promoted, Hl3.
      exists (evs3 ++ evs). split; [by rewrite app_assoc|].
      apply Forall_app. split; [done|]. by apply quiet_reports_total.
  - intros E. unfold total, total_size_of. by rewrite E.
  - intros E n -> Hn. unfold total, total_size_of. rewrite E. simpl.
    by destruct (Z.eqb_spec n 0).
  - intros E Hexp. unfold total, total_size_of. rewrite E. simpl.
    by destruct Hexp as [-> | ->].
  - intros Hopen Herr got outcome. subst outcome.
    rewrite (attempt_streams self url out exp desc extract cb w r Hs Hok Hopen).
    cbv zeta. rewrite Herr. fold got. split.
    + intros Ht Hne. rewrite Ht.
      by destruct (Z.eqb_spec got (default 0 exp)).
    + intros Hsame m.
      assert (truthy exp && negb (got =? default 0 exp) = false) as ->.
      { destruct Hsame as [-> | ->]; [done|]. by rewrite Z.eqb_refl, andb_false_r. }
      match goal with
      | |- context [_handle_extraction self out extract ?w0] =>
          destruct (handle_extraction_cases self out extract w0)
            as (res & evs & ms & -> & _ & Hcase)
      end.
      cbn [fst].
      destruct Hcase as [(-> & _)|(_ & _ & [(b & _ & _ & _ & ->)|[(m' & -> & _)|(m' & b & -> & _)]])];
        try done.
      unfold unpack_result. by destruct (unpack_error _).
Qed.

Lemma total_size_reported_witness :
  total_size_of (mkResponse 206 (Some 40) [xs 40] None) 60 (Some 999) = 100.
Proof.
  set (w := sample_world {[ temp_path_of sample_out := xs 60 ]}
              (fun _ _ => Responds (mkResponse 206 (Some 40) [xs 40] None))).
  assert (server w (next_request sample_url sample_out w) (requests_made w)
          = Responds (mkResponse 206 (Some 40) [xs 40] None)) as Hs by reflexivity.
  assert (status_code (mkResponse 206 (Some 40) [xs 40] None) = 200 \/
          status_code (mkResponse 206 (Some 40) [xs 40] None) = 206) as Hst
    by (by right).
  destruct (total_size_reported sample_manager sample_url sample_out (Some 999)
              None false true w _ Hs Hst) as (_ & H206 & _).
  exact (H206 eq_refl).
Defined.

(** C3, the claim as stated fails: the server declares 10 bytes in a 200
    response and the caller expected 5; the callback is told that the total
    is 5, not the declared 10, and the 10 bytes received are then checked
    against the caller's 5. *)
Lemma total_size_counterexample :
  log (snd (download sample_manager sample_url sample_out (Some 5) None false true
              (sample_world ∅ (serves 10))))
    = [EvMkdir "/downloads"; EvRequest (mkRequest sample_url None); EvOnProgress 10 5] /\
  fst (download sample_manager sample_url sample_out (Some 5) None false true
         (sample_world ∅ (serves 10)))
    = Raise (DownloadError "Size mismatch: expected 5, got 10") /\
  total_size_of (mkResponse 200 (Some 10) [xs 10] None) 0 (Some 5) = 5.
Proof. by vm_compute. Qed.

(** ** The retry loop when every attempt fails *)

(** [k] more attempts, each failing with a caught exception and leaving
    only [during] in the log: the loop runs them all and gives up. *)
Lemma attempts_all_caught self url (body : M Path) rq during (err : nat -> exn) w :
  (forall j w0, same_surroundings w w0 ->
                requests_made w0 = (requests_made w + j)%nat ->
                (j < Z.to_nat (max_retries self))%nat ->
                body w0 = (Raise (err j), logged during (tick (emit (EvRequest rq) w0)))) ->
  (forall j, caught_by_download (err j) = true) ->
  forall k j last w0,
    (j + k = Z.to_nat (max_retries self))%nat ->
    same_surroundings w w0 ->
    requests_made w0 = (requests_made w + j)%nat ->
    exists w',
      download_attempts self url body k (Z.of_nat j) last w0
        = (Raise (retries_exhausted self url
                    (match k with
                     | O => last
                     | S _ => Some (err (Z.to_nat (max_retries self) - 1)%nat)
                     end)), w') /\
      log w' = log w0 ++ attempts_trace rq during (retry_delay self) (max_retries self)
                           (Z.of_nat j) k /\
      same_surroundings w w' /\
      requests_made w' = (requests_made w + Z.to_nat (max_retries self))%nat.
Proof.
  intros Hbody Hcaught. induction k as [|k IH]; intros j last w0 Hjk Hsame Hreq.
  - exists w0. simpl. unfold raise. rewrite app_nil_r.
    repeat split; try apply Hsame. rewrite Hreq. lia.
  - rewrite download_attempts_step, (Hbody j w0 Hsame Hreq) by lia.
    rewrite Hcaught.
    set (w1 := if Z.of_nat j <? max_retries self - 1 then _ else _).
    assert (same_surroundings w w1 /\ requests_made w1 = (requests_made w + S j)%nat /\
            log w1 = log w0 ++ EvRequest rq :: during ++
                       (if Z.of_nat j <? max_retries self - 1
                        then [EvSleep (retry_delay self * inject_Z (Z.of_nat j + 1))]
                        else [])) as (Hs1 & Hr1 & Hl1).
    { unfold w1. destruct (Z.of_nat j <? max_retries self - 1); simpl;
        rewrite Hreq, <- ?app_assoc, ?app_nil_r; repeat split; try apply Hsame; lia. }
    destruct (IH (S j) (Some (err j)) w1 ltac:(lia) Hs1 Hr1) as (w' & Hrun & Hlog & Hs' & Hr').
    exists w'.
    replace (Z.of_nat j + 1) with (Z.of_nat (S j)) by lia.
    rewrite Hrun. split.
    { do 3 f_equal. destruct k; [|done]. do 2 f_equal. lia. }
    split; [|done].
    rewrite Hlog, Hl1. cbn [attempts_trace].
    replace (Z.of_nat j + 1) with (Z.of_nat (S j)) by lia.
    by rewrite <- !app_assoc, <- app_comm_cons, <- !app_assoc.
Qed.

Lemma sleeps_app a b : sleeps (a ++ b) = sleeps a ++ sleeps b.
Proof. unfold sleeps. apply omap_app. Qed.

Lemma requests_of_app a b : requests_of (a ++ b) = requests_of a ++ requests_of b.
Proof. unfold requests_of. apply omap_app. Qed.

(** When the attempts themselves log neither a request nor a sleep, the
    trace holds one request per attempt and the sleeps [d * (j + 1)],
    [d * (j + 2)], ... up to [d * (n - 1)]. *)
Lemma attempts_trace_counts rq during d n :
  requests_of during = [] -> sleeps during = [] ->
  forall k j,
    Z.of_nat k + j = n ->
    requests_of (attempts_trace rq during d n j k) = replicate k rq /\
    sleeps (attempts_trace rq during d n j k)
      = map (fun i => (d * inject_Z i)%Q) (seqZ (j + 1) (Z.of_nat k - 1)).
Proof.
  intros Hdr Hds. induction k as [|k IH]; intros j Hn; [done|].
  cbn [attempts_trace]. destruct (IH (j + 1) ltac:(lia)) as [Hr Hs].
  split.
  - change (EvRequest rq :: ?l) with ([EvRequest rq] ++ l).
    rewrite !requests_of_app, Hr, Hdr. simpl.
    by destruct (j <? n - 1).
  - change (EvRequest rq :: ?l) with ([EvRequest rq] ++ l).
    rewrite !sleeps_app, Hs, Hds. simpl.
    destruct (Z.ltb_spec j (n - 1)).
    + simpl. rewrite (seqZ_cons (j + 1)) by lia. simpl. do 2 f_equal. f_equal; lia.
    + assert (k = 0%nat) as -> by lia. done.
Qed.

(** ** C5: every attempt fails in transport *)

Lemma attempt_transport_failure self url out exp desc extract cb w :
  transport_failure (bool_decide (is_Some (fs w !! temp_path_of out)))
    (server w (next_request url out w) (requests_made w)) ->
  _download_with_progress self url out exp desc extract cb w
    = (Raise (failure_of url (server w (next_request url out w) (requests_made w))),
       requested url out w).
Proof.
  intros Hf. rewrite attempt_eq. cbv zeta.
  destruct (server w (next_request url out w) (requests_made w)) as [msg|r]; [done|].
  simpl in Hf. destruct Hf as [Hst H416].
  assert ((status_code r =? 416)
          && bool_decide (is_Some (fs w !! temp_path_of out)) = false) as ->.
  { destruct (Z.eqb_spec (status_code r) 416) as [E|]; [|done]. by rewrite H416. }
  rewrite transfer_eq.
  destruct (Z.leb_spec 400 (status_code r)), (Z.ltb_spec (status_code r) 600);
    try lia. reflexivity.
Qed.

(** C5. When the server fails every one of the [max_retries] attempts in
    transport or with an error status, [download] makes exactly
    [max_retries] attempts (one request each), sleeps [retry_delay * i]
    after the i-th attempt for i = 1 .. max_retries - 1 and not after the
    last, and then raises a [DownloadError] whose message names the URL, the
    number of attempts and the last underlying error.  The files on disk
    are as before. *)
Theorem download_exhausts_retries self url out exp desc extract cb w :
  1 <= max_retries self ->
  (forall j, (j < Z.to_nat (max_retries self))%nat ->
     transport_failure (bool_decide (is_Some (fs w !! temp_path_of out)))
       (server w (next_request url out w) (requests_made w + j)%nat)) ->
  let rq := next_request url out w in
  let n := max_retries self in
  let last_error :=
    failure_of url (server w rq (requests_made w + (Z.to_nat n - 1))%nat) in
  exists w',
    download self url out exp desc extract cb w
      = (Raise (DownloadError ("Failed to download " +:+ url +:+ " after "
                               +:+ pretty n +:+ " attempts: "
                               +:+ str_exn last_error)), w') /\
    log w' = log w ++ EvMkdir (parent out) :: retry_trace rq [] (retry_delay self) n /\
    requests_of (retry_trace rq [] (retry_delay self) n) = replicate (Z.to_nat n) rq /\
    sleeps (retry_trace rq [] (retry_delay self) n)
      = map (fun i => (retry_delay self * inject_Z i)%Q) (seqZ 1 (n - 1)) /\
    fs w' = fs w.
Proof.
  intros Hmax Hfail rq n last_error. rewrite download_eq.
  set (w0 := emit (EvMkdir (parent out)) w).
  destruct (attempts_all_caught self url
              (_download_with_progress self url out exp desc extract cb) rq []
              (fun j => failure_of url (server w rq (requests_made w + j)%nat)) w)
    with (k := Z.to_nat n) (j := 0%nat) (last := @None exn) (w0 := w0)
    as (w' & Hrun & Hlog & (Hfs & _) & _).
  - intros j w1 (Hfs & Hsrv & _) Hreq Hj.
    assert (next_request url out w1 = rq) as Hrq
      by (unfold rq, next_request; by rewrite Hfs).
    rewrite attempt_transport_failure; rewrite ?Hrq, ?Hsrv, ?Hreq, ?Hfs.
    + unfold requested. by rewrite Hrq, logged_nil.
    + by apply Hfail.
  - intros j. by destruct (server w rq (requests_made w + j)%nat).
  - unfold n. lia.
  - done.
  - simpl. lia.
  - exists w'. change (Z.of_nat 0) with 0 in Hrun, Hlog.
    subst last_error. subst n. rewrite Hrun. unfold retry_trace.
    destruct (Z.to_nat (max_retries self)) as [|k] eqn:Hk; [lia|].
    split; [reflexivity|]. split.
    { rewrite Hlog. unfold w0. simpl log. by rewrite <- app_assoc. }
    destruct (attempts_trace_counts rq [] (retry_delay self) (max_retries self)
                eq_refl eq_refl (S k) 0 ltac:(lia)) as [Hr Hs].
    split; [done|]. split; [|done].
    rewrite Hs. do 2 f_equal. lia.
Qed.

Lemma download_exhausts_retries_witness :
  exists w',
    download sample_manager sample_url sample_out None None false false
      (sample_world ∅ (answers_status 503))
    = (Raise (DownloadError
                "Failed to download https://example.com/test.zip after 3 attempts: 503 Error for url: https://example.com/test.zip"),
       w') /\
    sleeps (log w') = [1 * inject_Z 1; 1 * inject_Z 2]%Q.
Proof.
  destruct (download_exhausts_retries sample_manager sample_url sample_out
              None None false false (sample_world ∅ (answers_status 503)))
    as (w' & Hrun & Hlog & _ & Hs & _).
  - by vm_compute.
  - intros j _. vm_compute. repeat split; done.
  - exists w'. split; [exact Hrun|].
    rewrite Hlog, sleeps_app.
    change (EvMkdir ?d :: ?l) with ([EvMkdir d] ++ l).
    rewrite sleeps_app, Hs. reflexivity.
Defined.

(** ** C2: a failing disk *)

Lemma attempt_open_fails self url out exp desc extract cb w r msg :
  server w (next_request url out w) (requests_made w) = Responds r ->
  status_ok r ->
  open_fails w (temp_path_of out) (S (requests_made w)) = Some msg ->
  _download_with_progress self url out exp desc extract cb w
    = (Raise (IOError msg),
       logged (bar_only self out exp desc (resume_pos_of out w) r)
         (requested url out w)).
Proof.
  intros Hs Hok Hopen. rewrite attempt_eq. cbv zeta. rewrite Hs.
  unfold status_ok in Hok.
  destruct (Z.eqb_spec (status_code r) 416) as [E|_]; [lia|]. simpl andb. cbv iota.
  rewrite transfer_eq.
  destruct (Z.leb_spec 400 (status_code r)), (Z.ltb_spec (status_code r) 600);
    try lia; simpl andb; cbv iota zeta;
    change (requests_made (requested url out w)) with (S (requests_made w));
    change (open_fails (requested url out w)) with (open_fails w);
    rewrite Hopen; reflexivity.
Qed.

(** C2 (as the code has it). An [IOError] raised by [open] during an
    attempt is caught by [download] like a network failure: when the disk
    fails every attempt, [download] still makes all [max_retries] attempts,
    sleeping [retry_delay * i] after the i-th, and only then raises a
    [DownloadError] that wraps the [IOError]'s message. *)
Theorem io_error_is_retried self url out exp desc extract cb w r msg :
  1 <= max_retries self ->
  status_ok r ->
  (forall j, (j < Z.to_nat (max_retries self))%nat ->
     server w (next_request url out w) (requests_made w + j)%nat = Responds r) ->
  (forall j, (j < Z.to_nat (max_retries self))%nat ->
     open_fails w (temp_path_of out) (S (requests_made w + j)) = Some msg) ->
  let rq := next_request url out w in
  let n := max_retries self in
  let during := bar_only self out exp desc (resume_pos_of out w) r in
  exists w',
    download self url out exp desc extract cb w
      = (Raise (DownloadError ("Failed to download " +:+ url +:+ " after "
                               +:+ pretty n +:+ " attempts: " +:+ msg)), w') /\
    log w' = log w ++ EvMkdir (parent out) :: retry_trace rq during (retry_delay self) n /\
    requests_of (retry_trace rq during (retry_delay self) n) = replicate (Z.to_nat n) rq /\
    sleeps (retry_trace rq during (retry_delay self) n)
      = map (fun i => (retry_delay self * inject_Z i)%Q) (seqZ 1 (n - 1)) /\
    fs w' = fs w.
Proof.
  intros Hmax Hok Hsrv Hopen rq n during. rewrite download_eq.
  set (w0 := emit (EvMkdir (parent out)) w).
  destruct (attempts_all_caught self url
              (_download_with_progress self url out exp desc extract cb) rq during
              (fun _ => IOError msg) w)
    with (k := Z.to_nat n) (j := 0%nat) (last := @None exn) (w0 := w0)
    as (w' & Hrun & Hlog & (Hfs & _) & _).
  - intros j w1 (Hfs & Hsv & Hop) Hreq Hj.
    assert (next_request url out w1 = rq) as Hrq
      by (unfold rq, next_request; by rewrite Hfs).
    rewrite (attempt_open_fails self url out exp desc extract cb w1 r msg).
    + unfold requested, during, resume_pos_of. by rewrite Hrq, Hfs.
    + rewrite Hrq, Hsv, Hreq. by apply Hsrv.
    + done.
    + rewrite Hop, Hreq. by apply Hopen.
  - done.
  - unfold n. lia.
  - done.
  - simpl. lia.
  - exists w'. change (Z.of_nat 0) with 0 in Hrun, Hlog.
    subst n. rewrite Hrun. unfold retry_trace.
    destruct (Z.to_nat (max_retries self)) as [|k] eqn:Hk; [lia|].
    split; [reflexivity|]. split.
    { rewrite Hlog. unfold w0. simpl log. by rewrite <- app_assoc. }
    assert (requests_of during = [] /\ sleeps during = []) as [Hdr Hds].
    { unfold during, bar_only. by destruct (show_progress self && _). }
    destruct (attempts_trace_counts rq during (retry_delay self) (max_retries self)
                Hdr Hds (S k) 0 ltac:(lia)) as [Hr Hs].
    split; [done|]. split; [|done].
    rewrite Hs. do 2 f_equal. lia.
Qed.

Lemma io_error_is_retried_witness :
  exists w',
    download sample_manager sample_url sample_out None None false false
      (mkWorld ∅ (serves 10) (fails_first 3 "Permission denied") (fun _ => true) no_members 0 [])
    = (Raise (DownloadError
                "Failed to download https://example.com/test.zip after 3 attempts: Permission denied"),
       w') /\
    sleeps (log w') = [1 * inject_Z 1; 1 * inject_Z 2]%Q.
Proof.
  destruct (io_error_is_retried sample_manager sample_url sample_out
              None None false false
              (mkWorld ∅ (serves 10) (fails_first 3 "Permission denied")
                 (fun _ => true) no_members 0 [])
              (mkResponse 200 (Some 10) [xs 10] None) "Permission denied")
    as (w' & Hrun & Hlog & _ & Hs & _).
  - by vm_compute.
  - unfold status_ok. simpl. lia.
  - intros j _. reflexivity.
  - intros j Hj. change (Z.to_nat (max_retries sample_manager)) with 3%nat in Hj.
    unfold open_fails, fails_first, requests_made.
    destruct (Nat.leb_spec (S (0 + j)) 3); [done|lia].
  - exists w'. split; [exact Hrun|].
    rewrite Hlog, sleeps_app.
    change (EvMkdir ?d :: ?l) with ([EvMkdir d] ++ l).
    rewrite sleeps_app, Hs. reflexivity.
Defined.

(** C2, the claim as stated fails: [open] raises [IOError] during the
    first attempt; instead of surfacing it, [download] sleeps, tries again
    and succeeds. *)
Lemma io_error_surfaced_counterexample :
  fst (_download_with_progress sample_manager sample_url sample_out None None false false
         (mkWorld ∅ (serves 10) (fails_first 1 "Permission denied") (fun _ => true) no_members 0 []))
    = Raise (IOError "Permission denied") /\
  fst (download sample_manager sample_url sample_out None None false false
         (mkWorld ∅ (serves 10) (fails_first 1 "Permission denied") (fun _ => true) no_members 0 []))
    = Ok sample_out /\
  log (snd (download sample_manager sample_url sample_out None None false false
         (mkWorld ∅ (serves 10) (fails_first 1 "Permission denied") (fun _ => true) no_members 0 [])))
    = [EvMkdir "/downloads"; EvRequest (mkRequest sample_url None);
       EvSleep (1 * inject_Z 1); EvRequest (mkRequest sample_url None)].
Proof. by vm_compute. Qed.

(** ** What an attempt and a transfer can raise *)

Lemma is_zip_logged evs w : is_zip (logged evs w) = is_zip w.
Proof. reflexivity. Qed.

(** An attempt leaves [zipfile] as it was; what it raises is caught by
    [download], or is a [DownloadError], or is the [BadZipFile] of an
    extraction that met content [zipfile] rejects. *)
Lemma attempt_outcome self url out exp desc extract cb w res w' :
  _download_with_progress self url out exp desc extract cb w = (res, w') ->
  is_zip w' = is_zip w /\
  (forall e, res = Raise e ->
     caught_by_download e = true \/
     (exists m, e = DownloadError m) \/
     (exists m b, e = BadZipFile m /\ extract = true /\ is_zip w b = false)).
Proof.
  assert (forall w0, is_zip w0 = is_zip w ->
            forall res w', _handle_extraction self out extract w0 = (res, w') ->
            is_zip w' = is_zip w /\
            (forall e, res = Raise e ->
               caught_by_download e = true \/
               (exists m, e = DownloadError m) \/
               (exists m b, e = BadZipFile m /\ extract = true /\ is_zip w b = false)))
    as Hpost.
  { intros w0 Hz res0 w0' Hrun.
    destruct (handle_extraction_cases self out extract w0)
      as (res1 & evs & ms & Heq & _ & Hcase).
    rewrite Heq in Hrun. injection Hrun as <- <-.
    split; [by rewrite is_zip_logged, is_zip_unpacked|].
    intros e ->.
    destruct Hcase as [(? & _)|(He & _ & [(b & _ & _ & _ & Hres)|[(m & [= ->] & _)|(m & b & [= ->] & _ & Hb & _)]])];
      try done.
    - left. unfold unpack_result in Hres.
      destruct (unpack_error (unpack w0 b (requests_made w0)));
        [by injection Hres as ->|discriminate].
    - by left.
    - right. right. exists m, b. by rewrite <- Hz. }
  rewrite attempt_eq. cbv zeta.
  destruct (server w (next_request url out w) (requests_made w)) as [msg|r].
  { intros [= <- <-]. split; [done|]. intros e [= <-]. by left. }
  destruct (_ && _).
  { by apply Hpost. }
  rewrite transfer_eq.
  destruct (_ && _).
  { intros [= <- <-]. split; [done|]. intros e [= <-]. by left. }
  cbv zeta. destruct (open_fails _ _ _) as [msg|].
  { intros [= <- <-]. split; [done|]. intros e [= <-]. by left. }
  destruct (stream_error r) as [msg|].
  { intros [= <- <-]. split; [done|]. intros e [= <-]. by left. }
  destruct (truthy exp && _).
  { intros [= <- <-]. split; [done|]. intros e [= <-]. right. left. eauto. }
  by apply Hpost.
Qed.

(** When no unpacking can fail, a transfer returns a path or raises
    [DownloadError], and nothing else. *)
Lemma download_attempts_outcome self url out exp desc extract cb : forall k attempt last w res w',
  unpack_cannot_fail extract w ->
  download_attempts self url (_download_with_progress self url out exp desc extract cb)
    k attempt last w = (res, w') ->
  is_zip w' = is_zip w /\ (forall e, res = Raise e -> exists m, e = DownloadError m).
Proof.
  induction k as [|k IH]; intros attempt last w res w' Hzip.
  - simpl. intros [= <- <-]. split; [done|]. intros e [= <-]. eauto.
  - rewrite download_attempts_step.
    destruct (_download_with_progress self url out exp desc extract cb w)
      as [[p|e] w1] eqn:Hrun;
      destruct (attempt_outcome _ _ _ _ _ _ _ _ _ _ Hrun) as [Hz Hraise].
    + intros [= <- <-]. split; [done|]. discriminate.
    + destruct (Hraise e eq_refl) as [Hc|[(m & ->)|(m & b & -> & He & Hb)]].
      * rewrite Hc. intros Hrest.
        apply IH in Hrest.
        -- destruct Hrest as [Hz' Hr']. split; [|done]. rewrite Hz'.
           by destruct (attempt <? max_retries self - 1).
        -- destruct Hzip as [->|Hzip]; [by left|right].
           intros b. destruct (attempt <? max_retries self - 1); simpl; rewrite Hz; apply Hzip.
      * simpl. intros [= <- <-]. split; [done|]. intros e [= <-]. eauto.
      * destruct Hzip as [->|Hzip]; [done|]. rewrite Hzip in Hb. done.
Qed.

Lemma download_outcome self url out exp desc extract cb w :
  unpack_cannot_fail extract w ->
  exists w',
    is_zip w' = is_zip w /\
    ((exists p, download self url out exp desc extract cb w = (Ok p, w')) \/
     (exists m, download self url out exp desc extract cb w = (Raise (DownloadError m), w'))).
Proof.
  intros Hzip. rewrite download_eq.
  destruct (download_attempts _ _ _ _ _ _ _) as [[p|e] w'] eqn:Hrun;
    apply download_attempts_outcome in Hrun as [Hz Hr]; try done;
    exists w'; (split; [done|]).
  - left. eauto.
  - right. destruct (Hr e eq_refl) as (m & ->). eauto.
Qed.

(** ** The batch loop, one item at a time *)

Lemma batch_loop_step self dir extract delay cb total i t rest results w :
  unpack_cannot_fail extract w ->
  is_zip (snd (batch_item self dir extract cb i total t w)) = is_zip w /\
  download_batch_loop self dir extract delay cb total i (record_of t :: rest) results w
    = download_batch_loop self dir extract delay cb total (i + 1) rest
        (results ++ [fst (batch_item self dir extract cb i total t w)])
        (if (i <? total - 1) && positive_delay delay
         then emit (EvSleep delay) (snd (batch_item self dir extract cb i total t w))
         else snd (batch_item self dir extract cb i total t w)).
Proof.
  intros Hzip. cbn [download_batch_loop]. unfold batch_item.
  unfold record_of, getitem. cbn [dl_url dl_filename dl_size].
  fold (item_header i total (tr_filename t)).
  set (w0 := if show_progress self then emit _ w else w).
  assert (unpack_cannot_fail extract w0) as Hzip0
    by (unfold w0; destruct (show_progress self); exact Hzip).
  assert (is_zip w0 = is_zip w) as Hz0
    by (unfold w0; by destruct (show_progress self)).
  destruct (download_outcome self (tr_url t) (joinpath dir (tr_filename t)) (tr_size t)
              None extract false w0 Hzip0) as (w1 & Hz1 & [(p & Hrun)|(m & Hrun)]).
  - rewrite Hrun. cbn [fst snd].
    split; [destruct cb; simpl; congruence|].
    unfold bind at 1. unfold ret at 1. unfold bind at 1. unfold ret at 1.
    unfold bind at 1. unfold print. rewrite when_emit.
    match goal with
    | |- context [logged ?l w] =>
        assert (logged l w = w0) as ->
          by (unfold w0, item_header; destruct (show_progress self);
              [done|apply logged_nil])
    end.
    unfold bind at 1. unfold try_except. unfold bind at 1. rewrite Hrun.
    unfold bind at 1. rewrite when_emit. unfold ret at 1.
    unfold bind at 1. unfold sleep. rewrite when_emit.
    destruct cb, ((i <? total - 1) && positive_delay delay);
      rewrite ?logged_nil; reflexivity.
  - rewrite Hrun. cbn [fst snd].
    split; [destruct (show_progress self); simpl; congruence|].
    unfold bind at 1. unfold ret at 1. unfold bind at 1. unfold ret at 1.
    unfold bind at 1. unfold print at 1. rewrite when_emit.
    match goal with
    | |- context [logged ?l w] =>
        assert (logged l w = w0) as ->
          by (unfold w0, item_header; destruct (show_progress self);
              [done|apply logged_nil])
    end.
    unfold bind at 1. unfold try_except. unfold bind at 1. rewrite Hrun.
    unfold bind at 1. unfold print. rewrite when_emit. unfold ret at 1.
    unfold bind at 1. unfold sleep. rewrite when_emit.
    destruct (show_progress self), ((i <? total - 1) && positive_delay delay);
      rewrite ?logged_nil; reflexivity.
Qed.




(** ** C6: the batch *)


(** The batch of the design's example: three items, the second always
    refused.  The slots are a path, the absent marker, a path; the sleeps are
    the delay after the first item, the two back-offs of the second, and the
    delay after the second; none follows the third. *)
Example download_batch_sample :
  fst (download_batch sample_manager (map record_of sample_batch) sample_dir
         false (1 # 2) false (sample_world ∅ refuses_b))
    = Ok [Some (mkPath "/out" "a.zip"); None; Some (mkPath "/out" "c.zip")] /\
  sleeps (log (snd (download_batch sample_manager (map record_of sample_batch) sample_dir
                      false (1 # 2) false (sample_world ∅ refuses_b))))
    = [1 # 2; 1 * inject_Z 1; 1 * inject_Z 2; 1 # 2]%Q.
Proof. by vm_compute. Qed.



(** ** C10: what the batch does not catch *)

Lemma batch_loop_prefix self dir extract delay cb total rest : forall ts i results w,
  unpack_cannot_fail extract w ->
  exists results' w',
    is_zip w' = is_zip w /\
    download_batch_loop self dir extract delay cb total i (map record_of ts ++ rest)
      results w
    = download_batch_loop self dir extract delay cb total (i + Z.of_nat (length ts))
        rest results' w'.
Proof.
  induction ts as [|t ts IH]; intros i results w Hzip.
  - exists results, w. simpl. by rewrite Z.add_0_r.
  - cbn [map app].
    destruct (batch_loop_step self dir extract delay cb total i t
                (map record_of ts ++ rest) results w Hzip) as [Hz ->].
    set (w2 := if _ && _ then _ else _).
    assert (is_zip w2 = is_zip w) as Hz2
      by (unfold w2; destruct (_ && _); simpl; exact Hz).
    destruct (IH (i + 1) (results ++ [fst (batch_item self dir extract cb i total t w)]) w2)
      as (results' & w' & Hz' & ->).
    { destruct Hzip as [->|Hzip]; [by left|right]. intros b. rewrite Hz2. apply Hzip. }
    exists results', w'. split; [congruence|].
    f_equal. cbn [length]. lia.
Qed.

(** C10. [download_batch] catches [DownloadError] and nothing else: an
    exception of any other class raised by the transfer of an item leaves
    [download_batch] as it is.  A record without ['url'] or ['filename']
    raises [KeyError] for the first key missing; it propagates out of
    [download_batch], whatever the records before it produced, and no
    result list is returned. *)
Theorem malformed_record_aborts_batch self ts dl post output_dir extract delay cb w :
  (unpack_cannot_fail extract w ->
   dl_url dl = None \/ dl_filename dl = None ->
   exists w',
     download_batch self (map record_of ts ++ dl :: post) output_dir extract delay cb w
     = (Raise (KeyError (match dl_url dl with None => "url" | Some _ => "filename" end)),
        w')) /\
  (forall t e w1,
     let total := Z.of_nat (length (record_of t :: post)) in
     let w0 := emit (EvMkdir (str_path output_dir)) w in
     download self (tr_url t) (joinpath output_dir (tr_filename t)) (tr_size t) None
       extract false
       (if show_progress self
        then emit (EvPrint (item_header 0 total (tr_filename t))) w0 else w0)
     = (Raise e, w1) ->
     (forall m, e <> DownloadError m) ->
     download_batch self (record_of t :: post) output_dir extract delay cb w
     = (Raise e, w1)).
Proof.
  split.
  - intros Hzip Hmissing. unfold download_batch, bind, do.
    set (total := Z.of_nat (length (map record_of ts ++ dl :: post))).
    destruct (batch_loop_prefix self output_dir extract delay cb total (dl :: post)
                ts 0 [] (emit (EvMkdir (str_path output_dir)) w) Hzip)
      as (results' & w' & _ & ->).
    exists w'. cbn [download_batch_loop]. unfold getitem.
    destruct (dl_url dl) as [u|]; [|done].
    destruct Hmissing as [|Hf]; [done|]. rewrite Hf. done.
  - intros t e w1 total w0 Hrun Hne.
    unfold download_batch, bind at 1, do. fold w0. fold total.
    cbn [download_batch_loop]. unfold record_of, getitem.
    cbn [dl_url dl_filename dl_size].
    unfold bind at 1. unfold ret at 1. unfold bind at 1. unfold ret at 1.
    unfold bind at 1. unfold print at 1. rewrite when_emit.
    match goal with
    | |- context [logged ?l w0] =>
        assert (logged l w0
                = if show_progress self
                  then emit (EvPrint (item_header 0 total (tr_filename t))) w0 else w0)
          as -> by (unfold item_header; destruct (show_progress self);
                    [done|apply logged_nil])
    end.
    unfold bind at 1. unfold try_except. unfold bind at 1. rewrite Hrun.
    destruct e; try done. by destruct (Hne msg).
Qed.

Lemma malformed_record_aborts_batch_witness :
  exists w',
    download_batch sample_manager
      (map record_of sample_batch ++ [mkRecord (Some "https://example.com/d.zip") None None])
      sample_dir false (1 # 2) false (sample_world ∅ refuses_b)
    = (Raise (KeyError "filename"), w').
Proof.
  destruct (malformed_record_aborts_batch sample_manager sample_batch
              (mkRecord (Some "https://example.com/d.zip") None None) []
              sample_dir false (1 # 2) false (sample_world ∅ refuses_b))
    as [H _].
  apply H; [by left|by right].
Defined.

(** * Further properties of the download manager *)

(** ** Every way an attempt can end: the cases *)

Lemma attempt_ends self url out exp desc extract cb w :
  attempt_end self url out exp desc extract cb w
    (_download_with_progress self url out exp desc extract cb w).
Proof.
  destruct (server w (next_request url out w) (requests_made w)) as [msg|r] eqn:Hs.
  { rewrite attempt_eq. cbv zeta. rewrite Hs. by constructor. }
  destruct (decide (400 <= status_code r < 600)) as [Hst|Hst].
  - destruct (fs w !! temp_path_of out) as [b|] eqn:Hb.
    + destruct (Z.eq_dec (status_code r) 416) as [E|E].
      * rewrite attempt_eq. cbv zeta.
        rewrite Hs, E, Z.eqb_refl, Hb, bool_decide_eq_true_2 by eauto.
        simpl andb. cbv iota. by eapply end_promoted.
      * rewrite (attempt_transport_failure self url out exp desc extract cb w);
          rewrite Hs; simpl; [|by split].
        by apply end_status.
    + rewrite (attempt_transport_failure self url out exp desc extract cb w);
        rewrite Hs; simpl.
      * by apply end_status.
      * split; [done|]. intros _. rewrite Hb.
        apply bool_decide_eq_false_2. by intros [? ?].
  - destruct (open_fails w (temp_path_of out) (S (requests_made w))) as [msg|] eqn:Hopen.
    + rewrite (attempt_open_fails self url out exp desc extract cb w r msg Hs Hst Hopen).
      by eapply end_open.
    + rewrite (attempt_streams self url out exp desc extract cb w r Hs Hst Hopen).
      cbv zeta. destruct (stream_error r) as [msg|] eqn:Herr.
      { by eapply end_stream. }
      destruct (truthy exp) eqn:Ht; simpl andb.
      * destruct (Z.eqb_spec (bytes_after out r w) (default 0 exp)) as [E|E]; simpl negb;
          cbv iota.
        -- eapply end_complete; eauto.
        -- by eapply end_mismatch.
      * cbv iota. eapply end_complete; eauto.
Qed.

Ltac attempt_cases self url out exp desc extract cb w :=
  generalize (attempt_ends self url out exp desc extract cb w);
  generalize (_download_with_progress self url out exp desc extract cb w);
  let run := fresh "run" in
  let H := fresh "Hend" in
  intros run H; destruct H.

Lemma bar_only_progress self out exp desc resume r :
  Forall progress_only (bar_only self out exp desc resume r).
Proof.
  unfold bar_only. destruct (show_progress self && _); repeat constructor.
Qed.

Lemma attempt_events_of_progress evs : Forall progress_only evs -> Forall attempt_event evs.
Proof. intros H. eapply Forall_impl; [exact H|]. intros ev Hev. by left. Qed.

Lemma attempt_events_of_quiet evs : Forall quiet evs -> Forall attempt_event evs.
Proof. intros H. eapply Forall_impl; [exact H|]. intros ev Hev. by right. Qed.

(** What an attempt changes outside the files: one more request made, the
    surroundings as they were, and a log extended by the request followed
    by progress and post-processing events only. *)
Lemma attempt_frame self url out exp desc extract cb w :
  let w' := snd (_download_with_progress self url out exp desc extract cb w) in
  requests_made w' = S (requests_made w) /\
  server w' = server w /\ open_fails w' = open_fails w /\ is_zip w' = is_zip w /\
  exists evs, log w' = log w ++ EvRequest (next_request url out w) :: evs /\
              Forall attempt_event evs.
Proof.
  assert (forall w0 evs0,
            requests_made w0 = S (requests_made w) ->
            server w0 = server w -> open_fails w0 = open_fails w ->
            is_zip w0 = is_zip w ->
            log w0 = log w ++ EvRequest (next_request url out w) :: evs0 ->
            Forall attempt_event evs0 ->
            let w' := snd (_handle_extraction self out extract w0) in
            requests_made w' = S (requests_made w) /\
            server w' = server w /\ open_fails w' = open_fails w /\ is_zip w' = is_zip w /\
            exists evs, log w' = log w ++ EvRequest (next_request url out w) :: evs /\
                        Forall attempt_event evs) as Hpost.
  { intros w0 evs0 Hr Hs Ho Hz Hl Hf.
    destruct (handle_extraction_cases self out extract w0)
      as (res & evs & ms & -> & Hq & _).
    simpl. repeat split; try done.
    exists (evs0 ++ evs). split.
    - rewrite Hl. by rewrite <- app_assoc.
    - apply Forall_app. split; [done|]. by apply attempt_events_of_quiet. }
  attempt_cases self url out exp desc extract cb w.
  - simpl. repeat split. exists []. by split.
  - apply (Hpost _ []); by try constructor.
  - simpl. repeat split. exists []. by split.
  - simpl. repeat split. eexists. split.
    + unfold requested. simpl. rewrite <- app_assoc. reflexivity.
    + apply attempt_events_of_progress, bar_only_progress.
  - simpl. repeat split. eexists. split.
    + unfold requested. simpl. rewrite <- app_assoc. reflexivity.
    + apply attempt_events_of_progress, stream_events_progress.
  - simpl. repeat split. eexists. split.
    + unfold requested. simpl. rewrite <- app_assoc. reflexivity.
    + apply attempt_events_of_progress, stream_events_progress.
  - apply (Hpost _ (stream_events self out exp desc cb (resume_pos_of out w) r));
      try done.
    + unfold requested. simpl. by rewrite <- app_assoc.
    + apply attempt_events_of_progress, stream_events_progress.
Qed.

Lemma attempt_event_silent evs :
  Forall attempt_event evs -> sleeps evs = [] /\ requests_of evs = [].
Proof.
  induction 1 as [|ev evs Hev _ [IH1 IH2]]; [done|].
  change (ev :: evs) with ([ev] ++ evs).
  rewrite sleeps_app, requests_of_app, IH1, IH2.
  by destruct Hev as [Hev|Hev]; destruct ev.
Qed.

(** ** Requests and back-offs, in order *)






(** With three attempts that all fail: request, one second, request, two
    seconds, request. *)
Example download_schedule_sample :
  pacing (log (snd (download sample_manager sample_url sample_out None None false false
                      (sample_world ∅ (answers_status 503)))))
  = [inl (mkRequest sample_url None); inr (1 * inject_Z 1)%Q;
     inl (mkRequest sample_url None); inr (1 * inject_Z 2)%Q;
     inl (mkRequest sample_url None)].
Proof. by vm_compute. Qed.

(** ** The files a transfer touches *)

Lemma keeps_files_refl out w : keeps_files out w w.
Proof.
  repeat split; try done. exists []. by rewrite app_nil_r.
Qed.

Lemma keeps_files_trans out w1 w2 w3 :
  keeps_files out w1 w2 -> keeps_files out w2 w3 -> keeps_files out w1 w3.
Proof.
  intros (Ho1 & (m1 & Hp1) & Hs1 & Hq1) (Ho2 & (m2 & Hp2) & Hs2 & Hq2).
  repeat split.
  - congruence.
  - exists (m1 ++ m2). by rewrite Hp2, Hp1, app_assoc.
  - auto.
  - intros q H1 H2. by rewrite Hq2, Hq1.
Qed.

Lemma keeps_files_same_fs out w w' : fs w' = fs w -> keeps_files out w w'.
Proof.
  intros H. unfold keeps_files, partial_bytes. rewrite H.
  repeat split; try done. exists []. by rewrite app_nil_r.
Qed.

Lemma streamed_content_partial out r w :
  streamed_content out r w = partial_bytes out w ++ concat (chunks r).
Proof.
  unfold streamed_content, partial_bytes, resume_pos_of. f_equal.
  destruct (fs w !! temp_path_of out) as [b|]; simpl; [|done].
  destruct (Z.ltb_spec 0 (Z.of_nat (length b))); [done|].
  destruct b; [done|]. simpl in *. lia.
Qed.

Lemma keeps_files_streamed out r evs url w :
  keeps_files out w
    (logged evs (stored (temp_path_of out) (streamed_content out r w)
                   (requested url out w))).
Proof.
  unfold keeps_files, partial_bytes.
  rewrite !fs_logged, !fs_stored. change (fs (requested url out w)) with (fs w).
  pose proof (temp_path_neq out) as Hne.
  repeat split.
  - by rewrite lookup_insert_ne.
  - rewrite lookup_insert_eq. simpl. exists (concat (chunks r)).
    apply streamed_content_partial.
  - intros _. rewrite lookup_insert_eq. eauto.
  - intros q _ Hq. by rewrite lookup_insert_ne.
Qed.

Lemma delivered_promoted out w0 w b :
  fs w0 !! temp_path_of out = Some b ->
  (forall q, q <> out -> q <> temp_path_of out -> fs w0 !! q = fs w !! q) ->
  delivered out w (promoted out w0) /\ fs (promoted out w0) !! out = Some b.
Proof.
  intros Hb Hq. destruct (promoted_lookup out w0 b Hb) as (Ho & Ht & Hp).
  split; [|done]. split; [done|]. split.
  - rewrite Ho. eauto.
  - intros q H1 H2. rewrite Hp by done. by apply Hq.
Qed.

(** One attempt without extraction and the files: a returned path means
    the partial file was renamed onto the destination; a raised exception
    means the destination was not touched and the partial file lost
    nothing. *)
Lemma attempt_files self url out exp desc extract cb w :
  extract = false \/ ~ has_archive_suffix (name out) ->
  match _download_with_progress self url out exp desc extract cb w with
  | (Ok p, w') => delivered out w w' /\ p = out
  | (Raise e, w') => keeps_files out w w'
  end.
Proof.
  intros Hplain.
  assert (forall w0 b,
            fs w0 !! temp_path_of out = Some b ->
            (forall q, q <> out -> q <> temp_path_of out -> fs w0 !! q = fs w !! q) ->
            match _handle_extraction self out extract (promoted out w0) with
            | (Ok p, w') => delivered out w w' /\ p = out
            | (Raise e, w') => keeps_files out w w'
            end) as Hpost.
  { intros w0 b Hb Hq.
    destruct (delivered_promoted out w0 w b Hb Hq) as [Hd Ho].
    by rewrite handle_extraction_plain. }
  attempt_cases self url out exp desc extract cb w.
  - by apply keeps_files_same_fs.
  - by apply (Hpost _ b).
  - by apply keeps_files_same_fs.
  - by apply keeps_files_same_fs.
  - apply keeps_files_streamed.
  - apply keeps_files_streamed.
  - apply (Hpost _ (streamed_content out r w)).
    + rewrite fs_logged, fs_stored. apply lookup_insert_eq.
    + intros q _ Hq. rewrite fs_logged, fs_stored. by rewrite lookup_insert_ne.
Qed.

(** Without extraction, the result of the retry loop is the result of its
    last attempt, started from files that the failed attempts before it
    have kept, or it is the exhaustion of the retries. *)
Lemma download_attempts_last self url out exp desc extract cb :
  extract = false \/ ~ has_archive_suffix (name out) ->
  forall k j last w,
  let body := _download_with_progress self url out exp desc extract cb in
  let run := download_attempts self url body k j last w in
  (exists w0, keeps_files out w w0 /\ run = body w0 /\
              match fst run with
              | Ok _ => True
              | Raise e => caught_by_download e = false
              end) \/
  (keeps_files out w (snd run) /\
   exists last', fst run = Raise (retries_exhausted self url last')).
Proof.
  intros Hplain.
  induction k as [|k IH]; intros j last w body run.
  - right. split; [apply keeps_files_refl|]. by exists last.
  - subst run. rewrite download_attempts_step. fold body.
    pose proof (attempt_files self url out exp desc extract cb w Hplain) as Hfiles.
    fold body in Hfiles.
    destruct (body w) as [[p|e] w1] eqn:Hrun.
    + left. exists w. rewrite Hrun. split; [apply keeps_files_refl|]. by split.
    + destruct (caught_by_download e) eqn:Hc.
      2:{ left. exists w. rewrite Hrun. split; [apply keeps_files_refl|]. by split. }
      set (w2 := if j <? max_retries self - 1 then _ else _).
      assert (keeps_files out w w2) as Hk2.
      { eapply keeps_files_trans; [apply Hfiles|].
        apply keeps_files_same_fs. unfold w2. by destruct (_ <? _). }
      destruct (IH (j + 1) (Some e) w2) as [(w0 & Hk & Heq & Hres)|(Hk & Hlast)].
      * left. exists w0. split; [by eapply keeps_files_trans|]. by split.
      * right. split; [by eapply keeps_files_trans|done].
Qed.

(** A transfer without extraction and the files. *)
Lemma download_files self url out exp desc extract cb w :
  extract = false \/ ~ has_archive_suffix (name out) ->
  match download self url out exp desc extract cb w with
  | (Ok p, w') => delivered out w w' /\ p = out
  | (Raise e, w') => keeps_files out w w'
  end.
Proof.
  intros Hplain. rewrite download_eq.
  destruct (download_attempts_last self url out exp desc extract cb Hplain
              (Z.to_nat (max_retries self)) 0 None (emit (EvMkdir (parent out)) w))
    as [(w0 & Hk & Heq & _)|(Hk & last' & Hlast)].
  - pose proof (attempt_files self url out exp desc extract cb w0 Hplain) as Hfiles.
    rewrite <- Heq in Hfiles.
    destruct (download_attempts _ _ _ _ _ _ _) as [[p|e] w'].
    + destruct Hfiles as [(Ht & Ho & Hq) Hp].
      split; [|done]. repeat split; try done.
      intros q H1 H2. rewrite Hq by done.
      destruct Hk as (_ & _ & _ & Hq0). by apply Hq0.
    + eapply keeps_files_trans; [|eapply keeps_files_trans; [exact Hk|exact Hfiles]].
      by apply keeps_files_same_fs.
  - destruct (download_attempts _ _ _ _ _ _ _) as [[p|e] w']; [done|].
    eapply keeps_files_trans; [|exact Hk]. by apply keeps_files_same_fs.
Qed.








(** X3. When no extraction takes place -- it is not asked for, or the
    destination has no archive suffix -- and [download] raises, the
    destination is as it was before the call, a partial file that existed
    still exists and still starts with the bytes it had, and no other path
    was touched. *)
Theorem download_failure_keeps_files self url out exp desc extract cb w e w' :
  extract = false \/ ~ has_archive_suffix (name out) ->
  download self url out exp desc extract cb w = (Raise e, w') ->
  keeps_files out w w'.
Proof.
  intros Hplain Hrun.
  pose proof (download_files self url out exp desc extract cb w Hplain) as H.
  by rewrite Hrun in H.
Qed.

Lemma download_failure_keeps_files_witness :
  keeps_files sample_out
    (sample_world {[ temp_path_of sample_out := xs 3 ]} (serves 50))
    (snd (download sample_manager sample_url sample_out (Some 100) None false false
            (sample_world {[ temp_path_of sample_out := xs 3 ]} (serves 50)))).
Proof.
  eapply (download_failure_keeps_files sample_manager sample_url sample_out (Some 100)
            None false false
            (sample_world {[ temp_path_of sample_out := xs 3 ]} (serves 50))
            (DownloadError "Size mismatch: expected 100, got 53")).
  - by left.
  - by vm_compute.
Defined.

(** With extraction the same does not hold: an unpacking that the disk
    interrupts is retried by [download] as any other [IOError], after the
    rename, and the destination has been replaced although the transfer
    fails in the end. *)
Example extraction_failure_replaces_destination :
  fst (download sample_manager sample_url sample_out None None true false
         (archive_world {[ sample_out := xs 3 ]} (serves 10) true disk_full))
    = Raise (DownloadError
        "Failed to download https://example.com/test.zip after 3 attempts: No space left on device") /\
  fs (snd (download sample_manager sample_url sample_out None None true false
             (archive_world {[ sample_out := xs 3 ]} (serves 10) true disk_full)))
    !! sample_out = Some (xs 10) /\
  length (requests_of
            (log (snd (download sample_manager sample_url sample_out None None true false
                         (archive_world {[ sample_out := xs 3 ]} (serves 10) true
                            disk_full))))) = 3%nat.
Proof. by vm_compute. Qed.

(** ** Resuming *)

Lemma log_emit ev w : log (emit ev w) = log w ++ [ev].
Proof. reflexivity. Qed.

Lemma log_requested url out w :
  log (requested url out w) = log w ++ [EvRequest (next_request url out w)].
Proof. reflexivity. Qed.

Ltac logs :=
  repeat first [rewrite log_promoted | rewrite log_logged | rewrite log_stored
               | rewrite log_unpacked | rewrite log_requested | rewrite log_emit].

Lemma handle_extraction_off self p w : _handle_extraction self p false w = (Ok p, w).
Proof. reflexivity. Qed.

(** X4. When the first attempt streams a response to its end -- under any
    status that [raise_for_status] lets through, 200 as well as 206 -- and
    the size check passes, [download] returns the destination after that
    one request, and the destination holds the bytes that were in the
    partial file followed by the body.  The body is appended in both cases:
    for a 206 answer this completes the file, for a 200 answer to a ranged
    request it puts the whole body behind the old bytes. *)
Theorem download_appends_body self url out exp desc cb w r :
  1 <= max_retries self ->
  server w (next_request url out w) (requests_made w) = Responds r ->
  status_ok r ->
  open_fails w (temp_path_of out) (S (requests_made w)) = None ->
  stream_error r = None ->
  (truthy exp = false \/ bytes_after out r w = default 0 exp) ->
  exists w',
    download self url out exp desc false cb w = (Ok out, w') /\
    fs w' !! out = Some (partial_bytes out w ++ concat (chunks r)) /\
    fs w' !! temp_path_of out = None /\
    log w' = log w ++ EvMkdir (parent out) :: EvRequest (next_request url out w)
                   :: stream_events self out exp desc cb (resume_pos_of out w) r.
Proof.
  intros Hmax Hs Hok Hopen Herr Hsize. rewrite download_eq.
  destruct (Z.to_nat (max_retries self)) as [|k] eqn:Hk; [lia|].
  rewrite download_attempts_step.
  set (w0 := emit (EvMkdir (parent out)) w).
  rewrite (attempt_streams self url out exp desc false cb w0 r Hs Hok Hopen).
  cbv zeta. rewrite Herr.
  change (bytes_after out r w0) with (bytes_after out r w).
  assert (truthy exp && negb (bytes_after out r w =? default 0 exp) = false) as ->.
  { destruct Hsize as [-> | ->]; [done|]. by rewrite Z.eqb_refl, andb_false_r. }
  rewrite handle_extraction_off. eexists. split; [reflexivity|].
  change (streamed_content out r w0) with (streamed_content out r w).
  change (resume_pos_of out w0) with (resume_pos_of out w).
  set (w3 := logged _ _).
  assert (fs w3 !! temp_path_of out = Some (streamed_content out r w)) as Hb
    by (unfold w3; rewrite fs_logged, fs_stored; apply lookup_insert_eq).
  destruct (promoted_lookup out w3 _ Hb) as (Ho & Ht & _).
  rewrite Ho, streamed_content_partial. split; [done|]. split; [done|].
  rewrite log_promoted. unfold w3. rewrite log_logged, log_stored.
  unfold requested, w0. simpl. by rewrite <- !app_assoc.
Qed.

Lemma download_appends_body_witness :
  exists w',
    download sample_manager sample_url sample_out None None false false
      (sample_world {[ temp_path_of sample_out := xs 3 ]} (serves 5))
    = (Ok sample_out, w') /\
    fs w' !! sample_out = Some (xs 8).
Proof.
  destruct (download_appends_body sample_manager sample_url sample_out None None false
              (sample_world {[ temp_path_of sample_out := xs 3 ]} (serves 5))
              (mkResponse 200 (Some 5) [xs 5] None))
    as (w' & Hrun & Hout & _);
    [first [by vm_compute | unfold status_ok; simpl; lia | by left] ..|].
  exists w'. split; [exact Hrun|]. rewrite Hout. by vm_compute.
Defined.

(** X5. A stream that breaks is resumed by the next attempt.  Starting
    without a partial file, if the first response breaks after some chunks
    and the second request -- which carries the number of bytes received so
    far as its range offset -- is answered to the end, [download] returns
    the destination holding the chunks of the first response followed by
    those of the second, after exactly one back-off sleep of
    [retry_delay * 1]. *)
Theorem download_resumes_after_break self url out exp desc cb w r1 r2 msg :
  2 <= max_retries self ->
  fs w !! temp_path_of out = None ->
  let received := Z.of_nat (length (concat (chunks r1))) in
  server w (mkRequest url None) (requests_made w) = Responds r1 ->
  status_ok r1 ->
  stream_error r1 = Some msg ->
  open_fails w (temp_path_of out) (S (requests_made w)) = None ->
  server w (mkRequest url (Some received)) (S (requests_made w)) = Responds r2 ->
  status_ok r2 ->
  stream_error r2 = None ->
  open_fails w (temp_path_of out) (S (S (requests_made w))) = None ->
  (truthy exp = false \/
   received + Z.of_nat (length (concat (chunks r2))) = default 0 exp) ->
  exists w',
    download self url out exp desc false cb w = (Ok out, w') /\
    fs w' !! out = Some (concat (chunks r1) ++ concat (chunks r2)) /\
    fs w' !! temp_path_of out = None /\
    requests_of (log w')
      = requests_of (log w) ++ [mkRequest url None; mkRequest url (Some received)] /\
    sleeps (log w') = sleeps (log w) ++ [(retry_delay self * inject_Z 1)%Q].
Proof.
  intros Hmax Hnone received Hs1 Hok1 Herr1 Hopen1 Hs2 Hok2 Herr2 Hopen2 Hsize.
  rewrite download_eq.
  destruct (Z.to_nat (max_retries self)) as [|[|k]] eqn:Hk; [lia|lia|].
  set (w0 := emit (EvMkdir (parent out)) w).
  assert (next_request url out w0 = mkRequest url None) as Hrq0
    by (unfold next_request; simpl; by rewrite Hnone).
  assert (partial_bytes out w0 = []) as Hp0
    by (unfold partial_bytes; simpl; by rewrite Hnone).
  rewrite download_attempts_step.
  rewrite (attempt_streams self url out exp desc false cb w0 r1);
    [|by rewrite Hrq0|done|done].
  cbv zeta. rewrite Herr1. simpl caught_by_download. cbv iota.
  destruct (Z.ltb_spec 0 (max_retries self - 1)) as [_|]; [|lia].
  set (w3 := emit _ (logged _ _)).
  assert (fs w3 !! temp_path_of out = Some (concat (chunks r1))) as Hb3.
  { unfold w3. rewrite fs_emit, fs_logged, fs_stored, lookup_insert_eq.
    by rewrite streamed_content_partial, Hp0. }
  assert (next_request url out w3 = mkRequest url (Some received)) as Hrq3
    by (unfold next_request; by rewrite Hb3).
  assert (partial_bytes out w3 = concat (chunks r1)) as Hp3
    by (unfold partial_bytes; by rewrite Hb3).
  assert (bytes_after out r2 w3 = received + Z.of_nat (length (concat (chunks r2))))
    as Hba by (unfold bytes_after, resume_pos_of; by rewrite Hb3).
  rewrite download_attempts_step.
  rewrite (attempt_streams self url out exp desc false cb w3 r2);
    [|by rewrite Hrq3|done|done].
  cbv zeta. rewrite Herr2, Hba.
  assert (truthy exp
          && negb (received + Z.of_nat (length (concat (chunks r2))) =? default 0 exp)
          = false) as ->.
  { destruct Hsize as [-> | ->]; [done|]. by rewrite Z.eqb_refl, andb_false_r. }
  rewrite handle_extraction_off. eexists. split; [reflexivity|].
  set (w5 := logged _ (stored _ _ (requested url out w3))).
  assert (fs w5 !! temp_path_of out = Some (streamed_content out r2 w3)) as Hb5
    by (unfold w5; rewrite fs_logged, fs_stored; apply lookup_insert_eq).
  destruct (promoted_lookup out w5 _ Hb5) as (Ho & Ht & _).
  rewrite Ho, streamed_content_partial, Hp3. split; [done|]. split; [done|].
  unfold w5. logs. rewrite Hrq3. unfold w3. logs. rewrite Hrq0. unfold w0. logs.
  repeat match goal with
  | |- context [stream_events ?a ?b ?c ?d ?e ?f ?g] =>
      let H := fresh "Hsilent" in
      pose proof (attempt_event_silent _
                    (attempt_events_of_progress _
                       (proj1 (stream_events_progress a b c d e f g)))) as H;
      generalize dependent (stream_events a b c d e f g); intros
  end.
  rewrite !requests_of_app, !sleeps_app.
  repeat match goal with H : sleeps _ = [] /\ requests_of _ = [] |- _ =>
    destruct H as [-> ->] end.
  simpl. by rewrite <- !app_assoc, !app_nil_r.
Qed.

Lemma download_resumes_after_break_witness :
  exists w',
    download sample_manager sample_url sample_out (Some 10) None false false
      (sample_world ∅ breaks_once)
    = (Ok sample_out, w') /\
    fs w' !! sample_out = Some (xs 10) /\
    requests_of (log w') = [mkRequest sample_url None; mkRequest sample_url (Some 4)].
Proof.
  destruct (download_resumes_after_break sample_manager sample_url sample_out (Some 10)
              None false (sample_world ∅ breaks_once)
              (mkResponse 200 (Some 10) [xs 4] (Some "Connection broken"))
              (mkResponse 206 (Some 6) [xs 6] None) "Connection broken")
    as (w' & Hrun & Hout & _ & Hreq & _);
    [first [by vm_compute | unfold status_ok; simpl; lia | by right] ..|].
  exists w'. split; [exact Hrun|]. split; [exact Hout|exact Hreq].
Defined.

(** ** Edges of the retry loop *)

(** X6. With [max_retries] zero or negative, [download] creates the parent
    directory, sends no request at all and raises the [DownloadError] of
    exhausted retries, whose last error reads [None]. *)
Theorem download_without_attempts self url out exp desc extract cb w :
  max_retries self <= 0 ->
  download self url out exp desc extract cb w
    = (Raise (DownloadError ("Failed to download " +:+ url +:+ " after "
                             +:+ pretty (max_retries self) +:+ " attempts: None")),
       emit (EvMkdir (parent out)) w).
Proof.
  intros Hmax. rewrite download_eq.
  by replace (Z.to_nat (max_retries self)) with 0%nat by lia.
Qed.

Lemma download_without_attempts_witness :
  requests_of (log (snd (download (mkManager 8192 30 0 1 false) sample_url sample_out
                           None None false false (sample_world ∅ (serves 10)))))
    = [].
Proof.
  rewrite (download_without_attempts (mkManager 8192 30 0 1 false) sample_url sample_out
             None None false false (sample_world ∅ (serves 10)));
    [reflexivity|by vm_compute].
Defined.

(** X7. An archive that [zipfile] rejects is not downloaded again: when the
    first attempt streams the response to its end and extraction is asked
    for, [download] raises [BadZipFile] after that single request, without
    sleeping; the file has already been renamed to the destination and the
    partial file is gone. *)
Theorem download_bad_zip_not_retried self url out exp desc cb w r :
  1 <= max_retries self ->
  lower (suffix out) = ".zip" ->
  server w (next_request url out w) (requests_made w) = Responds r ->
  status_ok r ->
  open_fails w (temp_path_of out) (S (requests_made w)) = None ->
  stream_error r = None ->
  (truthy exp = false \/ bytes_after out r w = default 0 exp) ->
  is_zip w (partial_bytes out w ++ concat (chunks r)) = false ->
  exists m w',
    download self url out exp desc true cb w = (Raise (BadZipFile m), w') /\
    fs w' !! out = Some (partial_bytes out w ++ concat (chunks r)) /\
    fs w' !! temp_path_of out = None /\
    requests_made w' = S (requests_made w) /\
    sleeps (log w') = sleeps (log w).
Proof.
  intros Hmax Hzipname Hs Hok Hopen Herr Hsize Hbad. rewrite download_eq.
  destruct (Z.to_nat (max_retries self)) as [|k] eqn:Hk; [lia|].
  rewrite download_attempts_step.
  set (w0 := emit (EvMkdir (parent out)) w).
  rewrite (attempt_streams self url out exp desc true cb w0 r Hs Hok Hopen).
  cbv zeta. rewrite Herr.
  change (bytes_after out r w0) with (bytes_after out r w).
  assert (truthy exp && negb (bytes_after out r w =? default 0 exp) = false) as ->.
  { destruct Hsize as [-> | ->]; [done|]. by rewrite Z.eqb_refl, andb_false_r. }
  change (streamed_content out r w0) with (streamed_content out r w).
  set (w3 := logged _ _).
  assert (fs w3 !! temp_path_of out = Some (streamed_content out r w)) as Hb
    by (unfold w3; rewrite fs_logged, fs_stored; apply lookup_insert_eq).
  destruct (promoted_lookup out w3 _ Hb) as (Ho & Ht & _).
  rewrite streamed_content_partial in Ho.
  pose proof (handle_extraction_cases self out true (promoted out w3))
    as (res & evs & ms & Heq & Hq & Hcase).
  rewrite Heq.
  destruct Hcase as [(_ & _ & _ & [|Hno])|(_ & _ & [(b & Hb' & Hz & _)|[(m & _ & Hn & _)|(m & b & -> & _ & _ & ->)]])];
    try done; try congruence.
  { rewrite Ho in Hb'. injection Hb' as <-.
    change (is_zip (promoted out w3)) with (is_zip w) in Hz. congruence. }
  rewrite unpacked_nil.
  exists m. eexists. simpl caught_by_download. cbv iota.
  split; [reflexivity|]. rewrite !fs_logged.
  split; [done|]. split; [done|]. split; [done|].
  destruct (attempt_event_silent evs (attempt_events_of_quiet evs Hq)) as [Hsl _].
  pose proof (attempt_event_silent _
                (attempt_events_of_progress _
                   (proj1 (stream_events_progress self out exp desc cb
                             (resume_pos_of out w0) r)))) as [Hsl' _].
  unfold w3, w0. logs. rewrite !sleeps_app, Hsl. unfold w0 in Hsl'. rewrite Hsl'.
  simpl. by rewrite !app_nil_r.
Qed.

Lemma download_bad_zip_not_retried_witness :
  exists m w',
    download sample_manager sample_url sample_out None None true false
      (mkWorld ∅ (serves 10) (fun _ _ => None) (fun _ => false) no_members 0 [])
    = (Raise (BadZipFile m), w') /\
    fs w' !! sample_out = Some (xs 10).
Proof.
  destruct (download_bad_zip_not_retried sample_manager sample_url sample_out None None
              false (mkWorld ∅ (serves 10) (fun _ _ => None) (fun _ => false) no_members 0 [])
              (mkResponse 200 (Some 10) [xs 10] None))
    as (m & w' & Hrun & Hout & _);
    [first [by vm_compute | unfold status_ok; simpl; lia | by left] ..|].
  exists m, w'. split; [exact Hrun|]. rewrite Hout. by vm_compute.
Defined.

(** ** The progress callback *)

Lemma reported_bytes_app a b : reported_bytes (a ++ b) = reported_bytes a ++ reported_bytes b.
Proof. unfold reported_bytes. apply omap_app. Qed.

Lemma reported_bytes_silent evs :
  Forall (fun ev => forall b t, ev <> EvOnProgress b t) evs -> reported_bytes evs = [].
Proof.
  induction 1 as [|ev evs Hev _ IH]; [done|].
  change (ev :: evs) with ([ev] ++ evs). rewrite reported_bytes_app, IH.
  destruct ev; try done. by destruct (Hev bytes_downloaded total_size).
Qed.

(** The counts reported for a list of chunks, starting from [b] bytes. *)
Lemma chunk_reports pb total cs : forall b,
  let reports := reported_bytes (chunk_events pb true total cs b) in
  length reports = length (List.filter (fun c : bytes => (0 <? length c)%nat) cs) /\
  Forall (fun x => b < x <= b + Z.of_nat (length (concat cs))) reports /\
  (forall i x y, reports !! i = Some x -> reports !! S i = Some y -> x < y) /\
  (reports <> [] -> last reports = Some (b + Z.of_nat (length (concat cs)))) /\
  (reports = [] -> concat cs = []).
Proof.
  induction cs as [|chunk rest IH]; intros b.
  - simpl. repeat split; done.
  - destruct chunk as [|x chunk]; [apply IH|].
    cbn [chunk_events]. set (n := Z.of_nat (length (x :: chunk))).
    assert (0 < n) as Hn by (unfold n; simpl; lia).
    destruct (IH (b + n)) as (Hlen & Hall & Hinc & Hlast & Hnil).
    cbv zeta. rewrite !reported_bytes_app.
    assert (reported_bytes (if pb then [EvBarUpdate n] else []) = []) as ->
      by (by destruct pb).
    change (reported_bytes [EvOnProgress (b + n) total]) with [b + n].
    cbn [app].
    set (reports := reported_bytes _) in *.
    assert (Z.of_nat (length (concat ((x :: chunk) :: rest)))
            = n + Z.of_nat (length (concat rest))) as Htot
      by (rewrite concat_cons, length_app; unfold n; lia).
    rewrite Htot. split; [|split; [|split; [|split]]].
    + simpl. by rewrite Hlen.
    + constructor; [lia|]. eapply Forall_impl; [exact Hall|].
      intros y Hy. simpl in Hy. lia.
    + intros [|i] a c Ha Hc; simpl in Ha, Hc.
      * injection Ha as <-.
        assert (b + n < c <= b + n + Z.of_nat (length (concat rest))) as Hc'
          by (eapply (proj1 (Forall_lookup _ _) Hall); exact Hc).
        lia.
      * by eapply Hinc.
    + intros _. destruct reports as [|r0 reports'] eqn:Hrep.
      * rewrite (Hnil eq_refl). simpl. f_equal; lia.
      * rewrite last_cons. rewrite Hlast by done. f_equal; lia.
    + discriminate.
Qed.

(** X8. During an attempt that reaches the stream, the progress callback
    is called once for every non-empty chunk and never for an empty one;
    the counts it is given start above the resume offset, increase strictly,
    and the last one is the number of bytes the file holds when the stream
    ends. *)
Theorem progress_reports_cumulative self url out exp desc extract w r :
  server w (next_request url out w) (requests_made w) = Responds r ->
  status_ok r ->
  open_fails w (temp_path_of out) (S (requests_made w)) = None ->
  exists evs,
    log (snd (_download_with_progress self url out exp desc extract true w))
      = log w ++ evs /\
    let reports := reported_bytes evs in
    length reports
      = length (List.filter (fun c : bytes => (0 <? length c)%nat) (chunks r)) /\
    Forall (fun x => resume_pos_of out w < x) reports /\
    (forall i x y, reports !! i = Some x -> reports !! S i = Some y -> x < y) /\
    (reports <> [] ->
     last reports = Some (Z.of_nat (length (partial_bytes out w ++ concat (chunks r))))).
Proof.
  intros Hs Hok Hopen.
  assert (exists post,
            log (snd (_download_with_progress self url out exp desc extract true w))
            = log w ++ EvRequest (next_request url out w)
                :: stream_events self out exp desc true (resume_pos_of out w) r ++ post /\
            Forall quiet post) as (post & Hlog & Hpost).
  { rewrite (attempt_streams self url out exp desc extract true w r Hs Hok Hopen).
    cbv zeta. set (w3 := logged _ _).
    assert (log w3 = log w ++ EvRequest (next_request url out w)
                       :: stream_events self out exp desc true (resume_pos_of out w) r)
      as Hl3 by (unfold w3; logs; by rewrite <- app_assoc).
    destruct (stream_error r).
    { exists []. by rewrite app_nil_r. }
    destruct (truthy exp && _).
    { exists []. by rewrite app_nil_r. }
    pose proof (handle_extraction_cases self out extract (promoted out w3))
      as (res & evs & ms & Heq & Hq & _).
    rewrite Heq. exists evs. split; [|done].
    simpl snd. logs. rewrite Hl3. by rewrite <- app_assoc. }
  eexists. split; [exact Hlog|].
  cbv zeta.
  change (EvRequest ?q :: ?l) with ([EvRequest q] ++ l).
  rewrite !reported_bytes_app.
  rewrite (reported_bytes_silent post)
    by (eapply Forall_impl; [exact Hpost|]; by intros []).
  change (reported_bytes [EvRequest (next_request url out w)]) with (@nil Z).
  rewrite app_nil_l, app_nil_r.
  unfold stream_events. rewrite !reported_bytes_app.
  match goal with
  | |- context [reported_bytes (if ?c then [EvBarOpen ?a ?b ?d] else [])] =>
      assert (reported_bytes (if c then [EvBarOpen a b d] else []) = []) as ->
        by (by destruct c);
      assert (reported_bytes (if c then [EvBarClose] else []) = []) as ->
        by (by destruct c)
  end.
  rewrite app_nil_l, app_nil_r.
  match goal with
  | |- context [chunk_events ?pb true ?total (chunks r) ?b] =>
      destruct (chunk_reports pb total (chunks r) b) as (Hlen & Hall & Hinc & Hlast & _)
  end.
  split; [done|]. split.
  { eapply Forall_impl; [exact Hall|]. intros x Hx. simpl in Hx. lia. }
  split; [done|].
  intros Hne. rewrite (Hlast Hne). f_equal.
  rewrite <- streamed_content_partial, length_streamed_content. reflexivity.
Qed.

Lemma progress_reports_cumulative_witness :
  reported_bytes
    (log (snd (_download_with_progress sample_manager sample_url sample_out None None
                 false true
                 (sample_world {[ temp_path_of sample_out := xs 3 ]}
                    (fun _ _ => Responds (mkResponse 206 None [xs 2; []; xs 5] None))))))
  = [5; 10].
Proof.
  destruct (progress_reports_cumulative sample_manager sample_url sample_out None None
              false
              (sample_world {[ temp_path_of sample_out := xs 3 ]}
                 (fun _ _ => Responds (mkResponse 206 None [xs 2; []; xs 5] None)))
              (mkResponse 206 None [xs 2; []; xs 5] None))
    as (evs & Hlog & _);
    [first [by vm_compute | unfold status_ok; simpl; lia] ..|].
  by vm_compute.
Defined.

(** ** The partial file's path *)

Lemma append_inj_l (a b c : string) : a +:+ c = b +:+ c -> a = b.
Proof.
  revert b. induction a as [|x a IH]; intros [|y b] H.
  - done.
  - exfalso. apply (f_equal String.length) in H.
    rewrite app_nil, app_cons in H. simpl in H. rewrite length_append in H. lia.
  - exfalso. apply (f_equal String.length) in H.
    rewrite app_nil, app_cons in H. simpl in H. rewrite length_append in H. lia.
  - rewrite !app_cons in H. injection H as -> H. f_equal. by apply IH.
Qed.

(** X9. Whatever the suffix of a destination with a name (none, one,
    several), the partial file is the destination's name with [.part]
    appended, in the same directory; it is never the destination itself,
    and two different destinations never share a partial file. *)
Theorem partial_path_appends_part p q :
  name p <> "" -> name q <> "" ->
  temp_path_of p = mkPath (parent p) (name p +:+ ".part") /\
  temp_path_of p <> p /\
  (temp_path_of p = temp_path_of q -> p = q).
Proof.
  intros _ _.
  split; [apply temp_path_of_eq|]. split; [apply temp_path_neq|].
  rewrite !temp_path_of_eq. destruct p as [d n], q as [d' n']. simpl.
  intros [= -> H]. f_equal. by apply append_inj_l in H.
Qed.

Lemma partial_path_appends_part_witness :
  temp_path_of sample_out = mkPath "/downloads" "test.zip.part" /\
  temp_path_of sample_out <> sample_out /\
  (temp_path_of sample_out = temp_path_of (mkPath "/downloads" "test.tar.gz") ->
   sample_out = mkPath "/downloads" "test.tar.gz").
Proof.
  assert (name sample_out <> "") as Hp by discriminate.
  assert (name (mkPath "/downloads" "test.tar.gz") <> "") as Hq by discriminate.
  exact (partial_path_appends_part sample_out (mkPath "/downloads" "test.tar.gz") Hp Hq).
Defined.

(** ** The completion callback *)

Lemma completions_app a b : completions (a ++ b) = completions a ++ completions b.
Proof. unfold completions. apply omap_app. Qed.

Lemma attempt_event_no_completion evs : Forall attempt_event evs -> completions evs = [].
Proof.
  induction 1 as [|ev evs Hev _ IH]; [done|].
  change (ev :: evs) with ([ev] ++ evs). rewrite completions_app, IH.
  by destruct Hev as [Hev|Hev]; destruct ev.
Qed.

Lemma download_attempts_no_completion self url out exp desc extract cb :
  forall k j last w,
    completions (log (snd (download_attempts self url
                             (_download_with_progress self url out exp desc extract cb)
                             k j last w)))
    = completions (log w).
Proof.
  induction k as [|k IH]; intros j last w; [done|].
  rewrite download_attempts_step.
  destruct (attempt_frame self url out exp desc extract cb w)
    as (_ & _ & _ & _ & evs & Hlog & Hev).
  assert (completions (log (snd (_download_with_progress self url out exp desc extract
                                   cb w))) = completions (log w)) as Hsame.
  { rewrite Hlog, completions_app.
    change (EvRequest ?q :: evs) with ([EvRequest q] ++ evs).
    rewrite completions_app, (attempt_event_no_completion evs Hev). simpl.
    by rewrite app_nil_r. }
  destruct (_download_with_progress self url out exp desc extract cb w)
    as [[p|e] w1]; simpl in Hsame; [done|].
  destruct (caught_by_download e); [|done].
  rewrite IH. destruct (j <? max_retries self - 1); [|done].
  simpl log. rewrite completions_app, Hsame. simpl. by rewrite app_nil_r.
Qed.

Lemma download_no_completion self url out exp desc extract cb w :
  completions (log (snd (download self url out exp desc extract cb w)))
  = completions (log w).
Proof.
  rewrite download_eq, download_attempts_no_completion. simpl.
  rewrite completions_app. simpl. by rewrite app_nil_r.
Qed.

Lemma batch_item_completions self dir extract cb i total t w :
  completions (log (snd (batch_item self dir extract cb i total t w)))
  = completions (log w)
    ++ (if cb then notices [t] [fst (batch_item self dir extract cb i total t w)] else []).
Proof.
  unfold batch_item.
  set (w0 := if show_progress self then _ else w).
  assert (completions (log w0) = completions (log w)) as H0.
  { unfold w0. destruct (show_progress self); [|done].
    simpl. rewrite completions_app. simpl. by rewrite app_nil_r. }
  pose proof (download_no_completion self (tr_url t) (joinpath dir (tr_filename t))
                (tr_size t) None extract false w0) as Hd.
  destruct (download _ _ _ _ _ _ _ w0) as [[p|e] w1]; simpl in Hd; cbn [fst snd].
  - destruct cb; simpl.
    + rewrite completions_app, Hd, H0. reflexivity.
    + by rewrite Hd, H0, app_nil_r.
  - assert (completions (log (if show_progress self
                              then emit (EvPrint ("  Error: " +:+ str_exn e)) w1
                              else w1)) = completions (log w)) as ->.
    { destruct (show_progress self); simpl; rewrite ?completions_app, Hd, H0; [|done].
      simpl. by rewrite app_nil_r. }
    destruct cb; by rewrite app_nil_r.
Qed.

Lemma notices_cons t slot ts slots :
  notices (t :: ts) (slot :: slots) = notices [t] [slot] ++ notices ts slots.
Proof. unfold notices. simpl. by destruct slot. Qed.

Lemma batch_loop_notices self dir extract delay cb total : forall ts i results w,
  unpack_cannot_fail extract w ->
  exists slots w',
    download_batch_loop self dir extract delay cb total i (map record_of ts) results w
      = (Ok (results ++ slots), w') /\
    length slots = length ts /\
    completions (log w')
      = completions (log w) ++ (if cb then notices ts slots else []).
Proof.
  induction ts as [|t ts IH]; intros i results w Hzip.
  - exists [], w. simpl. unfold ret. split; [by rewrite app_nil_r|]. split; [done|].
    destruct cb; simpl; by rewrite app_nil_r.
  - cbn [map].
    destruct (batch_loop_step self dir extract delay cb total i t (map record_of ts)
                results w Hzip) as [Hz ->].
    pose proof (batch_item_completions self dir extract cb i total t w) as Hc.
    destruct (batch_item self dir extract cb i total t w) as [slot w1].
    cbn [fst snd] in *.
    set (w2 := if _ && _ then _ else _).
    assert (completions (log w2) = completions (log w1) /\ is_zip w2 = is_zip w1)
      as [Hc2 Hz2].
    { unfold w2. destruct (_ && _); [|done]. simpl.
      rewrite completions_app. simpl. by rewrite app_nil_r. }
    destruct (IH (i + 1) (results ++ [slot]) w2) as (slots & w' & Hrun & Hlen & Hcomp).
    { destruct Hzip as [->|Hzip]; [by left|right]. intros b.
      rewrite Hz2, Hz. apply Hzip. }
    exists (slot :: slots), w'. rewrite Hrun. split.
    { by rewrite <- app_assoc. }
    split; [simpl; by rewrite Hlen|].
    rewrite Hcomp, Hc2, Hc, (notices_cons t slot ts slots).
    destruct cb; by rewrite <- ?app_assoc, ?app_nil_r.
Qed.

(** X10. Whatever the delay, a batch of records that carry a URL and a
    file name, with no unpacking that can fail, returns one slot per
    record, and the completion callback is notified exactly once for every
    item that produced a path -- with that item's file name and that path,
    in input order -- and never for an item that failed. *)
Theorem download_batch_notifies self ts output_dir extract delay cb w :
  unpack_cannot_fail extract w ->
  exists slots w',
    download_batch self (map record_of ts) output_dir extract delay cb w
      = (Ok slots, w') /\
    length slots = length ts /\
    completions (log w')
      = completions (log w) ++ (if cb then notices ts slots else []).
Proof.
  intros Hzip. unfold download_batch, bind, do.
  destruct (batch_loop_notices self output_dir extract delay cb
              (Z.of_nat (length (map record_of ts))) ts 0 []
              (emit (EvMkdir (str_path output_dir)) w) Hzip)
    as (slots & w' & Hrun & Hlen & Hc).
  exists slots, w'. rewrite Hrun. repeat split; try done.
  rewrite Hc. simpl. rewrite completions_app. simpl. by rewrite app_nil_r.
Qed.

Lemma download_batch_notifies_witness :
  completions
    (log (snd (download_batch sample_manager (map record_of sample_batch) sample_dir
                 false 0 true (sample_world ∅ refuses_b))))
  = [("a.zip", mkPath "/out" "a.zip"); ("c.zip", mkPath "/out" "c.zip")].
Proof.
  assert (unpack_cannot_fail false (sample_world ∅ refuses_b)) as Hz by (by left).
  destruct (download_batch_notifies sample_manager sample_batch sample_dir false 0 true
              (sample_world ∅ refuses_b) Hz) as (slots & w' & Hrun & _ & Hc).
  rewrite Hrun. simpl snd. rewrite Hc.
  assert (slots = [Some (mkPath "/out" "a.zip"); None; Some (mkPath "/out" "c.zip")])
    as ->.
  { apply (f_equal fst) in Hrun. simpl in Hrun.
    assert (Ok slots
            = Ok [Some (mkPath "/out" "a.zip"); None; Some (mkPath "/out" "c.zip")])
      as [= ->]; [|done].
    rewrite <- Hrun. by vm_compute. }
  reflexivity.
Defined.

(** ** A delay that is not positive *)

Lemma batch_loop_delay_irrelevant self dir extract d1 d2 cb total :
  positive_delay d1 = false -> positive_delay d2 = false ->
  forall dls i results w,
    download_batch_loop self dir extract d1 cb total i dls results w
    = download_batch_loop self dir extract d2 cb total i dls results w.
Proof.
  intros H1 H2. induction dls as [|dl rest IH]; intros i results w; [done|].
  cbn [download_batch_loop]. unfold bind.
  destruct (getitem "url" (dl_url dl) w) as [[u|e] w1]; [|done].
  destruct (getitem "filename" (dl_filename dl) w1) as [[f|e] w2]; [|done].
  destruct (when (show_progress self) _ w2) as [[[]|e] w3]; [|done].
  destruct (try_except _ _ w3) as [[rs|e] w4]; [|done].
  rewrite H1, H2, !andb_false_r. simpl. apply IH.
Qed.

(** X11. [download_batch] hands a delay to [time.sleep] only when it is
    positive: with a delay of zero or below, the batch runs without any
    pause between its items, in the same way for every such delay. *)
Theorem download_batch_nonpositive_delay self dls output_dir extract d1 d2 cb w :
  positive_delay d1 = false -> positive_delay d2 = false ->
  download_batch self dls output_dir extract d1 cb w
  = download_batch self dls output_dir extract d2 cb w.
Proof.
  intros H1 H2. unfold download_batch, bind, do.
  by apply batch_loop_delay_irrelevant.
Qed.

Lemma download_batch_nonpositive_delay_witness :
  sleeps (log (snd (download_batch sample_manager
                      (map record_of [mkTransfer "https://example.com/a.zip" "a.zip" None;
                                      mkTransfer "https://example.com/c.zip" "c.zip" None])
                      sample_dir false (-(1 # 2)) false (sample_world ∅ refuses_b))))
  = [].
Proof.
  rewrite (download_batch_nonpositive_delay sample_manager _ sample_dir false
             (-(1 # 2)) 0 false (sample_world ∅ refuses_b)); [|reflexivity..].
  by vm_compute.
Defined.

(** * Searches (src/pyvmr/filters.py) *)

(** ** Substrings *)

Lemma is_empty_spec s : is_empty s = true <-> s = "".
Proof. destruct s; simpl; split; congruence. Qed.

Lemma is_empty_lower s : is_empty (lower s) = is_empty s.
Proof. by destruct s. Qed.

Lemma prefix_spec p : forall s, String.prefix p s = true <-> exists b, s = p +:+ b.
Proof.
  induction p as [|c p IH]; intros s.
  - simpl. split; [intros _; exists s; by rewrite app_nil|intros _; by destruct s].
  - destruct s as [|d s]; simpl.
    + split; [done|]. intros [b H]. rewrite app_cons in H. discriminate.
    + destruct (ascii_dec c d) as [->|Hne].
      * rewrite IH. split; intros [b H]; exists b.
        -- by rewrite app_cons, H.
        -- rewrite app_cons in H. by injection H.
      * split; [done|]. intros [b H]. rewrite app_cons in H. congruence.
Qed.

Lemma contains_spec p : forall s,
  contains s p = true <-> exists a b, s = a +:+ p +:+ b.
Proof.
  induction s as [|c s IH].
  - cbn [contains]. rewrite orb_false_r, prefix_spec. split.
    + intros [b H]. by exists "", b.
    + intros (a & b & H). destruct a; [by exists b|].
      rewrite app_cons in H. discriminate.
  - cbn [contains]. rewrite orb_true_iff, IH, prefix_spec. split.
    + intros [[b H]|(a & b & H)].
      * by exists "", b.
      * exists (String c a), b. by rewrite app_cons, H.
    + intros (a & b & H). destruct a as [|d a].
      * left. by exists b.
      * right. rewrite app_cons in H. injection H as _ H. by exists a, b.
Qed.

Lemma contains_refl s : contains s s = true.
Proof. apply contains_spec. exists "", "". by rewrite app_nil, append_empty_r. Qed.

(** ** One pass *)

Lemma narrow_filter {A C : Type} (criterion : option C) (test : A -> C -> bool) l :
  narrow criterion test l = List.filter (fun x => passes criterion (test x)) l.
Proof.
  destruct criterion; simpl; [done|]. induction l; simpl; congruence.
Qed.

Lemma filter_fuse {A : Type} (f g : A -> bool) l :
  List.filter g (List.filter f l) = List.filter (fun x => f x && g x) l.
Proof.
  induction l as [|x l IH]; simpl; [done|].
  destruct (f x); simpl; [destruct (g x)|]; congruence.
Qed.

Lemma filter_sublist {A : Type} (f : A -> bool) l : sublist (List.filter f l) l.
Proof.
  induction l as [|x l IH]; simpl; [constructor|].
  destruct (f x); by constructor.
Qed.

Lemma filter_none {A : Type} (f : A -> bool) l :
  (forall x, f x = false) -> List.filter f l = [].
Proof.
  intros H. induction l as [|x l IH]; simpl; [done|]. by rewrite H.
Qed.

Lemma filter_models_filter models c :
  filter_models models c = List.filter (accepts_model c) models.
Proof.
  unfold filter_models. cbv zeta. rewrite !narrow_filter, !filter_fuse.
  apply filter_ext. intros m. unfold accepts_model. by rewrite !andb_assoc.
Qed.

Lemma filter_simulations_filter sims c :
  filter_simulations sims c = List.filter (accepts_simulation c) sims.
Proof.
  unfold filter_simulations. cbv zeta. rewrite !narrow_filter, !filter_fuse.
  apply filter_ext. intros m. unfold accepts_simulation. by rewrite !andb_assoc.
Qed.

(** X12. [filter_models] narrows the list once per criterion given; the
    outcome is the single pass that keeps the models meeting all of them:
    a sub-list of the input in the input's order, holding exactly the
    models that meet every criterion. *)
Theorem filter_models_single_pass models c :
  filter_models models c = List.filter (accepts_model c) models /\
  sublist (filter_models models c) models /\
  (forall m, m ∈ filter_models models c <-> m ∈ models /\ accepts_model c m = true).
Proof.
  rewrite filter_models_filter. split; [done|]. split; [apply filter_sublist|].
  intros m. rewrite !list_elem_of_In. apply filter_In.
Qed.

(** X13. Searching within the result of a search: two searches give the
    same models in either order, repeating a search changes nothing, a
    search without criteria returns its input, and a search over two lists
    joined is the two searches joined. *)
Theorem filter_models_refine models more c1 c2 :
  filter_models (filter_models models c1) c2
    = filter_models (filter_models models c2) c1 /\
  filter_models (filter_models models c1) c1 = filter_models models c1 /\
  filter_models models no_criteria = models /\
  filter_models (models ++ more) c1 = filter_models models c1 ++ filter_models more c1.
Proof.
  rewrite !filter_models_filter, !filter_fuse. repeat split.
  - apply filter_ext. intros m. apply andb_comm.
  - apply filter_ext. intros m. by destruct (accepts_model c1 m).
  - induction models as [|m l IH]; simpl; [done|].
    change (accepts_model no_criteria m) with true. by rewrite IH.
  - apply List.filter_app.
Qed.

Lemma match_empty_pattern v :
  _match_string v "" = false /\ _match_exact v "" = false /\ _match_species v "" = false.
Proof.
  unfold _match_string, _match_exact, _match_species.
  by rewrite orb_true_r.
Qed.

(** X14. An empty string given as a criterion matches nothing, although
    the empty string is a substring of every string: a model search with
    [""] for any of its string criteria returns no model, whatever the
    other criteria. *)
Theorem filter_models_empty_pattern models c :
  Some "" ∈ string_criteria c ->
  filter_models models c = [].
Proof.
  intros H. rewrite filter_models_filter. apply filter_none. intros m.
  destruct (match_empty_pattern (Model.name m)) as (Hs & _ & _).
  unfold accepts_model, string_criteria in *.
  repeat (apply elem_of_cons in H; destruct H as [H|H]);
    [..|by apply elem_of_nil in H];
    rewrite <- H; cbn [passes];
    rewrite ?(proj1 (match_empty_pattern _)), ?(proj1 (proj2 (match_empty_pattern _))),
            ?(proj2 (proj2 (match_empty_pattern _)));
    rewrite ?andb_false_r; reflexivity.
Qed.

Lemma filter_models_empty_pattern_witness :
  filter_models (get_models sample_catalog)
    (mkModelCriteria None None (Some "") None None None None None
                     (Some true) None None None None None None None) = [].
Proof.
  apply filter_models_empty_pattern. unfold string_criteria. simpl.
  do 2 apply list_elem_of_further. apply list_elem_of_here.
Defined.

(** X15. [_match_string] holds exactly when neither string is empty and
    the pattern, in lower case, occurs somewhere in the value in lower
    case. *)
Theorem match_string_spec value pattern :
  _match_string value pattern = true <->
  value <> "" /\ pattern <> "" /\
  exists before after, lower value = before +:+ lower pattern +:+ after.
Proof.
  unfold _match_string.
  destruct value as [|c v]; [simpl; split; [done|by intros [? _]]|].
  destruct pattern as [|d p]; [simpl; split; [done|by intros (_ & ? & _)]|].
  cbn [is_empty orb]. rewrite contains_spec. split.
  - intros H. by repeat split.
  - by intros (_ & _ & H).
Qed.

Lemma species_map_lookup s :
  species_map !! s
  = if String.eqb s "h" then Some "human"
    else if String.eqb s "a" then Some "animal"
    else if String.eqb s "human" then Some "human"
    else if String.eqb s "animal" then Some "animal"
    else None.
Proof.
  unfold species_map.
  destruct (String.eqb_spec s "h") as [->|?]; [by vm_compute|].
  destruct (String.eqb_spec s "a") as [->|?]; [by vm_compute|].
  destruct (String.eqb_spec s "human") as [->|?]; [by vm_compute|].
  destruct (String.eqb_spec s "animal") as [->|?]; [by vm_compute|].
  rewrite !lookup_insert_ne by done. by apply lookup_singleton_ne.
Qed.

(** X16. What the species codes add.  [_match_species] agrees with
    [_match_string], except that a value that is just a code matches the
    word the code stands for: value [h] with pattern [human], value [a]
    with pattern [animal] (in any case).  A code given as the pattern is
    matched as a substring like any other pattern. *)
Theorem match_species_spec value pattern :
  _match_species value pattern
  = _match_string value pattern
    || (String.eqb (lower value) "h" && String.eqb (lower pattern) "human")
    || (String.eqb (lower value) "a" && String.eqb (lower pattern) "animal").
Proof.
  unfold _match_species, _match_string.
  destruct (is_empty value || is_empty pattern) eqn:He.
  - apply orb_true_iff in He.
    destruct He as [He|He]; apply is_empty_spec in He; rewrite He;
      simpl; by rewrite ?andb_false_r.
  - cbv zeta. destruct (contains (lower value) (lower pattern)) eqn:Hc; [done|].
    rewrite !species_map_lookup. simpl orb.
    generalize dependent (lower pattern). generalize dependent (lower value).
    intros v p Hc.
    assert (String.eqb p v = false) as Hne.
    { apply String.eqb_neq. intros ->. by rewrite contains_refl in Hc. }
    destruct (String.eqb_spec p "h") as [->|?];
      [|destruct (String.eqb_spec p "a") as [->|?];
        [|destruct (String.eqb_spec p "human") as [->|?];
          [|destruct (String.eqb_spec p "animal") as [->|?]]]];
    (destruct (String.eqb_spec v "h") as [->|?];
      [|destruct (String.eqb_spec v "a") as [->|?];
        [|destruct (String.eqb_spec v "human") as [->|?];
          [|destruct (String.eqb_spec v "animal") as [->|?]]]]);
    try (by vm_compute in Hc); try (by vm_compute in Hne);
    cbn [default orb andb]; rewrite ?andb_false_r; cbn [orb];
    try reflexivity; try (by apply String.eqb_neq); try exact Hne.
Qed.

(** * The requests of a transfer and of a batch *)

Lemma urls_requested_app a b :
  urls_requested (a ++ b) = urls_requested a ++ urls_requested b.
Proof. unfold urls_requested. by rewrite requests_of_app, map_app. Qed.

Lemma attempt_urls self url out exp desc extract cb w :
  urls_requested (log (snd (_download_with_progress self url out exp desc extract cb w)))
  = urls_requested (log w) ++ [url].
Proof.
  destruct (attempt_frame self url out exp desc extract cb w)
    as (_ & _ & _ & _ & evs & Hlog & Hev).
  rewrite Hlog, urls_requested_app. f_equal.
  change (EvRequest ?q :: evs) with ([EvRequest q] ++ evs).
  rewrite urls_requested_app. unfold urls_requested at 2.
  by rewrite (proj2 (attempt_event_silent evs Hev)).
Qed.

Lemma download_attempts_urls self url out exp desc extract cb : forall k j last w,
  exists a : nat,
    (a <= k)%nat /\
    urls_requested
      (log (snd (download_attempts self url
                   (_download_with_progress self url out exp desc extract cb)
                   k j last w)))
    = urls_requested (log w) ++ repeat url a.
Proof.
  induction k as [|k IH]; intros j last w.
  - exists 0%nat. simpl. by rewrite app_nil_r.
  - rewrite download_attempts_step.
    pose proof (attempt_urls self url out exp desc extract cb w) as Hu.
    destruct (_download_with_progress self url out exp desc extract cb w)
      as [[p|e] w1]; simpl in Hu.
    + exists 1%nat. split; [lia|]. cbn [snd]. by rewrite Hu.
    + destruct (caught_by_download e).
      2:{ exists 1%nat. split; [lia|]. cbn [snd]. by rewrite Hu. }
      set (w2 := if j <? max_retries self - 1 then _ else _).
      assert (urls_requested (log w2) = urls_requested (log w1)) as H2.
      { unfold w2. destruct (_ <? _); [|done]. simpl.
        by rewrite urls_requested_app, app_nil_r. }
      destruct (IH (j + 1) (Some e) w2) as (a & Ha & Hr).
      exists (S a). split; [lia|].
      by rewrite Hr, H2, Hu, <- app_assoc.
Qed.

Lemma download_urls self url out exp desc extract cb w :
  exists a : nat,
    (a <= Z.to_nat (max_retries self))%nat /\
    urls_requested (log (snd (download self url out exp desc extract cb w)))
    = urls_requested (log w) ++ repeat url a.
Proof.
  rewrite download_eq.
  destruct (download_attempts_urls self url out exp desc extract cb
              (Z.to_nat (max_retries self)) 0 None (emit (EvMkdir (parent out)) w))
    as (a & Ha & Hr).
  exists a. split; [done|]. rewrite Hr. simpl.
  by rewrite urls_requested_app, app_nil_r.
Qed.

Lemma batch_item_urls self dir extract cb i total t w :
  exists a : nat,
    (a <= Z.to_nat (max_retries self))%nat /\
    urls_requested (log (snd (batch_item self dir extract cb i total t w)))
    = urls_requested (log w) ++ repeat (tr_url t) a.
Proof.
  unfold batch_item.
  set (w0 := if show_progress self then _ else w).
  assert (urls_requested (log w0) = urls_requested (log w)) as H0.
  { unfold w0. destruct (show_progress self); [|done].
    simpl. by rewrite urls_requested_app, app_nil_r. }
  destruct (download_urls self (tr_url t) (joinpath dir (tr_filename t))
              (tr_size t) None extract false w0) as (a & Ha & Hd).
  exists a. split; [done|].
  destruct (download _ _ _ _ _ _ _ w0) as [[p|e] w1]; simpl in Hd; cbn [snd].
  - destruct cb; simpl; rewrite ?urls_requested_app, Hd, H0; [|done].
    by rewrite app_nil_r.
  - destruct (show_progress self); simpl; rewrite ?urls_requested_app, Hd, H0; [|done].
    by rewrite app_nil_r.
Qed.

Lemma batch_loop_urls self dir extract delay cb total : forall ts i results w,
  unpack_cannot_fail extract w ->
  exists slots w' counts,
    download_batch_loop self dir extract delay cb total i (map record_of ts) results w
      = (Ok (results ++ slots), w') /\
    is_zip w' = is_zip w /\
    length slots = length ts /\
    length counts = length ts /\
    Forall (fun a => (a <= Z.to_nat (max_retries self))%nat) counts /\
    urls_requested (log w') = urls_requested (log w) ++ item_requests ts counts.
Proof.
  induction ts as [|t ts IH]; intros i results w Hzip.
  - exists [], w, []. simpl. unfold ret. rewrite !app_nil_r. by repeat split.
  - cbn [map].
    destruct (batch_loop_step self dir extract delay cb total i t (map record_of ts)
                results w Hzip) as [Hz ->].
    destruct (batch_item_urls self dir extract cb i total t w) as (a & Ha & Hu).
    destruct (batch_item self dir extract cb i total t w) as [slot w1].
    cbn [fst snd] in *.
    set (w2 := if _ && _ then _ else _).
    assert (urls_requested (log w2) = urls_requested (log w1) /\ is_zip w2 = is_zip w1)
      as [Hu2 Hz2].
    { unfold w2. destruct (_ && _); [|done]. simpl.
      by rewrite urls_requested_app, app_nil_r. }
    destruct (IH (i + 1) (results ++ [slot]) w2)
      as (slots & w' & counts & Hrun & Hzw & Hlen & Hcl & Hca & Hurls).
    { destruct Hzip as [->|Hzip]; [by left|right]. intros b.
      rewrite Hz2, Hz. apply Hzip. }
    exists (slot :: slots), w', (a :: counts). rewrite Hrun. split.
    { by rewrite <- app_assoc. }
    split; [congruence|].
    split; [simpl; by rewrite Hlen|].
    split; [simpl; by rewrite Hcl|].
    split; [by constructor|].
    rewrite Hurls, Hu2, Hu. unfold item_requests. simpl.
    by rewrite <- app_assoc.
Qed.

Lemma download_batch_total self ts dir extract delay cb w :
  unpack_cannot_fail extract w ->
  exists slots w' counts,
    download_batch self (map record_of ts) dir extract delay cb w = (Ok slots, w') /\
    is_zip w' = is_zip w /\
    length slots = length ts /\
    length counts = length ts /\
    Forall (fun a => (a <= Z.to_nat (max_retries self))%nat) counts /\
    urls_requested (log w') = urls_requested (log w) ++ item_requests ts counts.
Proof.
  intros Hzip. unfold download_batch, bind, do.
  destruct (batch_loop_urls self dir extract delay cb
              (Z.of_nat (length (map record_of ts))) ts 0 []
              (emit (EvMkdir (str_path dir)) w) Hzip)
    as (slots & w' & counts & Hrun & Hz & Hlen & Hcl & Hca & Hu).
  exists slots, w', counts. rewrite Hrun. repeat split; try done.
  rewrite Hu. simpl. by rewrite urls_requested_app, app_nil_r.
Qed.

(** X17. A batch goes through its items strictly in input order: the
    requests it sends are those of the first item, then those of the
    second, and so on, every item with at most [max_retries] requests, all
    of them to that item's URL. *)
Theorem download_batch_requests_in_order self ts output_dir extract delay cb w :
  unpack_cannot_fail extract w ->
  exists slots w' counts,
    download_batch self (map record_of ts) output_dir extract delay cb w
      = (Ok slots, w') /\
    length counts = length ts /\
    Forall (fun a => (a <= Z.to_nat (max_retries self))%nat) counts /\
    urls_requested (log w') = urls_requested (log w) ++ item_requests ts counts.
Proof.
  intros Hzip.
  destruct (download_batch_total self ts output_dir extract delay cb w Hzip)
    as (slots & w' & counts & Hrun & _ & _ & Hcl & Hca & Hu).
  by exists slots, w', counts.
Qed.

Lemma download_batch_requests_in_order_witness :
  urls_requested
    (log (snd (download_batch sample_manager (map record_of sample_batch) sample_dir
                 false 0 false (sample_world ∅ refuses_b))))
  = ["https://example.com/a.zip";
     "https://example.com/b.zip"; "https://example.com/b.zip";
     "https://example.com/b.zip";
     "https://example.com/c.zip"].
Proof.
  assert (unpack_cannot_fail false (sample_world ∅ refuses_b)) as Hz by (by left).
  destruct (download_batch_requests_in_order sample_manager sample_batch sample_dir
              false 0 false (sample_world ∅ refuses_b) Hz)
    as (slots & w' & counts & Hrun & _ & _ & _).
  rewrite Hrun. simpl snd. apply (f_equal snd) in Hrun. simpl in Hrun.
  rewrite <- Hrun. by vm_compute.
Defined.

(** * The client (src/pyvmr/client.py) *)

Lemma find_model_spec (l : list Model.t) n :
  match List.find (fun model => String.eqb (Model.name model) n) l with
  | Some model => Model.name model = n /\ model ∈ l /\ n ∈ map Model.name l
  | None => n ∉ map Model.name l
  end.
Proof.
  induction l as [|m l IH]; simpl.
  - apply not_elem_of_nil.
  - destruct (String.eqb_spec (Model.name m) n) as [E|E].
    + split; [done|]. split; [apply list_elem_of_here|].
      rewrite <- E. apply list_elem_of_here.
    + destruct (List.find _ l) as [model|].
      * destruct IH as (H1 & H2 & H3).
        split; [done|]. split; by apply list_elem_of_further.
      * intros H. apply elem_of_cons in H. destruct H as [H|H]; [congruence|done].
Qed.

Lemma get_model_known self name :
  known self name = match get_model self name with Some _ => true | None => false end.
Proof.
  unfold known, get_model.
  pose proof (find_model_spec (get_models (_catalog self)) name) as H.
  destruct (List.find _ _).
  - apply bool_decide_eq_true_2. apply H.
  - by apply bool_decide_eq_false_2.
Qed.

(** X19. A name the loaded catalogue does not hold: [get_model] and
    [get_download_size] answer [None], and [download] raises
    [ValueError] with the name in its message, whatever was asked for
    besides the model. *)
Theorem client_download_unknown self name output_dir extract sims pdf w :
  name ∉ map Model.name (get_models (_catalog self)) ->
  get_model self name = None /\
  get_download_size self name = None /\
  fst (client_download self name output_dir extract sims pdf w)
    = Raises (ValueError ("Model not found: " +:+ name)).
Proof.
  intros H. unfold get_download_size, client_download.
  pose proof (get_model_known self name) as Hk. unfold known in Hk.
  rewrite bool_decide_eq_false_2 in Hk by done.
  by destruct (get_model self name).
Qed.

Lemma client_download_unknown_witness :
  fst (client_download sample_client "0002_H_AO" sample_dir true true true
         (sample_world ∅ (serves 10)))
  = Raises (ValueError "Model not found: 0002_H_AO").
Proof.
  assert ("0002_H_AO" ∉ map Model.name (get_models (_catalog sample_client))) as H.
  { apply (bool_decide_unpack _). by vm_compute. }
  exact (proj2 (proj2 (client_download_unknown sample_client "0002_H_AO" sample_dir
                         true true true (sample_world ∅ (serves 10)) H))).
Defined.

(** ** Simulations *)

Lemma get_simulations_matching self model_name :
  get_simulations self model_name = simulations_matching self model_name.
Proof.
  unfold get_simulations, simulations_matching.
  rewrite filter_simulations_filter. apply filter_ext. intros s.
  unfold accepts_simulation. simpl. by rewrite !andb_true_r.
Qed.

Lemma simulation_records model_name sims :
  map (simulation_record model_name) sims
  = map record_of (map (simulation_request model_name) sims).
Proof. by rewrite map_map. Qed.

Lemma download_simulations_total self model_name dir extract w :
  unpack_cannot_fail extract w ->
  let sims := simulations_matching self model_name in
  exists slots w' counts,
    download_simulations self model_name dir extract w = (Ok slots, w') /\
    is_zip w' = is_zip w /\
    (sims = [] -> w' = w) /\
    length slots = length sims /\
    length counts = length sims /\
    Forall (fun a => (a <= Z.to_nat (max_retries (_downloader self)))%nat) counts /\
    urls_requested (log w')
      = urls_requested (log w)
        ++ item_requests (map (simulation_request model_name) sims) counts.
Proof.
  intros Hzip sims. unfold download_simulations.
  rewrite get_simulations_matching. fold sims.
  destruct sims as [|s sims'] eqn:E.
  - exists [], w, []. unfold ret. simpl. rewrite app_nil_r. by repeat split.
  - rewrite simulation_records.
    destruct (download_batch_total (_downloader self)
                (map (simulation_request model_name) (s :: sims')) dir extract
                (1 # 2) false w Hzip)
      as (slots & w' & counts & Hrun & Hz & Hlen & Hcl & Hca & Hu).
    exists slots, w', counts. rewrite Hrun.
    rewrite length_map in Hlen, Hcl. by repeat split.
Qed.



(** ** A batch of models *)

Lemma gather_downloads_requests self names :
  gather_downloads self names = map record_of (omap (model_request self) names).
Proof.
  induction names as [|n names IH]; [done|].
  change (omap (model_request self) (n :: names))
    with (match model_request self n with
          | Some t => t :: omap (model_request self) names
          | None => omap (model_request self) names
          end).
  cbn [gather_downloads]. unfold model_request at 1.
  destruct (get_model self n); cbn [map]; by rewrite IH.
Qed.

Lemma model_requests_length self names :
  length (omap (model_request self) names) = length (List.filter (known self) names).
Proof.
  induction names as [|n names IH]; [done|].
  change (omap (model_request self) (n :: names))
    with (match model_request self n with
          | Some t => t :: omap (model_request self) names
          | None => omap (model_request self) names
          end).
  cbn [List.filter]. rewrite get_model_known. unfold model_request at 1.
  destruct (get_model self n); cbn [length]; by rewrite IH.
Qed.

Lemma fetch_simulations_total self name dir extract w :
  unpack_cannot_fail extract w ->
  exists w', fetch_simulations self name dir extract w = (Ok tt, w') /\
             is_zip w' = is_zip w.
Proof.
  intros Hzip. unfold fetch_simulations.
  destruct (get_simulations self name); [by exists w|].
  destruct (download_simulations_total self name
              (joinpath dir (name +:+ "_simulations")) extract w Hzip)
    as (slots & w' & counts & Hrun & Hz & _).
  exists w'. unfold bind. by rewrite Hrun.
Qed.

Lemma fetch_all_simulations_total self dir extract : forall names w,
  unpack_cannot_fail extract w ->
  exists w', fetch_all_simulations self names dir extract w = (Ok tt, w') /\
             is_zip w' = is_zip w.
Proof.
  induction names as [|n names IH]; intros w Hzip; [by exists w|].
  cbn [fetch_all_simulations]. unfold bind.
  destruct (fetch_simulations_total self n dir extract w Hzip) as (w1 & -> & Hz1).
  destruct (IH w1) as (w2 & Hrun & Hz2).
  { destruct Hzip as [->|Hzip]; [by left|right]. intros b. rewrite Hz1. apply Hzip. }
  exists w2. split; [done|congruence].
Qed.

(** X21. The client's [download_batch] leaves out the names the catalogue
    does not hold: it returns one slot for every name it knows, so that
    with an unknown name among them the result is shorter than the list of
    names and its positions no longer line up with it. *)
Theorem client_download_batch_skips_unknown self names output_dir extract sims w :
  unpack_cannot_fail extract w ->
  exists slots w',
    client_download_batch self names output_dir extract sims w = (Ok slots, w') /\
    length slots = length (List.filter (known self) names) /\
    ((exists name, name ∈ names /\ known self name = false) ->
     (length slots < length names)%nat).
Proof.
  intros Hzip. unfold client_download_batch. cbv zeta.
  rewrite gather_downloads_requests. unfold bind at 1.
  destruct (download_batch_total (_downloader self) (omap (model_request self) names)
              output_dir extract (1 # 2) false w Hzip)
    as (slots & w1 & counts & -> & Hz & Hlen & _).
  rewrite model_requests_length in Hlen.
  assert (exists w', (when sims (fetch_all_simulations self names output_dir extract)
                      >>> ret slots) w1 = (Ok slots, w')) as [w' Hrun].
  { unfold bind. destruct sims; simpl; [|by exists w1].
    destruct (fetch_all_simulations_total self output_dir extract names w1)
      as (w2 & -> & _); [|by exists w2].
    destruct Hzip as [->|Hzip]; [by left|right]. intros b. rewrite Hz. apply Hzip. }
  exists slots, w'. split; [exact Hrun|]. split; [done|].
  intros (name & Hin & Hk). rewrite Hlen. clear -Hin Hk.
  induction names as [|n names IH]; [by apply elem_of_nil in Hin|].
  apply elem_of_cons in Hin. simpl. destruct Hin as [<-|Hin].
  - rewrite Hk. pose proof (filter_length_le (known self) names). lia.
  - specialize (IH Hin). destruct (known self n); simpl; lia.
Qed.

Lemma client_download_batch_skips_unknown_witness :
  fst (client_download_batch sample_client ["0002_H_AO"; "0001_H_AO"] sample_dir
         false false (sample_world ∅ (serves 5)))
  = Ok [Some (mkPath "/out" "0001_H_AO.zip")].
Proof.
  assert (unpack_cannot_fail false (sample_world ∅ (serves 5))) as Hz by (by left).
  destruct (client_download_batch_skips_unknown sample_client ["0002_H_AO"; "0001_H_AO"]
              sample_dir false false (sample_world ∅ (serves 5)) Hz)
    as (slots & w' & Hrun & _ & _).
  rewrite Hrun. simpl fst. apply (f_equal fst) in Hrun. simpl in Hrun.
  rewrite <- Hrun. by vm_compute.
Defined.

(** ** The model and its documentation *)

Lemma append_inj_r (a b c : string) : a +:+ b = a +:+ c -> b = c.
Proof.
  induction a as [|x a IH]; [done|].
  rewrite !app_cons. intros [= H]. by apply IH.
Qed.

(** X22. The documentation comes after the model.  When the archive has
    been fetched and the download of the PDF then fails, the client's
    [download] raises that failure -- a [DownloadError] -- instead of
    returning the path of the archive; the archive stays where it was
    delivered, with the bytes it had. *)
Theorem client_download_pdf_failure self name output_dir model w w1 e w2 :
  let archive := joinpath output_dir (name +:+ ".zip") in
  get_model self name = Some model ->
  download (_downloader self) (PROJECTS_DOWNLOAD_URL name) archive
    (Model.file_size model) (Some name) false false w = (Ok archive, w1) ->
  download_pdf self name output_dir w1 = (Raise e, w2) ->
  client_download self name output_dir false false true w
    = (Raises (Downloader e), w2) /\
  (exists msg, e = DownloadError msg) /\
  is_Some (fs w2 !! archive) /\
  fs w2 !! archive = fs w1 !! archive.
Proof.
  intros archive Hm Hzip Hpdf.
  split.
  { unfold client_download. rewrite Hm. unfold cbind, call. fold archive.
    rewrite Hzip. cbn [when]. unfold ret at 1. unfold bind. by rewrite Hpdf. }
  unfold download_pdf in Hpdf.
  set (pdf := joinpath output_dir (name +:+ ".pdf")) in *.
  assert (exists msg, e = DownloadError msg) as [msg ->].
  { destruct (download_outcome (_downloader self) (PDF_DOWNLOAD_URL name) pdf None
                (Some (name +:+ ".pdf")) false false w1 (or_introl eq_refl))
      as (w' & _ & [(p & Hrun)|(m & Hrun)]); rewrite Hrun in Hpdf; [done|].
    injection Hpdf as <- _. by exists m. }
  split; [by exists msg|].
  pose proof (download_files (_downloader self) (PROJECTS_DOWNLOAD_URL name) archive
                (Model.file_size model) (Some name) false false w
                (or_introl eq_refl)) as Hd.
  rewrite Hzip in Hd. destruct Hd as [(_ & Hsome & _) _].
  pose proof (download_files (_downloader self) (PDF_DOWNLOAD_URL name) pdf None
                (Some (name +:+ ".pdf")) false false w1 (or_introl eq_refl)) as Hk.
  rewrite Hpdf in Hk. destruct Hk as (_ & _ & _ & Hq).
  assert (fs w2 !! archive = fs w1 !! archive) as Hsame.
  { apply Hq.
    - unfold archive, pdf, joinpath. intros [= H]. by apply append_inj_r in H.
    - rewrite temp_path_of_eq. unfold archive, pdf, joinpath. simpl.
      rewrite append_assoc. intros [= H]. by apply append_inj_r in H. }
  split; [by rewrite Hsame|done].
Qed.

Lemma client_download_pdf_failure_witness :
  fst (client_download sample_client "0001_H_AO" sample_dir false false true
         (sample_world ∅ refuses_pdf))
  = Raises (Downloader (DownloadError
      "Failed to download https://www.vascularmodel.com/vmr-pdfs/0001_H_AO.pdf after 3 attempts: Network error")) /\
  is_Some (fs (snd (client_download sample_client "0001_H_AO" sample_dir false false true
                      (sample_world ∅ refuses_pdf)))
           !! joinpath sample_dir ("0001_H_AO" +:+ ".zip")).
Proof.
  assert (get_model sample_client "0001_H_AO"
          = Some (sample_model "0001_H_AO" "Human" (Some 5))) as Hm by reflexivity.
  assert (exists w1, download (_downloader sample_client) (PROJECTS_DOWNLOAD_URL "0001_H_AO")
            (joinpath sample_dir ("0001_H_AO" +:+ ".zip"))
            (Model.file_size (sample_model "0001_H_AO" "Human" (Some 5)))
            (Some "0001_H_AO") false false (sample_world ∅ refuses_pdf)
          = (Ok (joinpath sample_dir ("0001_H_AO" +:+ ".zip")), w1) /\
          exists w2, download_pdf sample_client "0001_H_AO" sample_dir w1
          = (Raise (DownloadError
               "Failed to download https://www.vascularmodel.com/vmr-pdfs/0001_H_AO.pdf after 3 attempts: Network error"),
             w2)) as (w1 & Hz & w2 & Hp).
  { eexists. split; [by vm_compute|]. eexists. by vm_compute. }
  destruct (client_download_pdf_failure sample_client "0001_H_AO" sample_dir _
              _ w1 _ w2 Hm Hz Hp) as (Hrun & _ & Hsome & _).
  rewrite Hrun. split; [reflexivity|exact Hsome].
Defined.
